(** * Marksheet extractor: a shallow embedding of [src/app.py]

    The development embeds [is_allowed_file] and the parsing core of
    [extract_marksheet_blocks] (field extractor, block segmenter, row
    reconstructor, block assembler) and proves properties of them.

    Text.  A Python [str] is modelled by a Rocq [string]; a character is one
    of the 256 code points U+0000..U+00FF (the type [ascii] read as Latin-1).
    The character classes below are the ones Python uses on that range, and
    the properties are about texts within it.  Outside it the program reads
    more: [\d] takes every Unicode decimal digit, [re.IGNORECASE] lets
    [[A-Z]] and the literal letters take U+0130, U+0131, U+017F and U+212A,
    and [str.capitalize] can change the length of a text.

    Regular expressions.  Python's [re] is a backtracking matcher.  It is
    modelled by [run], which returns the list of all ways a pattern can match
    at a position, in the order in which the backtracking matcher tries them;
    the match Python reports is the head of that list. *)

From Stdlib Require Import Ascii String List Arith Lia Bool.
From stdpp Require Import gmap strings list fin_maps.
Import ListNotations.

Local Open Scope string_scope.
Local Open Scope nat_scope.
Local Open Scope list_scope.
Local Open Scope stdpp_scope.

(** ** Characters *)

Module Chars.

Definition code (c : ascii) : nat := nat_of_ascii c.

Definition in_range (lo hi : nat) (c : ascii) : bool :=
  (lo <=? code c) && (code c <=? hi).

(** [str.isspace] and the class [\s] of a [str] pattern. *)
Definition is_space (c : ascii) : bool :=
  in_range 9 13 c || in_range 28 32 c || (code c =? 133) || (code c =? 160).

(** The class [\d] of a [str] pattern. *)
Definition is_digit (c : ascii) : bool := in_range 48 57 c.

Definition is_upper (c : ascii) : bool := in_range 65 90 c.
Definition is_lower (c : ascii) : bool := in_range 97 122 c.

(** [[A-Za-z]], which is also what [[A-Z]] matches under [re.IGNORECASE]. *)
Definition is_alpha (c : ascii) : bool := is_upper c || is_lower c.

(** The class [\w] of a [str] pattern: alphanumeric characters and [_]. *)
Definition is_word (c : ascii) : bool :=
  is_digit c || is_alpha c || (code c =? 95)
  || (code c =? 170) || (code c =? 178) || (code c =? 179) || (code c =? 181)
  || (code c =? 185) || (code c =? 186) || in_range 188 190 c
  || in_range 192 214 c || in_range 216 246 c || in_range 248 255 c.

(** [.] without [re.DOTALL]. *)
Definition not_newline (c : ascii) : bool := negb (code c =? 10).

(** Line boundaries of [str.splitlines]. *)
Definition is_linebreak (c : ascii) : bool :=
  in_range 10 13 c || in_range 28 30 c || (code c =? 133).

(** [str.lower] on one character. *)
Definition lower (c : ascii) : ascii :=
  if is_upper c || (in_range 192 222 c && negb (code c =? 215))
  then ascii_of_nat (code c + 32) else c.

(** [str.upper] on one character; only the letters a-z are changed (the
    callers apply it to text matched by an ASCII pattern). *)
Definition upper (c : ascii) : ascii :=
  if is_lower c then ascii_of_nat (code c - 32) else c.

(** A literal character of a pattern compiled with [re.IGNORECASE]. *)
Definition ci (c : ascii) (x : ascii) : bool := Ascii.eqb (lower x) (lower c).

(** A literal character of a pattern compiled without flags. *)
Definition cs (c : ascii) (x : ascii) : bool := Ascii.eqb x c.

End Chars.

(** ** Regular expressions *)

Module Re.
Import Chars.

Inductive regex : Type :=
| Eps
| Cls (p : ascii -> bool)
| Rep (greedy : bool) (lo : nat) (hi : option nat) (p : ascii -> bool)
| Seq (r1 r2 : regex)
| Alt (r1 r2 : regex)
| Grp (n : nat) (r : regex)
| Bol
| Eol
| WordB
| Ahead (r : regex).

(** Captured groups, by group number. *)
Definition caps := list (nat * list ascii).

(** One way of matching: the text matched, the text left, the groups set. *)
Definition outcome : Type := list ascii * list ascii * caps.

(** Length of the longest prefix of [s] whose characters satisfy [p], at most
    [hi] characters. *)
Fixpoint span (p : ascii -> bool) (hi : option nat) (s : list ascii) : nat :=
  match hi with
  | Some 0 => 0
  | _ =>
    match s with
    | c :: s' => if p c then S (span p (pred <$> hi) s') else 0
    | [] => 0
    end
  end.

(** The counts a repetition tries, in order: [n, n-1, .., lo] when greedy,
    [lo, .., n] when lazy. *)
Definition counts (greedy : bool) (lo n : nat) : list nat :=
  let up := seq lo (S n - lo) in
  if greedy then rev up else up.

(** The character before the position reached after matching [m]. *)
Definition prev_after (prev : option ascii) (m : list ascii) : option ascii :=
  from_option Some prev (last m).

Definition at_word_boundary (prev : option ascii) (s : list ascii) : bool :=
  xorb (from_option is_word false prev) (from_option is_word false (head s)).

(** [run r prev s]: all matches of [r] at the position that has [s] to its
    right and the character [prev] to its left, most preferred first. *)
Fixpoint run (r : regex) (prev : option ascii) (s : list ascii) : list outcome :=
  match r with
  | Eps => [([], s, [])]
  | Cls p =>
    match s with
    | c :: s' => if p c then [([c], s', [])] else []
    | [] => []
    end
  | Rep greedy lo hi p =>
    (fun k => (take k s, drop k s, [])) <$> counts greedy lo (span p hi s)
  | Seq r1 r2 =>
    '(m1, s1, c1) ← run r1 prev s;
    '(m2, s2, c2) ← run r2 (prev_after prev m1) s1;
    [(m1 ++ m2, s2, c1 ++ c2)]
  | Alt r1 r2 => run r1 prev s ++ run r2 prev s
  | Grp n r => (fun '(m, s', c) => (m, s', c ++ [(n, m)])) <$> run r prev s
  | Bol => if prev is None then [([], s, [])] else []
  | Eol =>
    match s with
    | [] => [([], s, [])]
    | [c] => if code c =? 10 then [([], s, [])] else []
    | _ => []
    end
  | WordB => if at_word_boundary prev s then [([], s, [])] else []
  | Ahead r => if run r prev s is [] then [] else [([], s, [])]
  end.

(** A match object: where the match starts, what it matched, its groups. *)
Record match_obj := { m_start : nat; m_text : list ascii; m_caps : caps }.

Fixpoint assoc (n : nat) (c : caps) : option (list ascii) :=
  match c with
  | [] => None
  | (k, v) :: c' => if k =? n then Some v else assoc n c'
  end.

(** [m.group(n)], [None] when the group took no part in the match. *)
Definition group (n : nat) (m : match_obj) : option string :=
  string_of_list_ascii <$> assoc n (m_caps m).

Definition match_at (r : regex) (i : nat) (prev : option ascii)
    (s : list ascii) : option match_obj :=
  (fun '(m, _, c) => {| m_start := i; m_text := m; m_caps := c |}) <$>
    head (run r prev s).

(** Leftmost match, scanning the start position from [i] on. *)
Fixpoint search_from (r : regex) (i : nat) (prev : option ascii)
    (s : list ascii) : option match_obj :=
  match match_at r i prev s with
  | Some m => Some m
  | None =>
    match s with
    | c :: s' => search_from r (S i) (Some c) s'
    | [] => None
    end
  end.

(** [pattern.search(s)] *)
Definition search (r : regex) (s : string) : option match_obj :=
  search_from r 0 None (list_ascii_of_string s).

(** [pattern.match(s)] *)
Definition match_ (r : regex) (s : string) : option match_obj :=
  match_at r 0 None (list_ascii_of_string s).

(** *** Pattern syntax *)

Fixpoint seqs (rs : list regex) : regex :=
  match rs with
  | [] => Eps
  | [r] => r
  | r :: rs' => Seq r (seqs rs')
  end.

Fixpoint alts (rs : list regex) : regex :=
  match rs with
  | [] => Cls (fun _ => false)
  | [r] => r
  | r :: rs' => Alt r (alts rs')
  end.

(** A literal word under [re.IGNORECASE]. *)
Definition lit (w : string) : regex :=
  seqs (Cls ∘ ci <$> list_ascii_of_string w).

(** [r?] *)
Definition opt (r : regex) : regex := Alt r Eps.

Definition star (p : ascii -> bool) : regex := Rep true 0 None p.
Definition plus (p : ascii -> bool) : regex := Rep true 1 None p.
Definition plus_lazy (p : ascii -> bool) : regex := Rep false 1 None p.
Definition exactly (n : nat) (p : ascii -> bool) : regex := Rep true n (Some n) p.

(** [\s*], [\s+], [\d+], [.+] *)
Definition ws : regex := star is_space.
Definition ws1 : regex := plus is_space.
Definition digits : regex := plus is_digit.
Definition any1 : regex := plus not_newline.

End Re.

(** ** The [str] methods the program uses *)

Module Str.
Import Chars.

Definition of_list : list ascii -> string := string_of_list_ascii.
Definition to_list : string -> list ascii := list_ascii_of_string.

Fixpoint drop_while (p : ascii -> bool) (s : list ascii) : list ascii :=
  match s with
  | c :: s' => if p c then drop_while p s' else s
  | [] => []
  end.

Definition lstrip_l (s : list ascii) : list ascii := drop_while is_space s.
Definition rstrip_l (s : list ascii) : list ascii :=
  rev (drop_while is_space (rev s)).
Definition strip_l (s : list ascii) : list ascii := rstrip_l (lstrip_l s).

(** [s.strip()] *)
Definition strip (s : string) : string := of_list (strip_l (to_list s)).

(** [s.rstrip(":")] *)
Definition rstrip_colon (s : string) : string :=
  of_list (rev (drop_while (cs ":") (rev (to_list s)))).

(** [s.lower()] *)
Definition lower (s : string) : string := of_list (Chars.lower <$> to_list s).

(** [s.capitalize()]: the first character in upper case, the others in
    lower case. *)
Definition capitalize (s : string) : string :=
  match s with
  | EmptyString => EmptyString
  | String c s' => String (Chars.upper c) (lower s')
  end.

(** [s.startswith(p)] *)
Definition startswith (s p : string) : bool := String.prefix p s.

(** [find sub s]: the text before and the text after the first occurrence
    of the non-empty [sub] in [s]. *)
Fixpoint find (sub : string) (s : string) : option (string * string) :=
  if String.prefix sub s
  then Some (EmptyString, String.substring (String.length sub) (String.length s) s)
  else match s with
       | EmptyString => None
       | String c s' =>
         match find sub s' with
         | Some (l, r) => Some (String c l, r)
         | None => None
         end
       end.

(** [sub in s] *)
Definition contains (sub s : string) : bool :=
  if find sub s is Some _ then true else false.

(** [s.split(sep, 1)], as the pair of its first element and the rest
    ([None] when [s] has no [sep], in which case the result is [[s]]). *)
Definition split1 (sep s : string) : string * option string :=
  match find sep s with
  | Some (l, r) => (l, Some r)
  | None => (s, None)
  end.

(** ["\n".join(ls)] *)
Definition join_lines (ls : list string) : string :=
  String.concat (String "010" EmptyString) ls.

(** [s.splitlines()]; [cur] holds the current line, reversed. *)
Fixpoint splitlines_l (cur : list ascii) (s : list ascii) : list string :=
  match s with
  | [] => if cur is [] then [] else [of_list (rev cur)]
  | c :: s' =>
    if is_linebreak c then
      of_list (rev cur) ::
        match s' with
        | d :: s'' =>
          if (code c =? 13) && (code d =? 10) then splitlines_l [] s''
          else splitlines_l [] s'
        | [] => []
        end
    else splitlines_l (c :: cur) s'
  end.

Definition splitlines (s : string) : list string := splitlines_l [] (to_list s).

(** [re.sub(r"\s+", " ", s)]: every maximal run of white space becomes one
    space; [in_ws] tells that the previous character was white space. *)
Fixpoint collapse_ws (in_ws : bool) (s : list ascii) : list ascii :=
  match s with
  | [] => []
  | c :: s' =>
    if is_space c
    then if in_ws then collapse_ws true s' else " "%char :: collapse_ws true s'
    else c :: collapse_ws false s'
  end.

Definition sub_ws (s : string) : string := of_list (collapse_ws false (to_list s)).

(** The characters of [s] in reverse order. *)
Definition reverse_str (s : string) : string := of_list (rev (to_list s)).

(** [s.rsplit(sep, 1)]: the list of the text before the last occurrence of
    the non-empty [sep] and of the text after it, or [[s]] when [s] has no
    [sep].  The last occurrence in [s] is the first one in the reversed
    text. *)
Definition rsplit1 (sep s : string) : list string :=
  match find (reverse_str sep) (reverse_str s) with
  | Some (l, r) => [reverse_str r; reverse_str l]
  | None => [s]
  end.

(** [x or d] for a possibly missing string: [None] and [""] are falsy. *)
Definition or_else (x : option string) (d : string) : string :=
  match x with
  | Some (String c s) => String c s
  | _ => d
  end.

End Str.

(** ** The patterns of [extract_marksheet_blocks] *)

Module Pat.
Import Chars Re.

(** [^\s*Code\s+Name\s+Type\s+Internal\s+External\s+Back\s+Paper\s+Grade\s*$] *)
Definition header_regex : regex :=
  seqs [Bol; ws; lit "Code"; ws1; lit "Name"; ws1; lit "Type"; ws1;
        lit "Internal"; ws1; lit "External"; ws1; lit "Back"; ws1;
        lit "Paper"; ws1; lit "Grade"; ws; Eol].

(** [^(?:Minor|Major)\s*Result] *)
Definition heading_result_regex : regex :=
  seqs [Bol; Alt (lit "Minor") (lit "Major"); ws; lit "Result"].

(** The seven alternatives of the Type column. *)
Definition type_words : list string :=
  ["Theory"; "Practical"; "CA"; "Lab"; "Project"; "Workshop"; "Training"].

(** The pattern of [parse_row_to_columns]:
    [^\s*([A-Z]{3}\d{3})\s+(.+?)\s+(Theory|..|Training)\s+(\d+)]
    [(?:\s+(\d+|--))?(?:\s+(--|\d+))?(?:\s+([A-Za-z]{1,2}\+?))?\s*$] *)
Definition row_pattern : regex :=
  seqs [Bol; ws;
        Grp 1 (Seq (exactly 3 is_alpha) (exactly 3 is_digit));
        ws1;
        Grp 2 (plus_lazy not_newline);
        ws1;
        Grp 3 (alts (lit <$> type_words));
        ws1;
        Grp 4 digits;
        opt (Seq ws1 (Grp 5 (Alt digits (lit "--"))));
        opt (Seq ws1 (Grp 6 (Alt (lit "--") digits)));
        opt (Seq ws1 (Grp 7 (Seq (Rep true 1 (Some 2) is_alpha)
                                 (Rep true 0 (Some 1) (ci "+")))));
        ws; Eol].

(** [^[A-Z]{3}\d{3}\b] *)
Definition code_start_regex : regex :=
  seqs [Bol; exactly 3 is_alpha; exactly 3 is_digit; WordB].

(** [^\s*Semester\s*:\s*(\d+)] *)
Definition re_semester : regex :=
  seqs [Bol; ws; lit "Semester"; ws; lit ":"; ws; Grp 1 digits].

(** [Even\s*/\s*Odd\s*:\s*(Even|Odd)] *)
Definition re_even_odd : regex :=
  seqs [lit "Even"; ws; lit "/"; ws; lit "Odd"; ws; lit ":"; ws;
        Grp 1 (Alt (lit "Even") (lit "Odd"))].

(** [Total\s*Subjects\s*:\s*(\d+)]; compiled by the program, never used. *)
Definition re_total_sub : regex :=
  seqs [lit "Total"; ws; lit "Subjects"; ws; lit ":"; ws; Grp 1 digits].

(** [Total\s*Marks\s*Obt\.?\s*:\s*([0-9]+)] *)
Definition re_total_marks : regex :=
  seqs [lit "Total"; ws; lit "Marks"; ws; lit "Obt";
        Rep true 0 (Some 1) (ci "."); ws; lit ":"; ws; Grp 1 (plus is_digit)].

(** [Result\s*Status\s*:\s*(.+)] *)
Definition re_result_status : regex :=
  seqs [lit "Result"; ws; lit "Status"; ws; lit ":"; ws; Grp 1 any1].

(** [SGPA\s*:\s*([0-9]+(?:\.[0-9]+)?)] *)
Definition re_sgpa : regex :=
  seqs [lit "SGPA"; ws; lit ":"; ws;
        Grp 1 (Seq (plus is_digit) (opt (Seq (lit ".") (plus is_digit))))].

(** [label\s*:\s*(.+)], the shape of most fall-back patterns; [label] is
    the list of the words of the label, separated by [\s*] in the pattern. *)
Definition labelled (label : list regex) (value : regex) : regex :=
  seqs (label ++ [ws; lit ":"; ws; Grp 1 value]).

(** The fall-back patterns of the general information, in the order of the
    dictionary [patterns]. *)
Definition patterns : list (string * regex) :=
  [("Institute Code & Name",
    labelled [lit "Institute"; ws; lit "Code"; ws; lit "&"; ws; lit "Name"] any1);
   ("Course Code & Name",
    labelled [lit "Course"; ws; lit "Code"; ws; lit "&"; ws; lit "Name"] any1);
   ("Branch Code & Name",
    labelled [lit "Branch"; ws; lit "Code"; ws; lit "&"; ws; lit "Name"] any1);
   ("RollNo", labelled [lit "Roll"; ws; lit "No"] digits);
   ("EnrollmentNo", labelled [lit "Enrollment"; ws; lit "No"] any1);
   ("Name",
    seqs [lit "Name"; ws; lit ":"; ws; Grp 1 (plus_lazy not_newline);
          Ahead (Alt (seqs [ws; lit "Hindi"; ws; lit "Name"; ws; lit ":"]) Eol)]);
   ("Hindi Name", labelled [lit "Hindi"; ws; lit "Name"] any1);
   ("Gender", labelled [lit "Gender"] (plus is_alpha));
   ("Session", labelled [lit "Session"] any1);
   ("Semester", labelled [lit "Semester"] digits);
   ("Even/Odd", re_even_odd);
   ("SGPA", re_sgpa);
   ("Total Marks Obt.", re_total_marks);
   ("Result Status", re_result_status)].

(** [\d+], used with [re.match] on the roll number. *)
Definition leading_digits : regex := digits.

End Pat.

Import Chars Re Str Pat.

(** ** File names *)

Definition allowed_extensions : gset string := {["pdf"]}.

(** [is_allowed_file]; [None] stands for the [IndexError] of the index
    [[1]] on a list of one element. *)
Definition is_allowed_file (filename : string) : option bool :=
  if contains "." filename then
    ext ← rsplit1 "." filename !! 1;
    Some (bool_decide (lower ext ∈ allowed_extensions))
  else Some false.

(** ** Rows *)

(** A subject row, the list of its seven columns. *)
Definition row : Type := list string.

(** [parse_row_to_columns] *)
Definition parse_row_to_columns (raw : string) : option row :=
  let txt := sub_ws (strip raw) in
  m ← match_ row_pattern txt;
  code ← group 1 m;
  name ← group 2 m;
  course_type ← group 3 m;
  internal ← group 4 m;
  let external := or_else (group 5 m) "--" in
  let back_paper := or_else (group 6 m) "--" in
  let grade := or_else (group 7 m) "--" in
  Some [code; strip name; capitalize course_type; internal;
        external; back_paper; grade].

(** [pattern.search(s)] used as a condition. *)
Definition found (r : regex) (s : string) : bool :=
  if search r s is Some _ then true else false.

(** [m.group(1)] of a pattern whose group 1 takes part in every match. *)
Definition group1 (m : match_obj) : string := default "" (group 1 m).

Definition nonempty (s : string) : bool :=
  if s is EmptyString then false else true.

(** ** Blocks *)

(** The fixed column names. *)
Definition header_cols : list string :=
  ["Code"; "Name"; "Type"; "Internal"; "External"; "Back Paper"; "Grade"].

(** One entry of [marksheet_blocks]: the dictionary with the keys
    ["summary"], ["header"] and ["rows"]. *)
Record block := Block {
  summary : gmap string string;
  header : list string;
  rows : list row
}.

(** [s.isdigit()], on the digits 0-9.  Python also takes the superscript
    digits U+00B2, U+00B3 and U+00B9, on which [int] fails; the program
    calls it on the value of the key ["Total Subjects"] only, which no
    summary has. *)
Definition isdigit (s : string) : bool :=
  nonempty s && forallb is_digit (to_list s).

(** The soft check of [finalize_block]: [Some expected] when the summary has
    a count of subjects to compare with, [None] when the check is skipped.
    The program computes [int(expected)] and drops it. *)
Definition soft_check (summary : gmap string string) : option string :=
  match summary !! "Total Subjects" with
  | Some expected => if nonempty expected && isdigit expected then Some expected else None
  | None => None
  end.

(** [finalize_block]; [marksheet_blocks] is the list it appends to. *)
Definition finalize_block (summary : gmap string string) (table_rows : list row)
    (marksheet_blocks : list block) : list block :=
  match table_rows with
  | [] => marksheet_blocks
  | _ :: _ =>
    let _ := soft_check summary in
    marksheet_blocks ++ [Block summary header_cols table_rows]
  end.

(** [(buffer + " " + l3).strip() if buffer else l3] *)
Definition combine (buffer l3 : string) : string :=
  if nonempty buffer then strip (buffer +:+ " " +:+ l3) else l3.

(** The stop conditions of the row loop. *)
Definition is_stop (l3 : string) : bool :=
  found re_semester l3 || found heading_result_regex l3.

(** The innermost loop, over the rows of a table.  [lines] is what is left of
    the page from the cursor [i] on.  The result gives the lines left when the
    loop ends (at a stop line, which is not consumed, or at the end of the
    page), the buffer and the rows. *)
Fixpoint rows_loop (lines : list string) (buffer : string) (table_rows : list row)
    : list string * string * list row :=
  match lines with
  | [] => ([], buffer, table_rows)
  | raw :: rest =>
    let l3 := strip raw in
    if is_stop l3 then (lines, buffer, table_rows)
    else if found header_regex l3 then rows_loop rest buffer table_rows
    else if negb (nonempty l3) then rows_loop rest buffer table_rows
    else
      let combined := combine buffer l3 in
      match parse_row_to_columns combined with
      | Some parsed => rows_loop rest "" (table_rows ++ [parsed])
      | None =>
        match (if nonempty buffer && found code_start_regex l3
               then parse_row_to_columns buffer else None) with
        | Some parsed_buf => rows_loop rest l3 (table_rows ++ [parsed_buf])
        | None => rows_loop rest (combine buffer l3) table_rows
        end
      end
  end.

(** The flush of the trailing buffer after the row loop. *)
Definition flush (buffer : string) (table_rows : list row) : list row :=
  if nonempty buffer then
    match parse_row_to_columns buffer with
    | Some parsed_buf => table_rows ++ [parsed_buf]
    | None => table_rows
    end
  else table_rows.

(** The row reconstructor on the lines after a table header: the row loop
    and the flush.  It gives the lines left and the rows of the table. *)
Definition collect_rows (lines : list string) : list string * list row :=
  let '(lines', buffer, table_rows) := rows_loop lines "" [] in
  (lines', flush buffer table_rows).

(** The summary a ["Semester :"] line starts. *)
Definition fresh_summary (semester : string) : gmap string string :=
  <["SGPA" := ""]> (<["Result Status" := ""]> (<["Total Marks Obt." := ""]>
    (<["Even/Odd" := ""]> (<["Semester" := semester]> ∅)))).

(** One summary field: [m = regex.search(l2); if m: summary[key] = value]. *)
Definition capture_field (key : string) (r : regex) (post : string -> string)
    (l2 : string) (s : gmap string string) : gmap string string :=
  match search r l2 with
  | Some m => <[key := post (group1 m)]> s
  | None => s
  end.

(** The four captures made on a line of the summary. *)
Definition capture_summary (l2 : string) (s : gmap string string)
    : gmap string string :=
  capture_field "SGPA" re_sgpa id l2
    (capture_field "Result Status" re_result_status strip l2
      (capture_field "Total Marks Obt." re_total_marks id l2
        (capture_field "Even/Odd" re_even_odd id l2 s))).

(** The loop that collects the summary lines up to the table header, and
    runs the row loop after it.  It ends at the end of the page or at a
    ["Semester :"] line, which is not consumed.  [fuel] bounds the number of
    iterations. *)
Fixpoint summary_loop (fuel : nat) (lines : list string)
    (current_summary : option (gmap string string)) (marksheet_blocks : list block)
    : option (list string * option (gmap string string) * list block) :=
  match fuel with
  | 0 => None
  | S fuel =>
    match lines with
    | [] => Some ([], current_summary, marksheet_blocks)
    | raw :: rest =>
      let l2 := strip raw in
      if found header_regex l2 then
        let '(lines', table_rows) := collect_rows rest in
        match current_summary with
        | Some s =>
          summary_loop fuel lines' None (finalize_block s table_rows marksheet_blocks)
        | None => summary_loop fuel lines' None marksheet_blocks
        end
      else
        let current_summary := capture_summary l2 <$> current_summary in
        if found re_semester l2 then Some (lines, current_summary, marksheet_blocks)
        else summary_loop fuel rest current_summary marksheet_blocks
    end
  end.

(** The outer loop over the lines of one page. *)
Fixpoint page_loop (fuel : nat) (lines : list string)
    (current_summary : option (gmap string string)) (marksheet_blocks : list block)
    : option (list block) :=
  match fuel with
  | 0 => None
  | S fuel =>
    match lines with
    | [] => Some marksheet_blocks
    | raw :: rest =>
      let line := strip raw in
      match search re_semester line with
      | Some m_sem =>
        '(lines', current_summary, marksheet_blocks) ←
          summary_loop fuel rest (Some (fresh_summary (group1 m_sem))) marksheet_blocks;
        page_loop fuel lines' current_summary marksheet_blocks
      | None => page_loop fuel rest current_summary marksheet_blocks
      end
    end
  end.

(** One page: the cursor starts at its first line, with no open summary. *)
Definition scan_page (lines : list string) (marksheet_blocks : list block)
    : option (list block) :=
  page_loop (S (length lines)) lines None marksheet_blocks.

(** The loop over the pages; each page is the list of its lines. *)
Fixpoint scan_pages (pages : list (list string)) (marksheet_blocks : list block)
    : option (list block) :=
  match pages with
  | [] => Some marksheet_blocks
  | lines :: pages' =>
    marksheet_blocks ← scan_page lines marksheet_blocks;
    scan_pages pages' marksheet_blocks
  end.

(** ** General information *)

Definition target_fields_order : list string :=
  ["Institute Code & Name"; "Course Code & Name"; "Branch Code & Name";
   "RollNo"; "EnrollmentNo"; "Name"; "Hindi Name"; "Father's Name"; "Gender";
   "Session"; "Semester"; "Even/Odd"; "SGPA"; "Total Marks Obt."; "Result Status"].

(** The inner loop of the first pass: the first target that is a prefix of
    the key and has no value yet receives the value. *)
Fixpoint assign_first (targets : list string) (lkey value : string)
    (found_map : gmap string string) : gmap string string :=
  match targets with
  | [] => found_map
  | original :: targets' =>
    if startswith lkey (lower original) && bool_decide (found_map !! original = None)
    then <[original := value]> found_map
    else assign_first targets' lkey value found_map
  end.

(** The first pass on one line. *)
Definition first_pass_line (found_map : gmap string string) (raw : string)
    : gmap string string :=
  let line := strip raw in
  if negb (nonempty line) || negb (contains ":" line) then found_map
  else
    let '(left_, right_) := split1 ":" line in
    let key := strip left_ in
    let value := strip (default "" right_) in
    assign_first target_fields_order (lower key) value found_map.

(** The second pass: the fall-back patterns on the whole text. *)
Definition second_pass_label (full_text : string)
    (found_map : gmap string string) (entry : string * regex)
    : gmap string string :=
  let '(label, regex) := entry in
  if nonempty (default "" (found_map !! label)) then found_map
  else
    match search regex full_text with
    | Some m => <[label := strip (group1 m)]> found_map
    | None => found_map
    end.

Definition scan_fields (all_lines : list string) : gmap string string :=
  let full_text := join_lines all_lines in
  let found_map := foldl first_pass_line ∅ all_lines in
  foldl (second_pass_label full_text) found_map patterns.

(** [found_map.get(label, "")] *)
Definition get (found_map : gmap string string) (label : string) : string :=
  default "" (found_map !! label).

(** The nested function [add], on the list it appends to. *)
Definition add (label value : string) (always : bool)
    (general_info : list (string * string)) : list (string * string) :=
  if always || nonempty value then general_info ++ [(label, value)]
  else general_info.

(** The post-processing of the roll number and of the name, and the final
    ordered list. *)
Definition build_general_info (found_map : gmap string string)
    : list (string * string) :=
  let roll_val := get found_map "RollNo" in
  let roll_val :=
    match match_ leading_digits roll_val with
    | Some m_roll => of_list (m_text m_roll)
    | None => roll_val
    end in
  let enroll_val := get found_map "EnrollmentNo" in
  let name_val := get found_map "Name" in
  let name_val :=
    if contains "Hindi" name_val
    then rstrip_colon (strip (fst (split1 "Hindi" name_val)))
    else name_val in
  let marks_val := get found_map "Total Marks Obt." in
  let sgpa_val := get found_map "SGPA" in
  add "SGPA :" sgpa_val true
  (add "Total Marks Obt. :" marks_val true
  (add "Even/Odd" (get found_map "Even/Odd") false
  (add "Semester" (get found_map "Semester") false
  (add "Gender" (get found_map "Gender") false
  (add "Hindi Name" (get found_map "Hindi Name") false
  (add "Name" name_val false
  (add "EnrollmentNo" enroll_val false
  (add "RollNo" roll_val false
  (add "Branch Code & Name" (get found_map "Branch Code & Name") false
  (add "Course Code & Name" (get found_map "Course Code & Name") false
  (add "Institute Code & Name" (get found_map "Institute Code & Name") false
    []))))))))))).

(** ** The whole extraction *)

(** [extract_marksheet_blocks], on the texts of the pages of the document
    ([page.extract_text() or ""] for each page, in order). *)
Definition extract_marksheet_blocks (pages : list string)
    : option (list (string * string) * list block) :=
  let all_lines := concat (splitlines <$> pages) in
  let general_info := build_general_info (scan_fields all_lines) in
  marksheet_blocks ← scan_pages (splitlines <$> pages) [];
  Some (general_info, marksheet_blocks).


(** * Vocabulary of the properties

    The definitions below are not part of the program: they are the words in
    which its properties are stated. *)

(** ** Texts and patterns *)

(** Every character of [m] is in the class [p]. *)
Definition all (p : ascii -> bool) (m : list ascii) : Prop :=
  Forall (fun c => p c = true) m.

(** The texts of a repetition [p{lo,hi}]. *)
Definition rep (p : ascii -> bool) (lo : nat) (hi : option nat)
    (m : list ascii) : Prop :=
  all p m /\ lo <= length m /\ (forall h, hi = Some h -> length m <= h).

(** The texts made of a text of [P1] followed by a text of [P2]. *)
Definition cat (P1 P2 : list ascii -> Prop) (m : list ascii) : Prop :=
  exists m1 m2, m = m1 ++ m2 /\ P1 m1 /\ P2 m2.

(** [w] and [m] are equal up to the case of the letters. *)
Definition ci_eq (w m : list ascii) : Prop :=
  Forall2 (fun c x => ci c x = true) w m.

Definition spaces (m : list ascii) : Prop := all is_space m.
Definition spaces1 (m : list ascii) : Prop := all is_space m /\ 1 <= length m.
Definition number (m : list ascii) : Prop := all is_digit m /\ 1 <= length m.

(** [recognises r P]: [r] has no groups, does not look at its context, and
    matches exactly the texts [P]. *)
Definition recognises (r : regex) (P : list ascii -> Prop) : Prop :=
  forall prev s (o : outcome),
    o ∈ run r prev s <-> exists m s', o = (m, s', []) /\ s = m ++ s' /\ P m.

(** [den r prev m s' c]: at a position with [prev] to its left, [r] can match
    the text [m] followed by [s'], and sets the groups [c]. *)
Fixpoint den (r : regex) (prev : option ascii) (m s' : list ascii) (c : caps)
    : Prop :=
  match r with
  | Eps => m = [] /\ c = []
  | Cls p => (exists x, m = [x] /\ p x = true) /\ c = []
  | Rep _ lo hi p => rep p lo hi m /\ c = []
  | Seq r1 r2 =>
    exists m1 m2 c1 c2, m = m1 ++ m2 /\ c = c1 ++ c2 /\
      den r1 prev m1 (m2 ++ s') c1 /\ den r2 (prev_after prev m1) m2 s' c2
  | Alt r1 r2 => den r1 prev m s' c \/ den r2 prev m s' c
  | Grp n r => exists c0, c = c0 ++ [(n, m)] /\ den r prev m s' c0
  | Bol => prev = None /\ m = [] /\ c = []
  | Eol => (s' = [] \/ s' = ["010"%char]) /\ m = [] /\ c = []
  | WordB => at_word_boundary prev s' = true /\ m = [] /\ c = []
  | Ahead r =>
    (exists m0 s0 c0, s' = m0 ++ s0 /\ den r prev m0 s0 c0) /\ m = [] /\ c = []
  end.

(** All the characters. *)
Definition all_ascii : list ascii := ascii_of_nat <$> seq 0 256.

(** ** The loops *)

(** The open summary, when there is one, satisfies [Q]. *)
Definition good_summary (Q : gmap string string -> Prop)
    (cs : option (gmap string string)) : Prop :=
  forall s, cs = Some s -> Q s.

(** The result of the summary loop, run with the fuel that [scan_page] gives
    to a page of these lines. *)
Definition summary_run (lines : list string) (cs : option (gmap string string))
    (blocks : list block) : list string * option (gmap string string) * list block :=
  default (lines, cs, blocks) (summary_loop (S (length lines)) lines cs blocks).

(** The result of the page loop, run with the fuel of [scan_page]. *)
Definition page_run (lines : list string) (cs : option (gmap string string))
    (blocks : list block) : list block :=
  default blocks (page_loop (S (length lines)) lines cs blocks).

(** ** The general information *)

(** The labels that [build_general_info] emits only with a value. *)
Definition optional_labels : list string :=
  ["Institute Code & Name"; "Course Code & Name"; "Branch Code & Name";
   "RollNo"; "EnrollmentNo"; "Name"; "Hindi Name"; "Gender"; "Semester";
   "Even/Odd"].

(** ** Blocks and summaries *)

(** The rows of the blocks of a result. *)
Definition rows_of (result : option (list (string * string) * list block))
    : option (list (list row)) :=
  match result with
  | Some (_, blocks) => Some (List.map rows blocks)
  | None => None
  end.

(** The value of a field in the blocks of a result. *)
Definition field_of (key : string)
    (result : option (list (string * string) * list block))
    : option (list (option string)) :=
  match result with
  | Some (_, blocks) => Some (List.map (fun b => summary b !! key) blocks)
  | None => None
  end.

(** The number captured by a ["Semester :"] line. *)
Definition semester_number (line : string) : string :=
  from_option group1 "" (search re_semester (strip line)).

(** A line of the summary: neither the table header nor a new block. *)
Definition summary_line (raw : string) : Prop :=
  found header_regex (strip raw) = false /\ found re_semester (strip raw) = false.

(** The summary after the lines [pre] have been seen. *)
Definition summary_after (s : gmap string string) (pre : list string)
    : gmap string string :=
  foldl (fun s raw => capture_summary (strip raw) s) s pre.

(** The fields that the summary loop fills, with their patterns. *)
Definition summary_fields : list (string * regex * (string -> string)) :=
  [("Even/Odd", re_even_odd, id); ("Total Marks Obt.", re_total_marks, id);
   ("Result Status", re_result_status, strip); ("SGPA", re_sgpa, id)].

(** The values that the lines [pre] give to a field, in the order of the
    lines: one value for each line that the pattern of the field matches. *)
Definition captures_of (r : regex) (post : string -> string) (pre : list string)
    : list string :=
  omap (fun raw => (post ∘ group1) <$> search r (strip raw)) pre.

(** The five keys of a summary. *)
Definition summary_keys : gset string :=
  {["Semester"; "Even/Odd"; "Total Marks Obt."; "Result Status"; "SGPA"]}.

(** What holds of the summary of every open block. *)
Definition summary_ok (s : gmap string string) : Prop :=
  dom s = summary_keys /\
  exists v, s !! "Semester" = Some v /\ isdigit v = true.

(** A line that [re_total_sub] matches and no pattern of the segmenter. *)
Definition only_total_subjects (raw : string) : Prop :=
  found re_total_sub (strip raw) = true /\
  found header_regex (strip raw) = false /\
  found re_semester (strip raw) = false /\
  found re_even_odd (strip raw) = false /\
  found re_total_marks (strip raw) = false /\
  found re_result_status (strip raw) = false /\
  found re_sgpa (strip raw) = false.

(** ** The row grammar *)

(** The texts of the columns. *)
Definition code_text : list ascii -> Prop :=
  cat (fun a => all is_alpha a /\ length a = 3)
      (fun b => all is_digit b /\ length b = 3).
Definition name_text (m : list ascii) : Prop :=
  all not_newline m /\ 1 <= length m.
Definition type_text (m : list ascii) : Prop :=
  exists w, w ∈ type_words /\ ci_eq (list_ascii_of_string w) m.
Definition dashes (m : list ascii) : Prop :=
  ci_eq (list_ascii_of_string "--") m.
Definition mark_text (m : list ascii) : Prop := number m \/ dashes m.
Definition grade_text : list ascii -> Prop :=
  cat (rep is_alpha 1 (Some 2)) (rep (ci "+") 0 (Some 1)).

(** An optional column: the white space before it and its text. *)
Definition column : Type := option (list ascii * list ascii).

Definition column_text (o : column) : list ascii :=
  match o with Some (w, x) => w ++ x | None => [] end.
Definition column_cap (n : nat) (o : column) : caps :=
  match o with Some (_, x) => [(n, x)] | None => [] end.
Definition column_ok (P : list ascii -> Prop) (o : column) : Prop :=
  match o with Some (w, x) => spaces1 w /\ P x | None => True end.
Definition column_words (o : column) : list (list ascii) :=
  match o with Some (_, x) => [x] | None => [] end.

(** The value of an optional column: its text, or ["--"]. *)
Definition column_value (o : column) : string :=
  or_else (of_list ∘ snd <$> o) "--".

(** The pieces of a text that [row_pattern] matches: the columns and the
    white space between them. *)
Record row_parts := RowParts {
  p_w0 : list ascii; p_code : list ascii; p_w1 : list ascii;
  p_name : list ascii; p_w2 : list ascii; p_type : list ascii;
  p_w3 : list ascii; p_internal : list ascii;
  p_external : column; p_back_paper : column; p_grade : column;
  p_w4 : list ascii
}.

Definition parts_text (p : row_parts) : list ascii :=
  p_w0 p ++ p_code p ++ p_w1 p ++ p_name p ++ p_w2 p ++ p_type p ++ p_w3 p ++
  p_internal p ++ column_text (p_external p) ++ column_text (p_back_paper p) ++
  column_text (p_grade p) ++ p_w4 p.

Definition parts_caps (p : row_parts) : caps :=
  [(1, p_code p); (2, p_name p); (3, p_type p); (4, p_internal p)] ++
  column_cap 5 (p_external p) ++ column_cap 6 (p_back_paper p) ++
  column_cap 7 (p_grade p).

Definition parts_ok (p : row_parts) : Prop :=
  spaces (p_w0 p) /\ code_text (p_code p) /\ spaces1 (p_w1 p) /\
  name_text (p_name p) /\ spaces1 (p_w2 p) /\ type_text (p_type p) /\
  spaces1 (p_w3 p) /\ number (p_internal p) /\
  column_ok mark_text (p_external p) /\ column_ok mark_text (p_back_paper p) /\
  column_ok grade_text (p_grade p) /\ spaces (p_w4 p).

(** The text that the pattern is matched against. *)
Definition row_text (raw : string) : list ascii := to_list (sub_ws (strip raw)).

(** The row made from the pieces of a match. *)
Definition row_of_parts (p : row_parts) : row :=
  [of_list (p_code p); strip (of_list (p_name p));
   capitalize (of_list (p_type p)); of_list (p_internal p);
   column_value (p_external p); column_value (p_back_paper p);
   column_value (p_grade p)].

(** [[A-Za-z]{3}[0-9]{3}], the whole text. *)
Definition code_shape (code : string) : bool :=
  match to_list code with
  | [a; b; c; d; e; f] =>
    is_alpha a && is_alpha b && is_alpha c && is_digit d && is_digit e && is_digit f
  | _ => false
  end.



(** The columns of a row joined by one space. *)
Definition format_row (r : row) : string := String.concat " " r.

(** ** Words *)

Definition starts_with_space (s : list ascii) : bool :=
  match s with c :: _ => is_space c | [] => false end.

(** The first character of [s], when [s] is not empty, is white space. *)
Definition space_led (s : list ascii) : Prop :=
  match s with c :: _ => is_space c = true | [] => True end.

(** [s.split()]: the maximal runs of characters that are not white space. *)
Fixpoint words (s : list ascii) : list (list ascii) :=
  match s with
  | [] => []
  | c :: s' =>
    if is_space c then words s'
    else match s' with
         | [] => [[c]]
         | d :: _ =>
           if is_space d then [c] :: words s'
           else match words s' with
                | t :: ts => (c :: t) :: ts
                | [] => [[c]]
                end
         end
  end.

(** [" ".join(ts)] *)
Fixpoint unwords (ts : list (list ascii)) : list ascii :=
  match ts with
  | [] => []
  | [t] => t
  | t :: ts' => t ++ " "%char :: unwords ts'
  end.

(** A word: not empty, without white space. *)
Definition token (t : list ascii) : Prop :=
  t <> [] /\ Forall (fun c => is_space c = false) t.

(** Every white space character is a space, and no two are adjacent. *)
Fixpoint collapsed (s : list ascii) : Prop :=
  match s with
  | [] => True
  | c :: s' =>
    (is_space c = true -> c = " "%char /\ starts_with_space s' = false) /\
    collapsed s'
  end.

(** No white space at either end. *)
Definition trimmed (s : list ascii) : Prop :=
  starts_with_space s = false /\ starts_with_space (rev s) = false.

(** The first character is a letter ([b = true]), or is not. *)
Definition alpha_led (b : bool) (m : list ascii) : Prop :=
  exists x m', m = x :: m' /\ is_alpha x = b.

(** ** The specification's wording of the statements that are amended *)

(** C2 in the words of the specification, on a block with two ["SGPA :"]
    lines before its table header: the value of the first line is kept. *)
Definition first_sgpa_line_kept : Prop :=
  field_of "SGPA" (extract_marksheet_blocks
    ["Semester : 1" +:+ String "010" "SGPA : 7.5" +:+ String "010"
     "SGPA : 8.5" +:+ String "010"
     "Code Name Type Internal External Back Paper Grade" +:+ String "010"
     "CSE101 Maths Theory 40 50 -- A"]) = Some [Some "7.5"].


(** C4 in the words of the specification, on a row without grade: the
    canonical text of the parsed row is parsed to the same row. *)
Definition round_trip_without_grade : Prop :=
  forall r,
    parse_row_to_columns "CSE101 Maths Theory 40" = Some r ->
    parse_row_to_columns (format_row r) = Some r.

(** C5 in the words of the specification: the two lines give the single row
    whose name is ["Data Structures"]. *)
Definition wrapped_name_glued : Prop :=
  (collect_rows ["CSE101 Data Struct"; "ures Theory 40 50 -- A"]).2 =
  [["CSE101"; "Data Structures"; "Theory"; "40"; "50"; "--"; "A"]].

(** C9 in the words of the specification, for a line ["Total Subjects : 2"]
    between the table header and the first row: the rows are the same with
    and without the line. *)
Definition total_subjects_line_has_no_effect : Prop :=
  rows_of (extract_marksheet_blocks
    ["Semester : 1" +:+ String "010"
     "Code Name Type Internal External Back Paper Grade" +:+ String "010"
     "Total Subjects : 2" +:+ String "010"
     "CSE101 Maths Theory 40 50 -- A"]) =
  rows_of (extract_marksheet_blocks
    ["Semester : 1" +:+ String "010"
     "Code Name Type Internal External Back Paper Grade" +:+ String "010"
     "CSE101 Maths Theory 40 50 -- A"]).

(** ** File names *)

Definition dot : ascii := ".".

(** The name ends with a dot and the letters [pdf], in either case. *)
Definition pdf_name (filename : string) : Prop :=
  exists stem ext,
    to_list filename = stem ++ dot :: ext /\ (dot ∉ ext) /\
    lower (of_list ext) = "pdf".

(** The text has an occurrence of [sub]. *)
Definition occurs (sub s : list ascii) : Prop := exists a b, s = a ++ sub ++ b.

(** ** The lines of the general information *)

(** The line has a colon: the first pass reads a key and a value from it. *)
Definition has_colon (raw : string) : bool :=
  nonempty (strip raw) && contains ":" (strip raw).

(** [left.strip().lower()] and [right.strip()] of the first pass. *)
Definition line_key (raw : string) : string :=
  lower (strip (split1 ":" (strip raw)).1).
Definition line_value (raw : string) : string :=
  strip (default "" (split1 ":" (strip raw)).2).

(** The key of the line begins with the label, up to case. *)
Definition labelled_line (label raw : string) : bool :=
  has_colon raw && startswith (line_key raw) (lower label).

(** What [found_map] holds: labels of the list, values without white space
    around them. *)
Definition found_map_ok (found_map : gmap string string) : Prop :=
  forall label v, found_map !! label = Some v ->
    label ∈ target_fields_order /\ strip v = v.

(** The labels of [general_info], in the order of the calls of [add]. *)
Definition general_info_labels : list string :=
  optional_labels ++ ["Total Marks Obt. :"; "SGPA :"].

(** The longest prefix made of digits. *)
Fixpoint digit_prefix (s : list ascii) : list ascii :=
  match s with
  | c :: s' => if is_digit c then c :: digit_prefix s' else []
  | [] => []
  end.

(** The roll number as it is shown: its leading digits when it begins with
    a digit, the text itself when it does not. *)
Definition shown_roll_number (roll_val : string) : string :=
  match digit_prefix (to_list roll_val) with
  | [] => roll_val
  | d => of_list d
  end.

(** ** Pages *)

(** The blocks of one page, scanned by itself. *)
Definition page_blocks (text : string) : list block :=
  page_run (splitlines text) None [].

(** The number of lines that [re_semester] matches. *)
Definition semester_lines (lines : list string) : nat :=
  length (filter (fun raw => found re_semester (strip raw)) lines).

(** ** Table headers *)

(** The words of the table header. *)
Definition header_words : list string :=
  ["Code"; "Name"; "Type"; "Internal"; "External"; "Back"; "Paper"; "Grade"].

(** The words of the text are the words of the table header, up to case. *)
Definition header_text (s : string) : Prop :=
  Forall2 (fun w m => ci_eq (to_list w) m) header_words (words (to_list s)).

(** The pattern of the words [wds] separated by [\s+], then [\s*$]. *)
Fixpoint spaced (wds : list string) : regex :=
  match wds with
  | [] => Seq ws Eol
  | [w] => Seq (lit w) (Seq ws Eol)
  | w :: rest => Seq (lit w) (Seq ws1 (spaced rest))
  end.

(** ** The lines of a table *)

(** The line is empty once stripped. *)
Definition blank (raw : string) : bool := negb (nonempty (strip raw)).
Definition not_blank (raw : string) : bool := negb (blank raw).

(** The line is a table header. *)
Definition repeats_header (raw : string) : bool := found header_regex (strip raw).

(** The line is neither blank nor a table header. *)
Definition kept_in_table (raw : string) : bool :=
  negb (blank raw || repeats_header raw).

(** The row loop reduced to one rule: a line is joined to the buffer, and
    the joined text is a row or the new buffer. *)
Fixpoint rows_by_joining (lines : list string) (buffer : string)
    (table_rows : list row) : list string * string * list row :=
  match lines with
  | [] => ([], buffer, table_rows)
  | raw :: rest =>
    let l3 := strip raw in
    if is_stop l3 then (lines, buffer, table_rows)
    else if found header_regex l3 || negb (nonempty l3)
    then rows_by_joining rest buffer table_rows
    else
      match parse_row_to_columns (combine buffer l3) with
      | Some parsed => rows_by_joining rest "" (table_rows ++ [parsed])
      | None => rows_by_joining rest (combine buffer l3) table_rows
      end
  end.

(** The rows after the row loop and the flush, when the loop starts on
    [lines] with an empty buffer and the rows [table_rows]. *)
Definition rows_from (lines : list string) (table_rows : list row) : list row :=
  let '(_, buffer, table_rows') := rows_loop lines "" table_rows in
  flush buffer table_rows'.

(** The first word of the text is a subject code. *)
Definition starts_with_code (s : string) : bool :=
  match words (to_list s) with
  | w :: _ => code_shape (of_list w)
  | [] => false
  end.

(** A line that the row loop reads as text, and that does not begin with a
    subject code. *)
Definition junk_line (raw : string) : bool :=
  negb (is_stop (strip raw)) && negb (found header_regex (strip raw)) &&
  nonempty (strip raw) && negb (starts_with_code raw).

(** The buffer has words, and the first one is not a subject code. *)
Definition junk_buffer (buffer : string) : Prop :=
  words (to_list buffer) <> [] /\ starts_with_code buffer = false.

(** ** The columns of a row *)

(** A name: not empty, no white space around it, one space between its
    words. *)
Definition name_ok (name : string) : Prop :=
  name <> "" /\ trimmed (to_list name) /\ collapsed (to_list name).

(** Digits, or ["--"]. *)
Definition mark_ok (v : string) : Prop := number (to_list v) \/ v = "--".

(** One or two letters and an optional [+], or ["--"]. *)
Definition grade_ok (v : string) : Prop := grade_text (to_list v) \/ v = "--".

Definition columns_ok (r : row) : Prop :=
  exists code name type internal external back_paper grade,
    r = [code; name; type; internal; external; back_paper; grade] /\
    name_ok name /\ number (to_list internal) /\
    mark_ok external /\ mark_ok back_paper /\ grade_ok grade.

(** The header of the block is the fixed one, and every row has as many
    columns as the header. *)
Definition block_shape_ok (b : block) : Prop :=
  header b = header_cols /\
  Forall (fun r => length r = length (header b) /\ columns_ok r) (rows b).

(** ** The values of a summary *)

(** The pattern sets no group. *)
Fixpoint no_group (r : regex) : bool :=
  match r with
  | Seq r1 r2 | Alt r1 r2 => no_group r1 && no_group r2
  | Grp _ _ => false
  | _ => true
  end.

(** [[0-9]+(?:\.[0-9]+)?] *)
Definition decimal_text (m : list ascii) : Prop :=
  exists a, number a /\ (m = a \/ exists b, number b /\ m = a ++ dot :: b).

(** The values that a summary can hold. *)
Definition summary_values_ok (s : gmap string string) : Prop :=
  (forall v, s !! "Even/Odd" = Some v ->
     v = "" \/ lower v = "even" \/ lower v = "odd") /\
  (forall v, s !! "Total Marks Obt." = Some v -> v = "" \/ number (to_list v)) /\
  (forall v, s !! "Result Status" = Some v -> strip v = v) /\
  (forall v, s !! "SGPA" = Some v -> v = "" \/ decimal_text (to_list v)).

(** ** A block in a page *)

(** No line, or a first line at which the row loop stops. *)
Definition stop_led (after : list string) : Prop :=
  match after with
  | [] => True
  | s :: _ => is_stop (strip s) = true
  end.

(** A line of a table that is the row [r] by itself. *)
Definition row_line (raw : string) (r : row) : Prop :=
  is_stop (strip raw) = false /\ found header_regex (strip raw) = false /\
  parse_row_to_columns (strip raw) = Some r.

(** A line that the row loop reads as text: not a stop line, not a table
    header, not blank. *)
Definition text_line (raw : string) : Prop :=
  is_stop (strip raw) = false /\ found header_regex (strip raw) = false /\
  nonempty (strip raw) = true.

(** The lines [sem :: pre ++ hdr :: tbl] of a block: a ["Semester :"] line,
    summary lines, a table header, and lines that are the rows [rows], one
    row for each line. *)
Definition block_text (sem : string) (pre : list string) (hdr : string)
    (tbl : list string) (rows : list row) : Prop :=
  found re_semester (strip sem) = true /\ Forall summary_line pre /\
  found header_regex (strip hdr) = true /\ Forall2 row_line tbl rows /\
  rows <> [].

(** The block of such lines. *)
Definition block_of (sem : string) (pre : list string) (rows : list row) : block :=
  Block (summary_after (fresh_summary (semester_number sem)) pre) header_cols rows.

(** * Properties *)

(** The loops are unfolded one step at a time; the text functions they call
    are kept folded. *)
Arguments strip : simpl never.
Arguments search : simpl never.
Arguments found : simpl never.
Arguments is_stop : simpl never.
Arguments combine : simpl never.
Arguments parse_row_to_columns : simpl never.
Arguments flush : simpl never.
Arguments collect_rows : simpl never.
Arguments finalize_block : simpl never.
Arguments fresh_summary : simpl never.
Arguments capture_summary : simpl never.
Arguments group1 : simpl never.

(** * The patterns *)

(** ** What a pattern matches

    The lemmas [elem_of_run_*] read [run] as a relation: [(m, s', c)] is a
    match of [r] at [s] when [r] can match the prefix [m] of [s = m ++ s']
    and sets the groups [c]. *)

Module ReFacts.
Import Chars Re.

Lemma le_span p s : forall hi k,
  k <= span p hi s <->
  k <= length s /\ all p (take k s) /\ (forall h, hi = Some h -> k <= h).
Proof.
  induction s as [|c s IH]; intros hi k.
  - assert (span p hi [] = 0) as -> by (destruct hi as [[|?]|]; done).
    split.
    + intros Hk. assert (k = 0) as -> by lia. simpl.
      repeat split; [done | constructor | lia].
    + simpl. intros (? & _ & _). lia.
  - destruct k as [|k].
    { split; [|lia]. intros _. simpl. repeat split; [lia | constructor | lia]. }
    destruct hi as [[|h]|]; simpl.
    + split; [lia |]. intros (_ & _ & Hh). specialize (Hh 0 eq_refl). lia.
    + destruct (p c) eqn:Hc.
      * rewrite <- Nat.succ_le_mono, (IH (Some h) k). unfold all.
        rewrite Forall_cons. split.
        -- intros (? & ? & Hh). repeat split; auto; [lia |].
           intros ? [= <-]. specialize (Hh h eq_refl). lia.
        -- intros (? & [_ ?] & Hh). repeat split; auto; [lia |].
           intros ? [= <-]. specialize (Hh (S h) eq_refl). lia.
      * split; [lia |]. intros (_ & Hall & _). inversion Hall; congruence.
    + destruct (p c) eqn:Hc.
      * rewrite <- Nat.succ_le_mono, (IH None k). unfold all.
        rewrite Forall_cons. split.
        -- intros (? & ? & Hh). repeat split; auto; [lia | done].
        -- intros (? & [_ ?] & Hh). repeat split; auto; [lia | done].
      * split; [lia |]. intros (_ & Hall & _). inversion Hall; congruence.
Qed.

Lemma elem_of_counts greedy lo n k :
  k ∈ counts greedy lo n <-> lo <= k <= n.
Proof.
  unfold counts. destruct greedy.
  - rewrite list_elem_of_In, <- in_rev, <- list_elem_of_In, elem_of_seq. lia.
  - rewrite elem_of_seq. lia.
Qed.

Lemma elem_of_run_rep greedy lo hi p prev s (o : outcome) :
  o ∈ run (Rep greedy lo hi p) prev s <->
  exists m s', o = (m, s', []) /\ s = m ++ s' /\ all p m /\
    lo <= length m /\ (forall h, hi = Some h -> length m <= h).
Proof.
  simpl. rewrite list_elem_of_fmap. split.
  - intros (k & -> & Hk). apply elem_of_counts in Hk as [Hlo Hk].
    apply le_span in Hk as (Hlen & Hall & Hh).
    exists (take k s), (drop k s). rewrite take_drop, length_take.
    repeat split; auto; [lia |]. intros h Hhi. specialize (Hh h Hhi). lia.
  - intros (m & s' & -> & -> & Hall & Hlo & Hh). exists (length m).
    rewrite take_app_length, drop_app_length. split; [done |].
    apply elem_of_counts. split; [done |]. apply le_span.
    rewrite take_app_length, length_app. repeat split; auto. lia.
Qed.

Lemma elem_of_run_seq r1 r2 prev s (o : outcome) :
  o ∈ run (Seq r1 r2) prev s <->
  exists m1 s1 c1 m2 s2 c2,
    (m1, s1, c1) ∈ run r1 prev s /\
    (m2, s2, c2) ∈ run r2 (prev_after prev m1) s1 /\
    o = (m1 ++ m2, s2, c1 ++ c2).
Proof.
  simpl. rewrite list_elem_of_bind. split.
  - intros ([[m1 s1] c1] & Ho & H1). apply list_elem_of_bind in Ho.
    destruct Ho as ([[m2 s2] c2] & Ho & H2). apply list_elem_of_singleton in Ho.
    exists m1, s1, c1, m2, s2, c2. done.
  - intros (m1 & s1 & c1 & m2 & s2 & c2 & H1 & H2 & ->).
    exists (m1, s1, c1). split; [|done]. apply list_elem_of_bind.
    exists (m2, s2, c2). split; [|done]. by apply list_elem_of_singleton.
Qed.

Lemma elem_of_run_alt r1 r2 prev s (o : outcome) :
  o ∈ run (Alt r1 r2) prev s <-> o ∈ run r1 prev s \/ o ∈ run r2 prev s.
Proof. simpl. apply elem_of_app. Qed.

Lemma elem_of_run_grp n r prev s (o : outcome) :
  o ∈ run (Grp n r) prev s <->
  exists m s' c, (m, s', c) ∈ run r prev s /\ o = (m, s', c ++ [(n, m)]).
Proof.
  simpl. rewrite list_elem_of_fmap. split.
  - intros ([[m s'] c] & -> & H). eauto.
  - intros (m & s' & c & H & ->). exists (m, s', c). done.
Qed.

Lemma elem_of_run_cls p prev s (o : outcome) :
  o ∈ run (Cls p) prev s <->
  exists c s', s = c :: s' /\ p c = true /\ o = ([c], s', []).
Proof.
  simpl. destruct s as [|c s'].
  - rewrite elem_of_nil. split; [done |]. intros (? & ? & ? & _); done.
  - destruct (p c) eqn:Hc.
    + rewrite list_elem_of_singleton. split; [intros ->; eauto |].
      intros (? & ? & [= <- <-] & _ & ->). done.
    + rewrite elem_of_nil. split; [done |].
      intros (? & ? & [= <- <-] & ? & _). congruence.
Qed.

Lemma elem_of_run_eps prev s (o : outcome) :
  o ∈ run Eps prev s <-> o = ([], s, []).
Proof. simpl. apply list_elem_of_singleton. Qed.

Lemma elem_of_run_bol prev s (o : outcome) :
  o ∈ run Bol prev s <-> prev = None /\ o = ([], s, []).
Proof.
  simpl. destruct prev.
  - rewrite elem_of_nil. split; [done | intros [? _]; done].
  - rewrite list_elem_of_singleton. split; [done | intros [_ ?]; done].
Qed.

Lemma elem_of_run_eol prev s (o : outcome) :
  o ∈ run Eol prev s <->
  (s = [] \/ s = ["010"%char]) /\ o = ([], s, []).
Proof.
  simpl. destruct s as [|c [|d s]].
  - rewrite list_elem_of_singleton. split; [auto | intros [_ ?]; done].
  - destruct (code c =? 10) eqn:Hc.
    + apply Nat.eqb_eq in Hc. unfold code in Hc.
      assert (c = "010"%char) as ->.
      { rewrite <- (ascii_nat_embedding c), Hc. reflexivity. }
      rewrite list_elem_of_singleton. split; [auto | intros [_ ?]; done].
    + rewrite elem_of_nil. split; [done |]. intros [[? | [= ->]] _]; done.
  - rewrite elem_of_nil. split; [done |]. intros [[? | ?] _]; done.
Qed.

(** The text matched is a prefix of the text: [s = m ++ s']. *)
Lemma run_prefix r : forall prev s m s' c,
  (m, s', c) ∈ run r prev s -> s = m ++ s'.
Proof.
  induction r; intros prev s m s' c H.
  - apply elem_of_run_eps in H as [= -> -> ->]. done.
  - apply elem_of_run_cls in H as (? & ? & -> & _ & [= -> -> ->]). done.
  - apply elem_of_run_rep in H as (? & ? & [= -> -> ->] & -> & _). done.
  - apply elem_of_run_seq in H
      as (m1 & s1 & c1 & m2 & s2 & c2 & H1 & H2 & [= -> -> ->]).
    apply IHr1 in H1 as ->. apply IHr2 in H2 as ->. by rewrite app_assoc.
  - apply elem_of_run_alt in H as [H | H]; eauto.
  - apply elem_of_run_grp in H as (? & ? & ? & H & [= -> -> ->]). eauto.
  - apply elem_of_run_bol in H as [_ [= -> -> ->]]. done.
  - apply elem_of_run_eol in H as [_ [= -> -> ->]]. done.
  - simpl in H. destruct (at_word_boundary prev s); [|by apply elem_of_nil in H].
    apply list_elem_of_singleton in H as [= -> -> ->]. done.
  - simpl in H. destruct (run r prev s); [by apply elem_of_nil in H |].
    apply list_elem_of_singleton in H as [= -> -> ->]. done.
Qed.

End ReFacts.

(** ** The language of a pattern without groups *)

Module Lang.
Import Chars Re ReFacts.

Lemma recognises_ext r P Q :
  (forall m, P m <-> Q m) -> recognises r P -> recognises r Q.
Proof.
  intros HPQ Hr prev s o. rewrite (Hr prev s o).
  split; intros (m & s' & ? & ? & ?); exists m, s'; repeat split; auto;
    by apply HPQ.
Qed.

Lemma recognises_eps : recognises Eps (fun m => m = []).
Proof.
  intros prev s o. rewrite elem_of_run_eps. split.
  - intros ->. by exists [], s.
  - intros (m & s' & -> & -> & ->). done.
Qed.

Lemma recognises_cls p : recognises (Cls p) (fun m => exists c, m = [c] /\ p c = true).
Proof.
  intros prev s o. rewrite elem_of_run_cls. split.
  - intros (c & s' & -> & Hc & ->). exists [c], s'. eauto.
  - intros (m & s' & -> & -> & c & -> & Hc). exists c, s'. done.
Qed.

Lemma recognises_rep greedy lo hi p : recognises (Rep greedy lo hi p) (rep p lo hi).
Proof.
  intros prev s o. rewrite elem_of_run_rep. unfold rep.
  split; intros (m & s' & ? & ? & ?); exists m, s'; intuition.
Qed.

Lemma recognises_seq r1 r2 P1 P2 :
  recognises r1 P1 -> recognises r2 P2 -> recognises (Seq r1 r2) (cat P1 P2).
Proof.
  intros H1 H2 prev s o. rewrite elem_of_run_seq. split.
  - intros (m1 & s1 & c1 & m2 & s2 & c2 & Ho1 & Ho2 & ->).
    apply H1 in Ho1 as (? & ? & [= <- <- ->] & -> & ?).
    apply H2 in Ho2 as (? & ? & [= <- <- ->] & -> & ?).
    exists (m1 ++ m2), s2. rewrite app_assoc. repeat split; auto.
    exists m1, m2. done.
  - intros (m & s' & -> & -> & m1 & m2 & -> & ? & ?).
    exists m1, (m2 ++ s'), [], m2, s', []. repeat split.
    + apply H1. exists m1, (m2 ++ s'). by rewrite app_assoc.
    + apply H2. exists m2, s'. done.
Qed.

Lemma recognises_alt r1 r2 P1 P2 :
  recognises r1 P1 -> recognises r2 P2 ->
  recognises (Alt r1 r2) (fun m => P1 m \/ P2 m).
Proof.
  intros H1 H2 prev s o. rewrite elem_of_run_alt, (H1 prev s o), (H2 prev s o).
  split.
  - intros [(m & s' & ? & ? & ?) | (m & s' & ? & ? & ?)]; exists m, s'; auto.
  - intros (m & s' & ? & ? & [? | ?]); [left | right]; exists m, s'; auto.
Qed.

Lemma recognises_chars (l : list ascii) :
  recognises (seqs (Cls ∘ ci <$> l)) (ci_eq l).
Proof.
  induction l as [|c l IH].
  - eapply recognises_ext; [|apply recognises_eps].
    intros m. split; [intros ->; constructor | by inversion 1].
  - destruct l as [|c' l'].
    + eapply recognises_ext; [|apply recognises_cls]. intros m. split.
      * intros (x & -> & Hx). repeat constructor. done.
      * inversion 1 as [|? x ? ? Hx Hnil]; subst. inversion Hnil; subst. eauto.
    + change (seqs (Cls ∘ ci <$> c :: c' :: l'))
        with (Seq (Cls (ci c)) (seqs (Cls ∘ ci <$> c' :: l'))).
      eapply recognises_ext; [|apply recognises_seq; [apply recognises_cls | apply IH]].
      intros m. split.
      * intros (m1 & m2 & -> & (x & -> & Hx) & H2). by constructor.
      * inversion 1 as [|? x ? m2 Hx H2]; subst.
        exists [x], m2. repeat split; eauto.
Qed.

Lemma recognises_lit (w : string) :
  recognises (lit w) (ci_eq (list_ascii_of_string w)).
Proof. apply recognises_chars. Qed.

(** A group around a pattern without groups records the text matched. *)
Lemma elem_of_run_grp_lang n r P prev s (o : outcome) :
  recognises r P ->
  o ∈ run (Grp n r) prev s <->
  exists m s', o = (m, s', [(n, m)]) /\ s = m ++ s' /\ P m.
Proof.
  intros Hr. rewrite elem_of_run_grp. split.
  - intros (m & s' & c & Ho & ->). apply Hr in Ho as (? & ? & [= <- <- ->] & ? & ?).
    exists m, s'. done.
  - intros (m & s' & -> & -> & HP). exists m, s', []. split; [|done].
    apply Hr. exists m, s'. done.
Qed.

End Lang.

(** ** A declarative reading of the patterns *)

Module Den.
Import Chars Re ReFacts Lang.

Theorem run_den r : forall prev s m s' c,
  (m, s', c) ∈ run r prev s <-> s = m ++ s' /\ den r prev m s' c.
Proof.
  induction r; intros prev s m s' c.
  - rewrite elem_of_run_eps. simpl. split; [intros [= -> -> ->]; done |].
    intros (-> & -> & ->). done.
  - rewrite elem_of_run_cls. simpl. split.
    + intros (x & t & -> & Hx & [= -> -> ->]). eauto.
    + intros (-> & (x & -> & Hx) & ->). eauto.
  - rewrite elem_of_run_rep. simpl. unfold rep. split.
    + intros (? & ? & [= <- <- ->] & -> & ? & ? & ?). done.
    + intros (-> & (? & ? & ?) & ->). exists m, s'. done.
  - rewrite elem_of_run_seq. simpl. split.
    + intros (m1 & s1 & c1 & m2 & s2 & c2 & H1 & H2 & [= -> -> ->]).
      apply IHr1 in H1 as [-> H1]. apply IHr2 in H2 as [-> H2].
      split; [by rewrite app_assoc |]. exists m1, m2, c1, c2. done.
    + intros (-> & m1 & m2 & c1 & c2 & -> & -> & H1 & H2).
      exists m1, (m2 ++ s'), c1, m2, s', c2. repeat split.
      * apply IHr1. by rewrite app_assoc.
      * apply IHr2. done.
  - rewrite elem_of_run_alt, IHr1, IHr2. simpl. tauto.
  - rewrite elem_of_run_grp. simpl. split.
    + intros (? & ? & c0 & H & [= <- <- ->]). apply IHr in H as [-> H]. eauto.
    + intros (-> & c0 & -> & H). exists m, s', c0. split; [|done].
      apply IHr. done.
  - rewrite elem_of_run_bol. simpl. split; [intros [-> [= -> -> ->]]; done |].
    intros (-> & -> & -> & ->). done.
  - rewrite elem_of_run_eol. simpl. split; [intros [? [= -> -> ->]]; done |].
    intros (-> & ? & -> & ->). done.
  - simpl. destruct (at_word_boundary prev s) eqn:Hb.
    + rewrite list_elem_of_singleton. split; [intros [= -> -> ->]; done |].
      intros (-> & ? & -> & ->). done.
    + rewrite elem_of_nil. split; [done |]. intros (-> & ? & -> & ->).
      simpl in Hb. congruence.
  - simpl. destruct (run r prev s) as [|[[m0 s0] c0] l] eqn:Hr.
    + rewrite elem_of_nil. split; [done |].
      intros (-> & (m0 & s0 & c0 & -> & H0) & -> & ->). simpl in Hr.
      assert (Hin : (m0, s0, c0) ∈ run r prev (m0 ++ s0)) by (by apply IHr).
      rewrite Hr in Hin. by apply elem_of_nil in Hin.
    + rewrite list_elem_of_singleton. split.
      * intros [= -> -> ->]. split; [done |]. split; [|done].
        assert (Hin : (m0, s0, c0) ∈ run r prev s) by (rewrite Hr; left).
        apply IHr in Hin as [-> H0]. eauto.
      * intros (-> & _ & -> & ->). done.
Qed.

(** The pattern matches somewhere in the list of its matches exactly when
    Python finds a match at this position. *)
Lemma match_at_Some r i prev s mo :
  match_at r i prev s = Some mo ->
  exists s', m_start mo = i /\ s = m_text mo ++ s' /\
    den r prev (m_text mo) s' (m_caps mo).
Proof.
  unfold match_at. destruct (run r prev s) as [|[[m s'] c] l] eqn:Hr; [done |].
  intros [= <-]. simpl. exists s'. split; [done |].
  apply run_den. rewrite Hr. left.
Qed.

Lemma match_at_None r i prev s :
  match_at r i prev s = None ->
  forall m s' c, s = m ++ s' -> ~ den r prev m s' c.
Proof.
  unfold match_at. destruct (run r prev s) as [|o l] eqn:Hr; [|done].
  intros _ m s' c Hs Hd.
  assert (Hin : (m, s', c) ∈ run r prev s) by (by apply run_den).
  rewrite Hr in Hin. by apply elem_of_nil in Hin.
Qed.

Lemma match_at_is_Some r i prev m s' c :
  den r prev m s' c -> is_Some (match_at r i prev (m ++ s')).
Proof.
  intros Hd. destruct (match_at r i prev (m ++ s')) eqn:Hm; [eauto |].
  by eapply match_at_None in Hm.
Qed.

(** A pattern without groups, read through [den]. *)
Lemma den_recognises r P prev m s' c :
  recognises r P -> den r prev m s' c <-> P m /\ c = [].
Proof.
  intros Hr. split.
  - intros Hd. assert (Hin : (m, s', c) ∈ run r prev (m ++ s')) by (by apply run_den).
    apply Hr in Hin as (? & ? & [= <- <- ->] & _ & ?). done.
  - intros [HP ->]. eapply run_den. apply Hr. exists m, s'. done.
Qed.

(** A pattern that begins with [^] matches at the start of the text only. *)
Lemma search_from_bol r i c s :
  search_from (Seq Bol r) i (Some c) s = None.
Proof.
  revert i c. induction s as [|d s IH]; intros i c; simpl.
  - reflexivity.
  - apply IH.
Qed.

Lemma search_bol r (s : string) :
  search (Seq Bol r) s = match_ (Seq Bol r) s.
Proof.
  unfold search, match_. destruct (list_ascii_of_string s) as [|c l]; simpl.
  - by destruct (match_at (Seq Bol r) 0 None []).
  - destruct (match_at (Seq Bol r) 0 None (c :: l)); [done |].
    apply search_from_bol.
Qed.

End Den.

(** ** Facts on the character classes *)

Module CharFacts.
Import Chars Re ReFacts Lang.

Lemma ascii_forall (P : ascii -> bool) :
  forallb P all_ascii = true -> forall x, P x = true.
Proof.
  intros H x. rewrite forallb_forall in H. apply H.
  apply list_elem_of_In, list_elem_of_fmap. exists (nat_of_ascii x).
  split; [by rewrite ascii_nat_embedding |].
  apply elem_of_seq. pose proof (nat_ascii_bounded x). lia.
Qed.

(** Proves [forall x, P x = true] by trying the 256 characters. *)
Ltac all_chars :=
  match goal with
  | |- forall x, @?P x = true => apply (ascii_forall P); vm_compute; reflexivity
  end.

Lemma lower_idem : forall x, Ascii.eqb (lower (lower x)) (lower x) = true.
Proof. all_chars. Qed.

Lemma lower_upper : forall x, Ascii.eqb (lower (upper x)) (lower x) = true.
Proof. all_chars. Qed.

Lemma upper_idem : forall x, Ascii.eqb (upper (upper x)) (upper x) = true.
Proof. all_chars. Qed.


Lemma lower_classes : forall x,
  Bool.eqb (is_space (lower x)) (is_space x) &&
  Bool.eqb (is_digit (lower x)) (is_digit x) &&
  Bool.eqb (is_alpha (lower x)) (is_alpha x) &&
  Bool.eqb (not_newline (lower x)) (not_newline x) = true.
Proof. all_chars. Qed.

Lemma upper_classes : forall x,
  Bool.eqb (is_space (upper x)) (is_space x) &&
  Bool.eqb (is_digit (upper x)) (is_digit x) &&
  Bool.eqb (is_alpha (upper x)) (is_alpha x) = true.
Proof. all_chars. Qed.

Lemma classes_disjoint : forall x,
  negb (is_digit x && is_alpha x) && negb (is_space x && is_alpha x) &&
  negb (is_space x && is_digit x) && implb (negb (not_newline x)) (is_space x) &&
  negb (is_space x && cs "-" x) && negb (is_alpha x && cs "-" x) &&
  negb (is_digit x && cs "-" x) && negb (is_space x && cs "+" x) &&
  negb (is_alpha x && cs "+" x) && negb (is_digit x && cs "+" x) = true.
Proof. all_chars. Qed.

Lemma ci_lower c x : ci c x = true <-> lower x = lower c.
Proof. unfold ci. apply Ascii.eqb_eq. Qed.

(** Two characters equal up to case are in the same classes. *)
Lemma ci_classes c x :
  ci c x = true ->
  is_space x = is_space c /\ is_digit x = is_digit c /\ is_alpha x = is_alpha c.
Proof.
  intros H%ci_lower.
  pose proof (lower_classes x) as Hx. pose proof (lower_classes c) as Hc.
  rewrite H in Hx.
  repeat (apply andb_prop in Hx as [Hx ?]). repeat (apply andb_prop in Hc as [Hc ?]).
  repeat match goal with
  | H : Bool.eqb _ _ = true |- _ => apply Bool.eqb_prop in H
  end.
  repeat split; congruence.
Qed.

End CharFacts.

(** ** The usual pieces of the patterns *)

Module Atoms.
Import Chars Re Pat ReFacts Lang Den.

Lemma recognises_star p : recognises (star p) (all p).
Proof.
  eapply recognises_ext; [|apply recognises_rep]. intros m. unfold rep.
  split; [intros (? & _ & _); done |]. intros ?. repeat split; [done | lia | done].
Qed.

Lemma recognises_plus p : recognises (plus p) (fun m => all p m /\ 1 <= length m).
Proof.
  eapply recognises_ext; [|apply recognises_rep]. intros m. unfold rep.
  split; [intros (? & ? & _); done |]. intros [? ?]. done.
Qed.

Lemma recognises_plus_lazy p :
  recognises (plus_lazy p) (fun m => all p m /\ 1 <= length m).
Proof.
  eapply recognises_ext; [|apply recognises_rep]. intros m. unfold rep.
  split; [intros (? & ? & _); done |]. intros [? ?]. done.
Qed.

Lemma recognises_exactly n p :
  recognises (exactly n p) (fun m => all p m /\ length m = n).
Proof.
  eapply recognises_ext; [|apply recognises_rep]. intros m. unfold rep. split.
  - intros (? & ? & Hh). specialize (Hh n eq_refl). split; [done | lia].
  - intros [? <-]. repeat split; [done | lia |]. intros ? [= <-]. lia.
Qed.

Lemma recognises_ws : recognises ws spaces.
Proof. apply recognises_star. Qed.
Lemma recognises_ws1 : recognises ws1 spaces1.
Proof. apply recognises_plus. Qed.
Lemma recognises_digits : recognises digits number.
Proof. apply recognises_plus. Qed.

Lemma recognises_alts_lit (ws : list string) :
  recognises (alts (lit <$> ws))
    (fun m => exists w, w ∈ ws /\ ci_eq (list_ascii_of_string w) m).
Proof.
  induction ws as [|w ws IH].
  - intros prev s o. simpl. split.
    + destruct s as [|c s]; intros H; by apply elem_of_nil in H.
    + intros (m & s' & _ & _ & w & Hw & _). by apply elem_of_nil in Hw.
  - destruct ws as [|w' ws].
    + eapply recognises_ext; [|apply recognises_lit]. intros m. split.
      * intros H. exists w. split; [left | done].
      * intros (w0 & Hw & H). apply list_elem_of_singleton in Hw as ->. done.
    + change (alts (lit <$> w :: w' :: ws))
        with (Alt (lit w) (alts (lit <$> w' :: ws))).
      eapply recognises_ext; [|apply recognises_alt; [apply recognises_lit | apply IH]].
      intros m. split.
      * intros [H | (w0 & Hw & H)].
        -- exists w. split; [left | done].
        -- exists w0. split; [by right | done].
      * intros (w0 & Hw & H). apply elem_of_cons in Hw as [-> | Hw]; [by left |].
        right. eauto.
Qed.

Lemma den_intro r P prev m s' :
  recognises r P -> P m -> den r prev m s' [].
Proof. intros Hr HP. by apply (den_recognises r P). Qed.

Lemma den_grp n r P prev m s' c :
  recognises r P -> den (Grp n r) prev m s' c <-> P m /\ c = [(n, m)].
Proof.
  intros Hr. simpl. split.
  - intros (c0 & -> & [? ->]%(den_recognises _ _ _ _ _ _ Hr)). done.
  - intros [? ->]. exists []. split; [done |].
    apply den_intro with (P := P); done.
Qed.

Lemma den_column n r P prev m s' c :
  recognises r P ->
  den (opt (Seq ws1 (Grp n r))) prev m s' c <->
  exists o, m = column_text o /\ c = column_cap n o /\ column_ok P o.
Proof.
  intros Hr. unfold opt. cbn [den]. split.
  - intros [(m1 & m2 & c1 & c2 & -> & -> & H1 & H2) | [-> ->]].
    + apply (den_recognises _ _ _ _ _ _ recognises_ws1) in H1 as [? ->].
      apply (den_grp _ _ P) in H2 as [? ->]; [|done].
      exists (Some (m1, m2)). done.
    + exists None. done.
  - intros ([[w x]|] & -> & -> & Hok); simpl in *.
    + left. destruct Hok. exists w, x, [], [(n, x)].
      split; [done |]. split; [done |]. split.
      * change (den ws1 prev w (x ++ s') []).
        apply den_intro with (P := spaces1); [apply recognises_ws1 | done].
      * exists []. split; [done |]. apply den_intro with (P := P); done.
    + by right.
Qed.

Lemma recognises_code :
  recognises (Seq (exactly 3 is_alpha) (exactly 3 is_digit)) code_text.
Proof. apply recognises_seq; apply recognises_exactly. Qed.

Lemma recognises_mark1 : recognises (Alt digits (lit "--")) mark_text.
Proof. apply recognises_alt; [apply recognises_digits | apply recognises_lit]. Qed.

Lemma recognises_mark2 : recognises (Alt (lit "--") digits) mark_text.
Proof.
  eapply recognises_ext;
    [|apply recognises_alt; [apply recognises_lit | apply recognises_digits]].
  intros m. unfold mark_text, dashes. tauto.
Qed.

Lemma recognises_grade :
  recognises (Seq (Rep true 1 (Some 2) is_alpha) (Rep true 0 (Some 1) (ci "+")))
    grade_text.
Proof. apply recognises_seq; apply recognises_rep. Qed.

(** Breaks a hypothesis [den r ..] into the pieces of the match. *)
Ltac den_atoms :=
  repeat match goal with
  | H : _ /\ _ |- _ => destruct H
  | H : ex _ |- _ => destruct H
  | H : den ws _ _ _ _ |- _ => apply (den_recognises _ _ _ _ _ _ recognises_ws) in H
  | H : den ws1 _ _ _ _ |- _ => apply (den_recognises _ _ _ _ _ _ recognises_ws1) in H
  | H : den digits _ _ _ _ |- _ => apply (den_recognises _ _ _ _ _ _ recognises_digits) in H
  | H : den (lit _) _ _ _ _ |- _ =>
    apply (den_recognises _ _ _ _ _ _ (recognises_lit _)) in H
  | H : den (exactly _ _) _ _ _ _ |- _ =>
    apply (den_recognises _ _ _ _ _ _ (recognises_exactly _ _)) in H
  | H : den (plus_lazy _) _ _ _ _ |- _ =>
    apply (den_recognises _ _ _ _ _ _ (recognises_plus_lazy _)) in H
  | H : den (plus _) _ _ _ _ |- _ =>
    apply (den_recognises _ _ _ _ _ _ (recognises_plus _)) in H
  | H : den (alts (lit <$> _)) _ _ _ _ |- _ =>
    apply (den_recognises _ _ _ _ _ _ (recognises_alts_lit _)) in H
  | H : den (opt (Seq ws1 (Grp 5 _))) _ _ _ _ |- _ =>
    apply (den_column _ _ _ _ _ _ _ recognises_mark1) in H
  | H : den (opt (Seq ws1 (Grp 6 _))) _ _ _ _ |- _ =>
    apply (den_column _ _ _ _ _ _ _ recognises_mark2) in H
  | H : den (opt (Seq ws1 (Grp 7 _))) _ _ _ _ |- _ =>
    apply (den_column _ _ _ _ _ _ _ recognises_grade) in H
  end.

End Atoms.

(** ** Facts on the patterns of the segmenter *)

Module PatFacts.
Import Chars Re Str Pat ReFacts Lang Den Atoms CharFacts.

Lemma first_nonspace (w w' r r' : list ascii) x x' :
  spaces w -> spaces w' -> w ++ x :: r = w' ++ x' :: r' ->
  is_space x = false -> is_space x' = false ->
  w = w' /\ x = x' /\ r = r'.
Proof.
  revert w'. induction w as [|c w IH]; intros [|c' w'] Hw Hw' Heq Hx Hx'; simpl in *.
  - by injection Heq as -> ->.
  - injection Heq as -> _. apply Forall_cons in Hw' as [? _]. congruence.
  - injection Heq as <- _. apply Forall_cons in Hw as [? _]. congruence.
  - injection Heq as -> Heq. apply Forall_cons in Hw as [_ Hw].
    apply Forall_cons in Hw' as [_ Hw'].
    destruct (IH w' Hw Hw' Heq Hx Hx') as (-> & -> & ->). done.
Qed.

Lemma ci_eq_cons_inv c w m :
  ci_eq (c :: w) m -> exists x m', m = x :: m' /\ ci c x = true /\ ci_eq w m'.
Proof. inversion 1; subst. eauto. Qed.

(** A line that [re_semester] matches: white space, the word, and later the
    digits of the group. *)
Lemma semester_match line m :
  search re_semester line = Some m ->
  exists w x rest d,
    to_list line = w ++ x :: rest /\ spaces w /\ ci "S" x = true /\
    group1 m = of_list d /\ number d.
Proof.
  unfold re_semester. cbn [seqs]. rewrite search_bol. unfold match_.
  intros H. apply match_at_Some in H as (s' & _ & Hs & Hd).
  cbn [den] in Hd. den_atoms. subst.
  match goal with H : ci_eq (list_ascii_of_string "Semester") _ |- _ =>
    apply ci_eq_cons_inv in H as (x & m' & -> & Hx & _) end.
  match goal with H : m_text m = _ |- _ => rewrite H in Hs end.
  match goal with H : m_caps m = _ |- _ => rename H into Hc end.
  simpl in Hs, Hc.
  eexists _, x, _, _. split.
  { unfold to_list. rewrite Hs, <- app_assoc. simpl. reflexivity. }
  split; [assumption |]. split; [done |]. split; [|eassumption].
  unfold group1, group. rewrite Hc. reflexivity.
Qed.

Lemma header_match line :
  found header_regex line = true ->
  exists w x rest,
    to_list line = w ++ x :: rest /\ spaces w /\ ci "C" x = true.
Proof.
  unfold found. destruct (search header_regex line) as [m|] eqn:H; [|done].
  intros _. revert H.
  unfold header_regex. cbn [seqs]. rewrite search_bol. unfold match_.
  intros H. apply match_at_Some in H as (s' & _ & Hs & Hd).
  cbn [den] in Hd. den_atoms. subst.
  match goal with H : ci_eq (list_ascii_of_string "Code") _ |- _ =>
    apply ci_eq_cons_inv in H as (x & m' & -> & Hx & _) end.
  match goal with H : m_text m = _ |- _ => rewrite H in Hs end.
  simpl in Hs.
  eexists _, x, _. split.
  { unfold to_list. rewrite Hs, <- app_assoc. simpl. reflexivity. }
  split; [assumption | done].
Qed.

(** A table header is not a ["Semester :"] line. *)
Lemma header_not_semester line :
  found header_regex line = true -> found re_semester line = false.
Proof.
  intros (w & x & rest & Hl & Hw & Hx)%header_match.
  unfold found. destruct (search re_semester line) as [m|] eqn:Hm; [|done].
  apply semester_match in Hm as (w' & x' & rest' & d & Hl' & Hw' & Hx' & _).
  rewrite Hl in Hl'.
  apply first_nonspace in Hl' as (_ & -> & _); auto.
  - apply ci_lower in Hx, Hx'. rewrite Hx in Hx'. discriminate.
  - by apply ci_classes in Hx as (-> & _).
  - by apply ci_classes in Hx' as (-> & _).
Qed.

End PatFacts.

Import ReFacts Lang Den Atoms CharFacts PatFacts.

(** * The loops *)

(** One iteration of the row loop. *)
Lemma rows_loop_cons raw rest buffer table_rows :
  rows_loop (raw :: rest) buffer table_rows =
    let l3 := strip raw in
    if is_stop l3 then (raw :: rest, buffer, table_rows)
    else if found header_regex l3 then rows_loop rest buffer table_rows
    else if negb (nonempty l3) then rows_loop rest buffer table_rows
    else
      let combined := combine buffer l3 in
      match parse_row_to_columns combined with
      | Some parsed => rows_loop rest "" (table_rows ++ [parsed])
      | None =>
        match (if nonempty buffer && found code_start_regex l3
               then parse_row_to_columns buffer else None) with
        | Some parsed_buf => rows_loop rest l3 (table_rows ++ [parsed_buf])
        | None => rows_loop rest (combine buffer l3) table_rows
        end
      end.
Proof. reflexivity. Qed.

(** ** The loops end, and what they keep true *)

Section Invariant.

(** [R] holds of every parsed row, [Q] of every summary of an open block. *)
Variable R : row -> Prop.
Variable Q : gmap string string -> Prop.
Hypothesis parse_R : forall raw r, parse_row_to_columns raw = Some r -> R r.
Hypothesis fresh_Q : forall line m,
  search re_semester line = Some m -> Q (fresh_summary (group1 m)).
Hypothesis capture_Q : forall l2 s, Q s -> Q (capture_summary l2 s).

(** [good_block] holds of every block that [finalize_block] appends. *)
Variable good_block : block -> Prop.
Hypothesis finalize_good : forall s r rs,
  Q s -> Forall R (r :: rs) -> good_block (Block s header_cols (r :: rs)).

Lemma rows_loop_inv lines : forall buffer table_rows,
  Forall R table_rows ->
  Forall R (rows_loop lines buffer table_rows).2 /\
  length (rows_loop lines buffer table_rows).1.1 <= length lines.
Proof.
  induction lines as [|raw rest IH]; intros buffer table_rows HR.
  - simpl. split; [done | lia].
  - rewrite rows_loop_cons. cbv zeta. cbn [length].
    destruct (is_stop (strip raw)); [simpl; split; [done | lia] |].
    destruct (found header_regex (strip raw)).
    { destruct (IH buffer table_rows HR); split; [done | lia]. }
    destruct (negb (nonempty (strip raw))).
    { destruct (IH buffer table_rows HR); split; [done | lia]. }
    destruct (parse_row_to_columns (combine buffer (strip raw))) as [parsed|] eqn:Hp.
    { destruct (IH "" (table_rows ++ [parsed])) as [? ?]; [|split; [done | lia]].
      apply Forall_app; split; [done |]. repeat constructor. eauto. }
    destruct (nonempty buffer && found code_start_regex (strip raw)).
    + destruct (parse_row_to_columns buffer) as [parsed_buf|] eqn:Hb.
      * destruct (IH (strip raw) (table_rows ++ [parsed_buf])) as [? ?];
          [|split; [done | lia]].
        apply Forall_app; split; [done |]. repeat constructor. eauto.
      * destruct (IH (combine buffer (strip raw)) table_rows HR); split; [done | lia].
    + destruct (IH (combine buffer (strip raw)) table_rows HR); split; [done | lia].
Qed.

Lemma flush_inv buffer table_rows :
  Forall R table_rows -> Forall R (flush buffer table_rows).
Proof.
  intros HR. unfold flush. destruct (nonempty buffer); [|done].
  destruct (parse_row_to_columns buffer) eqn:Hb; [|done].
  apply Forall_app; split; [done |]. repeat constructor. eauto.
Qed.

Lemma collect_rows_inv lines :
  Forall R (collect_rows lines).2 /\
  length (collect_rows lines).1 <= length lines.
Proof.
  unfold collect_rows.
  pose proof (rows_loop_inv lines "" [] ltac:(constructor)) as [HR Hl].
  destruct (rows_loop lines "" []) as [[lines' buffer] table_rows]; simpl in *.
  auto using flush_inv.
Qed.

Lemma finalize_block_inv s table_rows blocks :
  Q s -> Forall R table_rows -> Forall good_block blocks ->
  Forall good_block (finalize_block s table_rows blocks).
Proof.
  intros HQ HR Hb. unfold finalize_block. destruct table_rows as [|r rs]; [done |].
  apply Forall_app; split; [done |]. constructor; [|constructor]. auto.
Qed.

Lemma summary_loop_inv fuel : forall lines cs blocks,
  length lines < fuel -> good_summary Q cs -> Forall good_block blocks ->
  exists lines' cs' blocks',
    summary_loop fuel lines cs blocks = Some (lines', cs', blocks') /\
    length lines' <= length lines /\ good_summary Q cs' /\ Forall good_block blocks'.
Proof.
  induction fuel as [|fuel IH]; intros lines cs blocks Hlen Hcs Hb; [lia |].
  destruct lines as [|raw rest]; simpl.
  { exists [], cs, blocks. done. }
  simpl in Hlen. destruct (found header_regex (strip raw)).
  - pose proof (collect_rows_inv rest) as [HR Hl].
    destruct (collect_rows rest) as [lines' table_rows]; simpl in *.
    assert (Hnone : good_summary Q None) by (intros ? [=]).
    destruct cs as [s|].
    + destruct (IH lines' None (finalize_block s table_rows blocks))
        as (l & c & b & -> & ? & ? & ?); [lia | done | |].
      { apply finalize_block_inv; auto. }
      exists l, c, b. repeat split; auto; lia.
    + destruct (IH lines' None blocks) as (l & c & b & -> & ? & ? & ?);
        [lia | done | done |].
      exists l, c, b. repeat split; auto; lia.
  - assert (Hcs' : good_summary Q (capture_summary (strip raw) <$> cs)).
    { intros s' Hs'. destruct cs as [s|]; simplify_eq/=. apply capture_Q, Hcs. done. }
    destruct (found re_semester (strip raw)).
    + eexists _, _, _. repeat split; eauto.
    + destruct (IH rest _ blocks ltac:(lia) Hcs' Hb) as (l & c & b & -> & ? & ? & ?).
      exists l, c, b. repeat split; auto; lia.
Qed.

Lemma page_loop_inv fuel : forall lines cs blocks,
  length lines < fuel -> Forall good_block blocks ->
  exists blocks',
    page_loop fuel lines cs blocks = Some blocks' /\ Forall good_block blocks'.
Proof.
  induction fuel as [|fuel IH]; intros lines cs blocks Hlen Hb; [lia |].
  destruct lines as [|raw rest]; simpl; [eauto |].
  simpl in Hlen. destruct (search re_semester (strip raw)) as [m_sem|] eqn:Hsem.
  - destruct (summary_loop_inv fuel rest (Some (fresh_summary (group1 m_sem))) blocks)
      as (l & c & b & -> & ? & ? & ?); [lia | | done |].
    { intros s [= <-]. eauto. }
    simpl. apply IH; [lia | done].
  - apply IH; [lia | done].
Qed.

Lemma scan_pages_inv pages : forall blocks,
  Forall good_block blocks ->
  exists blocks', scan_pages pages blocks = Some blocks' /\ Forall good_block blocks'.
Proof.
  induction pages as [|lines pages IH]; intros blocks Hb; simpl; [eauto |].
  unfold scan_page.
  destruct (page_loop_inv (S (length lines)) lines None blocks) as (b & -> & ?);
    [lia | done |].
  simpl. auto.
Qed.

Lemma extract_inv pages :
  exists general_info blocks,
    extract_marksheet_blocks pages = Some (general_info, blocks) /\
    general_info = build_general_info (scan_fields (concat (splitlines <$> pages))) /\
    Forall good_block blocks.
Proof.
  unfold extract_marksheet_blocks.
  destruct (scan_pages_inv (splitlines <$> pages) []) as (b & -> & ?); [done |].
  simpl. eauto.
Qed.

End Invariant.

(** ** The loops without fuel *)

Lemma summary_loop_S fuel raw rest cs blocks :
  summary_loop (S fuel) (raw :: rest) cs blocks =
    let l2 := strip raw in
    if found header_regex l2 then
      let '(lines', table_rows) := collect_rows rest in
      match cs with
      | Some s => summary_loop fuel lines' None (finalize_block s table_rows blocks)
      | None => summary_loop fuel lines' None blocks
      end
    else
      let cs := capture_summary l2 <$> cs in
      if found re_semester l2 then Some (raw :: rest, cs, blocks)
      else summary_loop fuel rest cs blocks.
Proof. reflexivity. Qed.

Lemma page_loop_S fuel raw rest cs blocks :
  page_loop (S fuel) (raw :: rest) cs blocks =
    match search re_semester (strip raw) with
    | Some m_sem =>
      '(lines', cs', blocks') ←
        summary_loop fuel rest (Some (fresh_summary (group1 m_sem))) blocks;
      page_loop fuel lines' cs' blocks'
    | None => page_loop fuel rest cs blocks
    end.
Proof. reflexivity. Qed.

Lemma summary_loop_total fuel lines cs blocks :
  length lines < fuel ->
  exists r, summary_loop fuel lines cs blocks = Some r /\
    length r.1.1 <= length lines.
Proof.
  intros Hlen.
  destruct summary_loop_inv with (R := fun _ : row => True)
    (Q := fun _ : gmap string string => True)
    (good_block := fun _ : block => True)
    (fuel := fuel) (lines := lines) (cs := cs) (blocks := blocks)
    as (l & c & b & Heq & Hl & _); auto.
  - done.
  - by apply Forall_forall.
  - exists (l, c, b). done.
Qed.

Lemma collect_rows_length lines :
  length (collect_rows lines).1 <= length lines.
Proof.
  apply (collect_rows_inv (fun _ => True)). done.
Qed.

Lemma summary_loop_mono fuel : forall fuel' lines cs blocks r,
  summary_loop fuel lines cs blocks = Some r -> fuel <= fuel' ->
  summary_loop fuel' lines cs blocks = Some r.
Proof.
  induction fuel as [|fuel IH]; intros fuel' lines cs blocks r H Hle; [done |].
  destruct fuel' as [|fuel']; [lia |].
  destruct lines as [|raw rest]; [done |]. simpl in *.
  destruct (found header_regex (strip raw)).
  - destruct (collect_rows rest) as [lines' table_rows].
    destruct cs; (apply IH; [done | lia]).
  - destruct (found re_semester (strip raw)); [done |]. apply IH; [done | lia].
Qed.

Lemma summary_loop_run fuel lines cs blocks :
  length lines < fuel ->
  summary_loop fuel lines cs blocks = Some (summary_run lines cs blocks).
Proof.
  intros Hlen. unfold summary_run.
  destruct (summary_loop_total (S (length lines)) lines cs blocks) as (r & Hr & _);
    [lia |].
  rewrite Hr. simpl. eapply summary_loop_mono; [exact Hr | lia].
Qed.

Lemma summary_run_length lines cs blocks :
  length (summary_run lines cs blocks).1.1 <= length lines.
Proof.
  destruct (summary_loop_total (S (length lines)) lines cs blocks) as (r & Hr & Hl);
    [lia |].
  unfold summary_run. rewrite Hr. done.
Qed.

Lemma summary_run_nil cs blocks : summary_run [] cs blocks = ([], cs, blocks).
Proof. reflexivity. Qed.

(** One iteration of the summary loop. *)
Lemma summary_run_cons raw rest cs blocks :
  summary_run (raw :: rest) cs blocks =
    let l2 := strip raw in
    if found header_regex l2 then
      let '(lines', table_rows) := collect_rows rest in
      match cs with
      | Some s => summary_run lines' None (finalize_block s table_rows blocks)
      | None => summary_run lines' None blocks
      end
    else
      let cs := capture_summary l2 <$> cs in
      if found re_semester l2 then (raw :: rest, cs, blocks)
      else summary_run rest cs blocks.
Proof.
  cbv zeta. unfold summary_run at 1. cbn [length]. rewrite summary_loop_S. cbv zeta.
  destruct (found header_regex (strip raw)).
  - pose proof (collect_rows_length rest).
    destruct (collect_rows rest) as [lines' table_rows]; cbn [fst] in *.
    destruct cs; rewrite summary_loop_run by lia; done.
  - destruct (found re_semester (strip raw)); [done |].
    rewrite summary_loop_run by lia. done.
Qed.

Lemma page_loop_mono fuel : forall fuel' lines cs blocks r,
  page_loop fuel lines cs blocks = Some r -> fuel <= fuel' ->
  page_loop fuel' lines cs blocks = Some r.
Proof.
  induction fuel as [|fuel IH]; intros fuel' lines cs blocks r H Hle; [done |].
  destruct fuel' as [|fuel']; [lia |].
  destruct lines as [|raw rest]; [done |]. simpl in *.
  destruct (search re_semester (strip raw)) as [m_sem|]; [|apply IH; [done | lia]].
  destruct (summary_loop fuel rest _ blocks) as [[[l c] b]|] eqn:Hs; [|done].
  eapply summary_loop_mono in Hs; [rewrite Hs | lia]. simpl in *.
  apply IH; [done | lia].
Qed.

Lemma page_loop_run fuel lines cs blocks :
  length lines < fuel ->
  page_loop fuel lines cs blocks = Some (page_run lines cs blocks).
Proof.
  intros Hlen. unfold page_run.
  destruct page_loop_inv with (R := fun _ : row => True)
    (Q := fun _ : gmap string string => True)
    (good_block := fun _ : block => True)
    (fuel := S (length lines)) (lines := lines) (cs := cs) (blocks := blocks)
    as (b & Hb & _); auto.
  { by apply Forall_forall. }
  rewrite Hb. simpl. eapply page_loop_mono; [exact Hb | lia].
Qed.

Lemma page_run_nil cs blocks : page_run [] cs blocks = blocks.
Proof. reflexivity. Qed.

(** One iteration of the page loop. *)
Lemma page_run_cons raw rest cs blocks :
  page_run (raw :: rest) cs blocks =
    match search re_semester (strip raw) with
    | Some m_sem =>
      let '(lines', cs', blocks') :=
        summary_run rest (Some (fresh_summary (group1 m_sem))) blocks in
      page_run lines' cs' blocks'
    | None => page_run rest cs blocks
    end.
Proof.
  unfold page_run at 1. cbn [length]. rewrite page_loop_S.
  destruct (search re_semester (strip raw)) as [m_sem|].
  - rewrite summary_loop_run by lia.
    pose proof (summary_run_length rest (Some (fresh_summary (group1 m_sem))) blocks).
    destruct (summary_run rest _ blocks) as [[l c] b]. cbn [fst mbind option_bind] in *.
    rewrite page_loop_run by lia. done.
  - rewrite page_loop_run by lia. done.
Qed.

Lemma scan_page_run lines blocks :
  scan_page lines blocks = Some (page_run lines None blocks).
Proof. unfold scan_page. apply page_loop_run. lia. Qed.

(** ** Stop lines *)

(** The lines left by the row loop start at the first stop line. *)
Lemma rows_loop_stop lines : forall buffer table_rows,
  exists consumed,
    lines = consumed ++ (rows_loop lines buffer table_rows).1.1 /\
    Forall (fun raw => is_stop (strip raw) = false) consumed /\
    match (rows_loop lines buffer table_rows).1.1 with
    | [] => True
    | raw :: _ => is_stop (strip raw) = true
    end.
Proof.
  induction lines as [|raw rest IH]; intros buffer table_rows.
  { exists []. simpl. repeat split; constructor. }
  rewrite rows_loop_cons. cbv zeta.
  destruct (is_stop (strip raw)) eqn:Hstop.
  { exists []. simpl. repeat split; [constructor | done]. }
  assert (Hstep : forall b t, exists consumed,
    raw :: rest = consumed ++ (rows_loop rest b t).1.1 /\
    Forall (fun raw => is_stop (strip raw) = false) consumed /\
    match (rows_loop rest b t).1.1 with
    | [] => True
    | raw :: _ => is_stop (strip raw) = true
    end).
  { intros b t. destruct (IH b t) as (consumed & Heq & Hc & Hl).
    exists (raw :: consumed). simpl. rewrite <- Heq. repeat split; auto. }
  destruct (found header_regex (strip raw)); [apply Hstep |].
  destruct (negb (nonempty (strip raw))); [apply Hstep |].
  destruct (parse_row_to_columns (combine buffer (strip raw))); [apply Hstep |].
  destruct (nonempty buffer && found code_start_regex (strip raw));
    [destruct (parse_row_to_columns buffer) |]; apply Hstep.
Qed.

Lemma found_false r l : found r l = false <-> search r l = None.
Proof. unfold found. destruct (search r l); split; congruence. Qed.

Lemma found_true r l : found r l = true <-> is_Some (search r l).
Proof.
  unfold found. destruct (search r l).
  - split; [eauto | done].
  - split; [done | intros [? ?]; done].
Qed.

Lemma semester_is_stop l : found re_semester l = true -> is_stop l = true.
Proof. unfold is_stop. by intros ->. Qed.

Lemma not_stop_not_semester l : is_stop l = false -> found re_semester l = false.
Proof. unfold is_stop. by intros [? _]%orb_false_iff. Qed.

(** The row loop does not look beyond a stop line. *)
Lemma rows_loop_app_stop before s rest : forall buffer table_rows,
  is_stop (strip s) = true ->
  rows_loop (before ++ s :: rest) buffer table_rows =
    let '(lines', buffer', table_rows') := rows_loop before buffer table_rows in
    (lines' ++ s :: rest, buffer', table_rows').
Proof.
  intros buffer table_rows Hs. revert buffer table_rows.
  induction before as [|raw before IH]; intros buffer table_rows.
  - simpl app. rewrite rows_loop_cons. cbv zeta. rewrite Hs. reflexivity.
  - rewrite <- app_comm_cons, !rows_loop_cons. cbv zeta.
    destruct (is_stop (strip raw)); [reflexivity |].
    destruct (found header_regex (strip raw)); [apply IH |].
    destruct (negb (nonempty (strip raw))); [apply IH |].
    destruct (parse_row_to_columns (combine buffer (strip raw))); [apply IH |].
    destruct (nonempty buffer && found code_start_regex (strip raw));
      [destruct (parse_row_to_columns buffer) |]; apply IH.
Qed.

Lemma collect_rows_app_stop before s rest :
  is_stop (strip s) = true ->
  collect_rows (before ++ s :: rest) =
    ((collect_rows before).1 ++ s :: rest, (collect_rows before).2).
Proof.
  intros Hs. unfold collect_rows. rewrite rows_loop_app_stop by done.
  destruct (rows_loop before "" []) as [[l b] r]. reflexivity.
Qed.

(** Without a stop line the row loop consumes all the lines. *)
Lemma rows_loop_no_stop lines : forall buffer table_rows,
  Forall (fun raw => is_stop (strip raw) = false) lines ->
  (rows_loop lines buffer table_rows).1.1 = [].
Proof.
  intros buffer table_rows H.
  destruct (rows_loop_stop lines buffer table_rows) as (consumed & Heq & _ & Hl).
  destruct ((rows_loop lines buffer table_rows).1.1) as [|raw l]; [done |].
  rewrite Heq in H. apply Forall_app in H as [_ H]. apply Forall_cons in H as [H _].
  congruence.
Qed.

Lemma collect_rows_no_stop lines :
  Forall (fun raw => is_stop (strip raw) = false) lines ->
  (collect_rows lines).1 = [].
Proof.
  intros H. unfold collect_rows.
  pose proof (rows_loop_no_stop lines "" [] H).
  destruct (rows_loop lines "" []) as [[l b] r]. done.
Qed.

Lemma collect_rows_consumed lines :
  exists consumed,
    lines = consumed ++ (collect_rows lines).1 /\
    Forall (fun raw => is_stop (strip raw) = false) consumed.
Proof.
  unfold collect_rows.
  destruct (rows_loop_stop lines "" []) as (consumed & Heq & Hc & _).
  destruct (rows_loop lines "" []) as [[l b] r]. exists consumed. done.
Qed.

(** ** The outer scan *)

Lemma length_ind {A} (P : list A -> Prop) :
  (forall l, (forall l', length l' < length l -> P l') -> P l) -> forall l, P l.
Proof.
  intros H l. remember (length l) as n eqn:Hn. revert l Hn.
  induction n as [n IH] using lt_wf_ind. intros l ->.
  apply H. intros l' Hl'. by eapply IH.
Qed.

(** The open summary that the page loop carries is never read. *)
Lemma page_run_summary lines : forall cs cs' blocks,
  page_run lines cs blocks = page_run lines cs' blocks.
Proof.
  induction lines as [lines IH] using length_ind. intros cs cs' blocks.
  destruct lines as [|raw rest]; [done |].
  rewrite !page_run_cons.
  destruct (search re_semester (strip raw)); [done |].
  apply IH. simpl. lia.
Qed.

(** Lines that are not ["Semester :"] lines are skipped by the outer scan. *)
Lemma page_run_skip skipped lines cs blocks :
  Forall (fun raw => found re_semester (strip raw) = false) skipped ->
  page_run (skipped ++ lines) cs blocks = page_run lines cs blocks.
Proof.
  induction 1 as [|raw skipped Hraw _ IH]; [done |].
  rewrite <- app_comm_cons, page_run_cons.
  apply found_false in Hraw. rewrite Hraw. done.
Qed.

(** With no open summary, the summary loop emits nothing and leaves the
    outer scan where it would be. *)
Lemma summary_run_none lines : forall blocks,
  (summary_run lines None blocks).2 = blocks /\
  forall cs,
    page_run (summary_run lines None blocks).1.1 cs blocks =
    page_run lines cs blocks.
Proof.
  induction lines as [lines IH] using length_ind. intros blocks.
  destruct lines as [|raw rest]; [done |].
  rewrite summary_run_cons. cbv zeta.
  destruct (found header_regex (strip raw)) eqn:Hh.
  - apply header_not_semester in Hh.
    destruct (collect_rows_consumed rest) as (consumed & Heq & Hc).
    pose proof (collect_rows_length rest) as Hlen.
    destruct (collect_rows rest) as [lines' table_rows]. simpl in Heq, Hlen.
    destruct (IH lines' ltac:(simpl; lia) blocks) as [Hb Hp].
    split; [done |]. intros cs. rewrite Hp.
    rewrite page_run_cons. apply found_false in Hh. rewrite Hh.
    rewrite Heq, page_run_skip; [done |].
    eapply Forall_impl; [exact Hc |]. intros ?. apply not_stop_not_semester.
  - destruct (found re_semester (strip raw)) eqn:Hs; [done |].
    destruct (IH rest ltac:(simpl; lia) blocks) as [Hb Hp].
    split; [done |]. intros cs. rewrite Hp, page_run_cons.
    apply found_false in Hs. rewrite Hs. done.
Qed.

(** The blocks already found are only extended. *)
Lemma finalize_block_app s table_rows before blocks :
  finalize_block s table_rows (before ++ blocks) =
  before ++ finalize_block s table_rows blocks.
Proof.
  unfold finalize_block. destruct table_rows; [done |]. by rewrite app_assoc.
Qed.

Lemma summary_run_app lines : forall cs before blocks,
  summary_run lines cs (before ++ blocks) =
    let '(lines', cs', blocks') := summary_run lines cs blocks in
    (lines', cs', before ++ blocks').
Proof.
  induction lines as [lines IH] using length_ind. intros cs before blocks.
  destruct lines as [|raw rest]; [done |].
  rewrite !summary_run_cons. cbv zeta.
  destruct (found header_regex (strip raw)).
  - pose proof (collect_rows_length rest) as Hlen.
    destruct (collect_rows rest) as [lines' table_rows]. simpl in Hlen.
    destruct cs as [s|].
    + rewrite finalize_block_app. apply IH. simpl. lia.
    + apply IH. simpl. lia.
  - destruct (found re_semester (strip raw)); [done |]. apply IH. simpl. lia.
Qed.

Lemma page_run_app lines : forall cs before blocks,
  page_run lines cs (before ++ blocks) = before ++ page_run lines cs blocks.
Proof.
  induction lines as [lines IH] using length_ind. intros cs before blocks.
  destruct lines as [|raw rest]; [done |].
  rewrite !page_run_cons.
  destruct (search re_semester (strip raw)) as [m|]; [|apply IH; simpl; lia].
  rewrite summary_run_app.
  pose proof (summary_run_length rest (Some (fresh_summary (group1 m))) blocks) as Hlen.
  destruct (summary_run rest _ blocks) as [[l c] b]. simpl in Hlen.
  apply IH. simpl. lia.
Qed.

(** ** A ["Semester :"] line is a boundary *)

Lemma semester_not_header l :
  found re_semester l = true -> found header_regex l = false.
Proof.
  intros Hs. destruct (found header_regex l) eqn:Hh; [|done].
  apply header_not_semester in Hh. congruence.
Qed.

(** The summary loop does not look beyond a ["Semester :"] line. *)
Lemma summary_run_app_semester before s rest :
  found re_semester (strip s) = true ->
  forall cs blocks,
    (summary_run (before ++ s :: rest) cs blocks).1.1 =
      (summary_run before cs blocks).1.1 ++ s :: rest /\
    (summary_run (before ++ s :: rest) cs blocks).2 =
      (summary_run before cs blocks).2.
Proof.
  intros Hs. induction before as [before IH] using length_ind. intros cs blocks.
  destruct before as [|raw before].
  - simpl app. rewrite summary_run_cons. cbv zeta.
    rewrite (semester_not_header _ Hs), Hs. done.
  - rewrite <- app_comm_cons, !summary_run_cons. cbv zeta.
    destruct (found header_regex (strip raw)).
    + rewrite collect_rows_app_stop by (by apply semester_is_stop).
      pose proof (collect_rows_length before) as Hlen.
      destruct (collect_rows before) as [lines' table_rows]. simpl in *.
      destruct cs; apply IH; simpl; lia.
    + destruct (found re_semester (strip raw)); [done |]. apply IH. simpl. lia.
Qed.

(** The scan of the lines before a ["Semester :"] line does not depend on
    what follows, and the scan goes on at that line as on a new page. *)
Lemma page_run_app_semester before s rest :
  found re_semester (strip s) = true ->
  forall cs blocks,
    page_run (before ++ s :: rest) cs blocks =
    page_run (s :: rest) None (page_run before cs blocks).
Proof.
  intros Hs. induction before as [before IH] using length_ind. intros cs blocks.
  destruct before as [|raw before].
  - simpl app. rewrite page_run_nil. apply page_run_summary.
  - rewrite <- app_comm_cons, !(page_run_cons raw).
    destruct (search re_semester (strip raw)) as [m|]; [|apply IH; simpl; lia].
    destruct (summary_run_app_semester before s rest Hs
                (Some (fresh_summary (group1 m))) blocks) as [H1 H2].
    pose proof (summary_run_length before (Some (fresh_summary (group1 m))) blocks)
      as Hlen.
    destruct (summary_run (before ++ s :: rest) _ blocks) as [[l c] b].
    destruct (summary_run before _ blocks) as [[l' c'] b']. simpl in *. subst.
    rewrite (page_run_summary l' c' c). apply IH. simpl. lia.
Qed.

(** * The general information *)

Lemma nonempty_true (s : string) : nonempty s = true <-> s <> "".
Proof. destruct s; simpl; split; congruence. Qed.

Lemma in_add (x : string * string) label value always general_info :
  In x (add label value always general_info) <->
  In x general_info \/ (x = (label, value) /\ (always = true \/ value <> "")).
Proof.
  unfold add. destruct always; simpl.
  - rewrite in_app_iff. simpl. split.
    + intros [? | [<- | []]]; auto.
    + intros [? | [-> _]]; auto.
  - destruct (nonempty value) eqn:Hv.
    + apply nonempty_true in Hv. rewrite in_app_iff. simpl. split.
      * intros [? | [<- | []]]; auto.
      * intros [? | [-> _]]; auto.
    + assert (value = "") as -> by (destruct value; [done | discriminate]).
      split; [auto |]. intros [? | [_ [? | ?]]]; done.
Qed.

Lemma build_general_info_entries found_map label value :
  In (label, value) (build_general_info found_map) ->
  (In label optional_labels /\ value <> "") \/
  (label = "Total Marks Obt. :" /\ value = get found_map "Total Marks Obt.") \/
  (label = "SGPA :" /\ value = get found_map "SGPA").
Proof.
  unfold build_general_info. rewrite !in_add. simpl.
  intros H. repeat destruct H as [H|H]; try done;
    destruct H as [[= -> ->] [? | ?]]; try discriminate; auto 20.
Qed.

Lemma build_general_info_always found_map :
  In ("Total Marks Obt. :", get found_map "Total Marks Obt.")
     (build_general_info found_map) /\
  In ("SGPA :", get found_map "SGPA") (build_general_info found_map).
Proof. unfold build_general_info. rewrite !in_add. auto 20. Qed.

(** C8: an entry of [general_info] has a non-empty value, except the entries
    labelled ["Total Marks Obt. :"] and ["SGPA :"], which are always there;
    the labels ["Father's Name"], ["Session"] and ["Result Status"] never
    appear. *)
Theorem general_info_entries (pages : list string) :
  exists general_info blocks,
    extract_marksheet_blocks pages = Some (general_info, blocks) /\
    (forall label value, In (label, value) general_info ->
       (value <> "" \/ label = "Total Marks Obt. :" \/ label = "SGPA :") /\
       label <> "Father's Name" /\ label <> "Session" /\
       label <> "Result Status") /\
    (exists value, In ("Total Marks Obt. :", value) general_info) /\
    (exists value, In ("SGPA :", value) general_info).
Proof.
  destruct extract_inv with (R := fun _ : row => True)
    (Q := fun _ : gmap string string => True)
    (good_block := fun _ : block => True) (pages := pages)
    as (g & b & He & -> & _); auto.
  eexists _, b. split; [exact He |]. split; [|split].
  - intros label value Hin.
    apply build_general_info_entries in Hin as [[Hl Hv] | [[-> _] | [-> _]]].
    + split; [auto |]. simpl in Hl.
      repeat destruct Hl as [<- | Hl]; try done.
    + repeat split; auto; discriminate.
    + repeat split; auto; discriminate.
  - eexists. apply build_general_info_always.
  - eexists. apply build_general_info_always.
Qed.

(** The three fields are dropped even when the text has them. *)
Example general_info_drops_scanned :
  (fst <$> extract_marksheet_blocks
     ["Father's Name : Ram" +:+ String "010" "Session : 2023-24" +:+
      String "010" "Result Status : PASS"]) =
  Some [("Total Marks Obt. :", ""); ("SGPA :", "")].
Proof. vm_compute. reflexivity. Qed.

Lemma scan_pages_empty pages : forall blocks,
  Forall (fun lines => lines = []) pages -> scan_pages pages blocks = Some blocks.
Proof.
  induction pages as [|lines pages IH]; intros blocks H; [done |].
  inversion H; subst. simpl. auto.
Qed.

(** C10: when every page has an empty text, the result is the two entries
    that are always present and no block. *)
Theorem empty_document (pages : list string) :
  Forall (fun text => text = "") pages ->
  extract_marksheet_blocks pages =
    Some ([("Total Marks Obt. :", ""); ("SGPA :", "")], []).
Proof.
  intros H. unfold extract_marksheet_blocks.
  assert (Hl : Forall (fun lines : list string => lines = []) (splitlines <$> pages)).
  { apply Forall_fmap. eapply Forall_impl; [exact H |]. by intros ? ->. }
  rewrite scan_pages_empty by done. simpl.
  assert (concat (splitlines <$> pages) = []) as ->.
  { clear -Hl. induction Hl as [|? ? -> ? IH]; [done | simpl; done]. }
  vm_compute. reflexivity.
Qed.

Lemma empty_document_witness :
  extract_marksheet_blocks [""; ""; ""] =
    Some ([("Total Marks Obt. :", ""); ("SGPA :", "")], []).
Proof. apply empty_document. repeat constructor. Defined.

(** * The blocks *)

(** C1: every block of the returned [marksheet_blocks] has at least one row;
    the extraction always returns. *)
Theorem blocks_have_rows (pages : list string) :
  exists general_info blocks,
    extract_marksheet_blocks pages = Some (general_info, blocks) /\
    Forall (fun b => 1 <= length (rows b)) blocks.
Proof.
  destruct extract_inv with (R := fun _ : row => True)
    (Q := fun _ : gmap string string => True)
    (good_block := fun b => 1 <= length (rows b)) (pages := pages)
    as (g & b & He & _ & Hb); auto.
  - intros; simpl; lia.
  - exists g, b. done.
Qed.

(** [finalize_block] discards a block without rows. *)
Lemma finalize_block_empty (s : gmap string string) (blocks : list block) :
  finalize_block s [] blocks = blocks.
Proof. reflexivity. Qed.

(** ** The row reconstructor *)

Lemma wrapped_name_not_glued : ~ wrapped_name_glued.
Proof. unfold wrapped_name_glued. vm_compute. intros [=]. Qed.

(** C6: the row loop ends only at the end of the page or at a line that
    matches [re_semester] or [heading_result_regex]; every line before is
    consumed, whatever words it has.  A row whose subject is
    ["Total Quality Mgmt"] and a footer with ["Total"] and ["SGPA"] do not
    stop the loop. *)
Theorem row_collection_stops_only_at_headings :
  (forall lines buffer table_rows,
     exists consumed,
       lines = consumed ++ (rows_loop lines buffer table_rows).1.1 /\
       Forall (fun raw => found re_semester (strip raw) = false /\
                          found heading_result_regex (strip raw) = false)
              consumed /\
       match (rows_loop lines buffer table_rows).1.1 with
       | [] => True
       | raw :: _ => found re_semester (strip raw) = true \/
                     found heading_result_regex (strip raw) = true
       end) /\
  collect_rows ["MGT301 Total Quality Mgmt Theory 40 50 -- A";
                "CSE101 SGPA Lab Practical 20 A";
                "Major Result"; "CSE102 Maths Theory 30"] =
    (["Major Result"; "CSE102 Maths Theory 30"],
     [["MGT301"; "Total Quality Mgmt"; "Theory"; "40"; "50"; "--"; "A"];
      ["CSE101"; "SGPA Lab"; "Practical"; "20"; "--"; "--"; "A"]]) /\
  (collect_rows ["Total Marks Obt. : 600 SGPA : 8.1"; "Semester : 2"]).1 =
    ["Semester : 2"].
Proof.
  split; [|split; vm_compute; reflexivity].
  intros lines buffer table_rows.
  destruct (rows_loop_stop lines buffer table_rows) as (consumed & Heq & Hc & Hl).
  exists consumed. split; [done |]. split.
  - eapply Forall_impl; [exact Hc |]. intros raw Hraw.
    unfold is_stop in Hraw. by apply orb_false_iff in Hraw.
  - destruct (rows_loop lines buffer table_rows).1.1; [done |].
    unfold is_stop in Hl. by apply orb_true_iff in Hl.
Qed.

(** ** Summary lines *)

Lemma summary_run_prefix pre : forall s rest blocks,
  Forall summary_line pre ->
  summary_run (pre ++ rest) (Some s) blocks =
  summary_run rest (Some (summary_after s pre)) blocks.
Proof.
  induction pre as [|raw pre IH]; intros s rest blocks Hpre; [done |].
  apply Forall_cons in Hpre as [[Hh Hs] Hpre].
  rewrite <- app_comm_cons, summary_run_cons. cbv zeta. rewrite Hh, Hs.
  simpl. by apply IH.
Qed.

Lemma summary_run_header hdr rest s blocks :
  found header_regex (strip hdr) = true ->
  summary_run (hdr :: rest) (Some s) blocks =
  summary_run (collect_rows rest).1 None
    (finalize_block s (collect_rows rest).2 blocks).
Proof.
  intros Hh. rewrite summary_run_cons. cbv zeta. rewrite Hh.
  by destruct (collect_rows rest).
Qed.

(** A block: its ["Semester :"] line, its summary lines, the table header
    and the lines of the table. *)
Lemma page_run_block sem pre hdr tbl cs blocks :
  found re_semester (strip sem) = true ->
  Forall summary_line pre ->
  found header_regex (strip hdr) = true ->
  page_run (sem :: pre ++ hdr :: tbl) cs blocks =
  page_run (collect_rows tbl).1 None
    (finalize_block (summary_after (fresh_summary (semester_number sem)) pre)
       (collect_rows tbl).2 blocks).
Proof.
  intros Hsem Hpre Hh. rewrite page_run_cons. unfold semester_number.
  apply found_true in Hsem as [m Hm]. rewrite Hm. simpl from_option.
  rewrite summary_run_prefix, summary_run_header by done.
  set (blocks' := finalize_block _ _ blocks).
  destruct (summary_run_none (collect_rows tbl).1 blocks') as [Hb Hp].
  specialize (Hp None).
  destruct (summary_run (collect_rows tbl).1 None blocks') as [[l c] b].
  simpl in Hb, Hp. subst b. rewrite <- Hp. apply page_run_summary.
Qed.

(** Two blocks back to back: each has its own rows. *)
Example two_semesters_back_to_back :
  rows_of (extract_marksheet_blocks
    ["Semester : 1" +:+ String "010"
     "Code Name Type Internal External Back Paper Grade" +:+ String "010"
     "CSE101 Maths Theory 40 50 -- A" +:+ String "010"
     "Semester : 2" +:+ String "010"
     "Code Name Type Internal External Back Paper Grade" +:+ String "010"
     "CSE201 Algo Lab 30"]) =
  Some [[["CSE101"; "Maths"; "Theory"; "40"; "50"; "--"; "A"]];
        [["CSE201"; "Algo"; "Lab"; "30"; "--"; "--"; "--"]]].
Proof. vm_compute. reflexivity. Qed.

(** ** The fields of a summary *)

Lemma capture_field_lookup key r post l2 s key' :
  capture_field key r post l2 s !! key' =
    match search r l2 with
    | Some m => if decide (key = key') then Some (post (group1 m)) else s !! key'
    | None => s !! key'
    end.
Proof.
  unfold capture_field. destruct (search r l2); [|done]. apply lookup_insert.
Qed.

Lemma summary_after_snoc s pre raw :
  summary_after s (pre ++ [raw]) = capture_summary (strip raw) (summary_after s pre).
Proof. unfold summary_after. by rewrite foldl_app. Qed.

Lemma captures_of_snoc r post pre raw :
  captures_of r post (pre ++ [raw]) =
  captures_of r post pre ++
    match search r (strip raw) with Some m => [post (group1 m)] | None => [] end.
Proof.
  unfold captures_of. rewrite omap_app. simpl.
  by destruct (search r (strip raw)).
Qed.

Lemma capture_summary_field key r post l2 s :
  (key, r, post) ∈ summary_fields ->
  capture_summary l2 s !! key =
    match search r l2 with
    | Some m => Some (post (group1 m))
    | None => s !! key
    end.
Proof.
  intros Hin. unfold capture_summary. rewrite !capture_field_lookup.
  unfold summary_fields in Hin.
  repeat (apply elem_of_cons in Hin as [[= -> -> ->] | Hin]);
    [| | | | by apply elem_of_nil in Hin];
    repeat case_decide; try done; repeat case_match; done.
Qed.

(** After the summary lines [pre], a field has the value of the last line
    that its pattern matches. *)
Lemma summary_after_field key r post s pre :
  (key, r, post) ∈ summary_fields ->
  summary_after s pre !! key =
    match last (captures_of r post pre) with
    | Some v => Some v
    | None => s !! key
    end.
Proof.
  intros Hin. induction pre as [|raw pre IH] using rev_ind; [done |].
  rewrite summary_after_snoc, captures_of_snoc, (capture_summary_field _ r post) by done.
  destruct (search r (strip raw)) as [m|].
  - by rewrite last_snoc.
  - by rewrite app_nil_r.
Qed.

Lemma later_sgpa_line_overwrites : ~ first_sgpa_line_kept.
Proof. unfold first_sgpa_line_kept. vm_compute. intros [=]. Qed.

(** Of two lines, the value kept is the one of the second. *)
Example last_sgpa_capture :
  last (captures_of re_sgpa id ["SGPA : 7.5"; "SGPA : 8.5"]) = Some "8.5".
Proof. vm_compute. reflexivity. Qed.

(** ** Lines that only declare the number of subjects *)

Lemma only_total_subjects_capture raw s :
  only_total_subjects raw -> capture_summary (strip raw) s = s.
Proof.
  intros (_ & _ & _ & H1 & H2 & H3 & H4).
  apply found_false in H1, H2, H3, H4.
  unfold capture_summary, capture_field. by rewrite H1, H2, H3, H4.
Qed.

Lemma only_total_subjects_summary raw rest cs blocks :
  only_total_subjects raw ->
  summary_run (raw :: rest) cs blocks = summary_run rest cs blocks.
Proof.
  intros Hraw. rewrite summary_run_cons. cbv zeta.
  destruct Hraw as (Ht & Hh & Hs & Hc). rewrite Hh, Hs.
  destruct cs as [s|]; [|done]. simpl.
  rewrite only_total_subjects_capture; [done |]. done.
Qed.

Lemma only_total_subjects_scanning raw before after blocks :
  only_total_subjects raw ->
  Forall (fun raw => found re_semester (strip raw) = false) before ->
  scan_page (before ++ raw :: after) blocks = scan_page (before ++ after) blocks.
Proof.
  intros Hraw Hb. rewrite !scan_page_run, !page_run_skip by done.
  rewrite page_run_cons. destruct Hraw as (_ & _ & Hs & _).
  apply found_false in Hs. by rewrite Hs.
Qed.

Lemma only_total_subjects_in_summary raw before sem pre after blocks :
  only_total_subjects raw ->
  found re_semester (strip sem) = true ->
  Forall summary_line pre ->
  scan_page (before ++ sem :: pre ++ raw :: after) blocks =
  scan_page (before ++ sem :: pre ++ after) blocks.
Proof.
  intros Hraw Hsem Hpre. rewrite !scan_page_run, !page_run_app_semester by done.
  rewrite !(page_run_cons sem). apply found_true in Hsem as [m ->].
  rewrite !summary_run_prefix by done.
  by rewrite only_total_subjects_summary.
Qed.

(** ** The keys of a summary *)

Lemma elem_of_summary_keys key :
  key ∈ summary_keys <->
  key = "Semester" \/ key = "Even/Odd" \/ key = "Total Marks Obt." \/
  key = "Result Status" \/ key = "SGPA".
Proof.
  unfold summary_keys. rewrite !elem_of_union, !elem_of_singleton. tauto.
Qed.

Lemma isdigit_number d : number d -> isdigit (of_list d) = true.
Proof.
  intros [Hd Hlen]. unfold isdigit, of_list, to_list.
  rewrite list_ascii_of_string_of_list_ascii.
  apply andb_true_intro. split.
  - destruct d; [simpl in Hlen; lia | done].
  - apply forallb_forall. intros c Hc. unfold all in Hd. rewrite Forall_forall in Hd.
    apply Hd. by apply list_elem_of_In.
Qed.

Lemma fresh_summary_ok line m :
  search re_semester line = Some m -> summary_ok (fresh_summary (group1 m)).
Proof.
  intros (w & x & rest & d & _ & _ & _ & -> & Hd)%semester_match. split.
  - apply set_eq. intros key. unfold fresh_summary.
    rewrite !dom_insert, dom_empty, elem_of_summary_keys, !elem_of_union,
      !elem_of_singleton, elem_of_empty. tauto.
  - exists (of_list d). split; [done |]. by apply isdigit_number.
Qed.

Lemma capture_field_ok key r post l2 s :
  key ∈ dom s -> key <> "Semester" ->
  dom (capture_field key r post l2 s) = dom s /\
  capture_field key r post l2 s !! "Semester" = s !! "Semester".
Proof.
  intros Hin Hne. unfold capture_field. destruct (search r l2); [|done]. split.
  - apply set_eq. intros k. rewrite dom_insert, elem_of_union, elem_of_singleton.
    split; [intros [-> | ?]; done | auto].
  - by rewrite lookup_insert_ne.
Qed.

Lemma capture_summary_ok l2 s : summary_ok s -> summary_ok (capture_summary l2 s).
Proof.
  intros [Hdom Hsem]. unfold capture_summary.
  assert (H : forall key r post s',
    key ∈ summary_keys -> key <> "Semester" ->
    dom s' = summary_keys /\ s' !! "Semester" = s !! "Semester" ->
    dom (capture_field key r post l2 s') = summary_keys /\
    capture_field key r post l2 s' !! "Semester" = s !! "Semester").
  { intros key r post s' Hk Hne [Hd Hs].
    destruct (capture_field_ok key r post l2 s') as [-> ->]; [by rewrite Hd | done |].
    done. }
  unfold summary_ok.
  destruct (H "SGPA" re_sgpa id
    (capture_field "Result Status" re_result_status strip l2
      (capture_field "Total Marks Obt." re_total_marks id l2
        (capture_field "Even/Odd" re_even_odd id l2 s)))) as [-> ->];
    [apply elem_of_summary_keys; auto 10 | done | | done].
  apply H; [apply elem_of_summary_keys; auto 10 | done |].
  apply H; [apply elem_of_summary_keys; auto 10 | done |].
  apply H; [apply elem_of_summary_keys; auto 10 | done |]. done.
Qed.

Lemma summary_ok_soft_check s :
  summary_ok s -> s !! "Total Subjects" = None /\ soft_check s = None.
Proof.
  intros [Hdom _].
  assert (Hnone : s !! "Total Subjects" = None).
  { apply not_elem_of_dom. rewrite Hdom, elem_of_summary_keys.
    intros [? | [? | [? | [? | ?]]]]; discriminate. }
  split; [done |]. unfold soft_check. by rewrite Hnone.
Qed.

Lemma total_subjects_line_in_table : ~ total_subjects_line_has_no_effect.
Proof. unfold total_subjects_line_has_no_effect. vm_compute. intros [=]. Qed.

(** C9, amended: the summary of every block has exactly the five keys, its
    ["Semester"] is a non-empty string of digits, it has no
    ["Total Subjects"] and the soft check of [finalize_block] is skipped.  A
    line that only declares the number of subjects changes no block when it
    stands before the first ["Semester :"] line of its page or among the
    summary lines of a block (between a ["Semester :"] line and the table
    header). *)
Theorem summary_keys_and_total_subjects :
  (forall pages, exists general_info blocks,
     extract_marksheet_blocks pages = Some (general_info, blocks) /\
     Forall (fun b =>
       dom (summary b) = summary_keys /\
       (exists v, summary b !! "Semester" = Some v /\ isdigit v = true) /\
       summary b !! "Total Subjects" = None /\
       soft_check (summary b) = None) blocks) /\
  (forall raw, only_total_subjects raw ->
     (forall before after blocks,
        Forall (fun raw => found re_semester (strip raw) = false) before ->
        scan_page (before ++ raw :: after) blocks =
        scan_page (before ++ after) blocks) /\
     (forall before sem pre after blocks,
        found re_semester (strip sem) = true ->
        Forall summary_line pre ->
        scan_page (before ++ sem :: pre ++ raw :: after) blocks =
        scan_page (before ++ sem :: pre ++ after) blocks)).
Proof.
  split.
  - intros pages.
    destruct extract_inv with (R := fun _ : row => True) (Q := summary_ok)
      (good_block := fun b => summary_ok (summary b)) (pages := pages)
      as (g & b & He & _ & Hb); eauto using fresh_summary_ok, capture_summary_ok.
    exists g, b. split; [done |].
    eapply Forall_impl; [exact Hb |]. intros bl Hok.
    destruct (summary_ok_soft_check _ Hok). destruct Hok. done.
  - intros raw Hraw. split.
    + intros. by apply only_total_subjects_scanning.
    + intros. by apply only_total_subjects_in_summary.
Qed.

Lemma summary_keys_and_total_subjects_witness :
  scan_page (["Roll No : 12"] ++ "Semester : 3" :: ["SGPA : 8.5"] ++
             "Total Subjects : 8" ::
             ["Code Name Type Internal External Back Paper Grade";
              "CSE101 Maths Theory 40 50 -- A"]) [] =
  scan_page (["Roll No : 12"] ++ "Semester : 3" :: ["SGPA : 8.5"] ++
             ["Code Name Type Internal External Back Paper Grade";
              "CSE101 Maths Theory 40 50 -- A"]) [].
Proof.
  apply (proj2 summary_keys_and_total_subjects "Total Subjects : 8").
  - unfold only_total_subjects. repeat split; vm_compute; reflexivity.
  - vm_compute. reflexivity.
  - repeat constructor.
Defined.

(** * The rows *)

(** ** The row grammar *)

(** The matches of [row_pattern], piece by piece. *)
Lemma den_row_pattern m s' c :
  den row_pattern None m s' c <->
  exists p, m = parts_text p /\ c = parts_caps p /\ parts_ok p /\
    (s' = [] \/ s' = ["010"%char]).
Proof.
  unfold row_pattern. cbn [seqs]. cbn [den]. split.
  - intros H. den_atoms. subst.
    match goal with
    | |- exists p, [] ++ ?w0 ++ ?code ++ ?w1 ++ ?name ++ ?w2 ++ ?ty ++ ?w3 ++
           ?int ++ column_text ?e ++ column_text ?b ++ column_text ?g ++
           ?w4 ++ [] = _ /\ _ =>
      exists (RowParts w0 code w1 name w2 ty w3 int e b g w4)
    end.
    unfold parts_text, parts_caps, parts_ok. cbn [p_w0 p_code p_w1 p_name p_w2
      p_type p_w3 p_internal p_external p_back_paper p_grade p_w4 app].
    rewrite !app_nil_r. split; [done |]. split; [done |]. split; [|done].
    split; [done |]. split; [by eexists _, _ |]. do 3 (split; [done |]).
    split; [by eexists |]. do 5 (split; [done |]). done.
  - intros ([w0 code w1 name w2 ty w3 int e b g w4] & -> & -> & Hok & Hs').
    unfold parts_text, parts_caps, parts_ok in *. cbn [p_w0 p_code p_w1 p_name p_w2
      p_type p_w3 p_internal p_external p_back_paper p_grade p_w4] in *.
    destruct Hok as (Hw0 & (a & d & -> & Ha & Hd) & Hw1 & Hname & Hw2 & Hty & Hw3 &
                     Hint & He & Hb & Hg & Hw4).
    eexists [], _, [], _. split; [reflexivity |]. split; [reflexivity |].
    split; [done |].
    eexists w0, _, [], _. split; [reflexivity |]. split; [reflexivity |].
    split; [apply den_intro with (P := spaces); [apply recognises_ws | done] |].
    eexists (a ++ d), _, [(1, a ++ d)], _. split; [reflexivity |].
    split; [reflexivity |]. split.
    { exists []. split; [done |]. exists a, d, [], []. split; [done |].
      split; [done |].
      split; (eapply den_intro; [apply recognises_exactly | done]). }
    eexists w1, _, [], _. split; [reflexivity |]. split; [reflexivity |].
    split; [apply den_intro with (P := spaces1); [apply recognises_ws1 | done] |].
    eexists name, _, [(2, name)], _. split; [reflexivity |]. split; [reflexivity |].
    split.
    { exists []. split; [done |].
      eapply den_intro; [apply recognises_plus_lazy | done]. }
    eexists w2, _, [], _. split; [reflexivity |]. split; [reflexivity |].
    split; [apply den_intro with (P := spaces1); [apply recognises_ws1 | done] |].
    eexists ty, _, [(3, ty)], _. split; [reflexivity |]. split; [reflexivity |].
    split.
    { exists []. split; [done |].
      eapply den_intro; [apply recognises_alts_lit | done]. }
    eexists w3, _, [], _. split; [reflexivity |]. split; [reflexivity |].
    split; [apply den_intro with (P := spaces1); [apply recognises_ws1 | done] |].
    eexists int, _, [(4, int)], _. split; [reflexivity |]. split; [reflexivity |].
    split.
    { exists []. split; [done |].
      eapply den_intro; [apply recognises_digits | done]. }
    eexists (column_text e), _, (column_cap 5 e), _.
    split; [reflexivity |]. split; [reflexivity |].
    split; [apply (den_column _ _ _ _ _ _ _ recognises_mark1); eauto |].
    eexists (column_text b), _, (column_cap 6 b), _.
    split; [reflexivity |]. split; [reflexivity |].
    split; [apply (den_column _ _ _ _ _ _ _ recognises_mark2); eauto |].
    exists (column_text g), w4, (column_cap 7 g), [].
    split; [reflexivity |]. split; [by rewrite app_nil_r |].
    split; [apply (den_column _ _ _ _ _ _ _ recognises_grade); eauto |].
    exists w4, [], [], []. split; [by rewrite app_nil_r |]. split; [done |].
    split; [apply den_intro with (P := spaces); [apply recognises_ws | done] |].
    done.
Qed.

(** ** What [parse_row_to_columns] returns *)

Lemma group_parts_caps m p :
  m_caps m = parts_caps p ->
  group 1 m = Some (of_list (p_code p)) /\
  group 2 m = Some (of_list (p_name p)) /\
  group 3 m = Some (of_list (p_type p)) /\
  group 4 m = Some (of_list (p_internal p)) /\
  group 5 m = of_list ∘ snd <$> p_external p /\
  group 6 m = of_list ∘ snd <$> p_back_paper p /\
  group 7 m = of_list ∘ snd <$> p_grade p.
Proof.
  intros Hc. unfold group. rewrite Hc. unfold parts_caps.
  destruct (p_external p) as [[? ?]|], (p_back_paper p) as [[? ?]|],
    (p_grade p) as [[? ?]|]; done.
Qed.

(** A row comes from a match of the row grammar. *)
Lemma parse_row_Some raw r :
  parse_row_to_columns raw = Some r ->
  exists p s', row_text raw = parts_text p ++ s' /\ parts_ok p /\
    (s' = [] \/ s' = ["010"%char]) /\ r = row_of_parts p.
Proof.
  unfold parse_row_to_columns, match_.
  destruct (match_at row_pattern 0 None _) as [m|] eqn:Hm; [|done].
  apply match_at_Some in Hm as (s' & _ & Ht & Hd).
  apply den_row_pattern in Hd as (p & Hp & Hc & Hok & Hs').
  apply group_parts_caps in Hc as (H1 & H2 & H3 & H4 & H5 & H6 & H7).
  cbn [mbind option_bind]. rewrite H1, H2, H3, H4, H5, H6, H7.
  cbn [mbind option_bind]. intros [= <-]. exists p, s'. rewrite <- Hp. done.
Qed.

(** The grammar matches: the row is the one of some match. *)
Lemma parse_row_is_Some raw p s' :
  row_text raw = parts_text p ++ s' -> parts_ok p ->
  (s' = [] \/ s' = ["010"%char]) ->
  is_Some (parse_row_to_columns raw).
Proof.
  intros Ht Hok Hs'.
  assert (Hd : den row_pattern None (parts_text p) s' (parts_caps p)).
  { apply den_row_pattern. exists p. done. }
  apply (match_at_is_Some _ 0) in Hd as [m Hm].
  unfold parse_row_to_columns, match_.
  change (list_ascii_of_string (sub_ws (strip raw))) with (row_text raw).
  rewrite Ht, Hm.
  apply match_at_Some in Hm as (s'' & _ & _ & Hd).
  apply den_row_pattern in Hd as (p' & _ & Hc & _).
  apply group_parts_caps in Hc as (H1 & H2 & H3 & H4 & _).
  cbn [mbind option_bind]. rewrite H1, H2, H3, H4. cbn [mbind option_bind]. done.
Qed.

(** ** The columns Code and Type *)

Lemma code_text_shape m : code_text m -> code_shape (of_list m) = true.
Proof.
  intros (a & d & -> & [Ha Hla] & [Hd Hld]).
  destruct a as [|a1 [|a2 [|a3 [|]]]]; try discriminate.
  destruct d as [|d1 [|d2 [|d3 [|]]]]; try discriminate.
  unfold all in *. repeat (apply Forall_cons in Ha as [? Ha]).
  repeat (apply Forall_cons in Hd as [? Hd]).
  unfold code_shape, to_list, of_list.
  rewrite list_ascii_of_string_of_list_ascii. simpl.
  repeat match goal with H : _ = true |- _ => rewrite H; clear H end.
  reflexivity.
Qed.

Lemma ci_eq_lower w m : ci_eq w m -> Chars.lower <$> m = Chars.lower <$> w.
Proof.
  induction 1 as [|c x w m Hx _ IH]; [done |].
  simpl. f_equal; [by apply ci_lower | done].
Qed.





(** The type ["CA"] comes out as ["Ca"]. *)
Example type_CA_capitalized :
  parse_row_to_columns "CSE101 Maths CA 40 50 -- A" =
  Some ["CSE101"; "Maths"; "Ca"; "40"; "50"; "--"; "A"].
Proof. vm_compute. reflexivity. Qed.

(** ** Words *)

Lemma words_cons2 c d s :
  words (c :: d :: s) =
    if is_space c then words (d :: s)
    else if is_space d then [c] :: words (d :: s)
    else match words (d :: s) with t :: ts => (c :: t) :: ts | [] => [[c]] end.
Proof. reflexivity. Qed.

Lemma words_spaces w s : spaces w -> words (w ++ s) = words s.
Proof.
  induction 1 as [|c w Hc _ IH]; [done |]. simpl. by rewrite Hc.
Qed.

Lemma words_cons_nonspace c s :
  is_space c = false -> s <> [] -> starts_with_space s = false ->
  exists t ts, words s = t :: ts /\ words (c :: s) = (c :: t) :: ts.
Proof.
  intros Hc Hs Hd. destruct s as [|d s]; [done |]. simpl in Hd.
  assert (Hw : exists t ts, words (d :: s) = t :: ts).
  { simpl. rewrite Hd. destruct s as [|e s]; [eauto |].
    destruct (is_space e); [eauto |]. destruct (words (e :: s)); eauto. }
  destruct Hw as (t & ts & Hw). exists t, ts. split; [done |].
  by rewrite words_cons2, Hc, Hd, Hw.
Qed.

Lemma words_token t rest :
  token t -> space_led rest -> words (t ++ rest) = t :: words rest.
Proof.
  intros [Hne Ht] Hrest. induction Ht as [|c t Hc Ht IH]; [done |].
  destruct t as [|d t].
  - simpl. rewrite Hc. destruct rest as [|e rest]; [done |].
    simpl in Hrest. rewrite Hrest. done.
  - apply Forall_cons in Ht as Hd. destruct Hd as [Hd _].
    change ((c :: d :: t) ++ rest) with (c :: ((d :: t) ++ rest)).
    destruct (words_cons_nonspace c ((d :: t) ++ rest)) as (t' & ts & Hw & ->);
      [done | done | done |].
    rewrite IH in Hw by done. by injection Hw as <- <-.
Qed.

Lemma words_all_spaces w : spaces w -> words w = [].
Proof. intros Hw. rewrite <- (app_nil_r w). by rewrite words_spaces. Qed.

Lemma space_led_spaces1 w s : spaces1 w -> space_led (w ++ s).
Proof.
  intros [Hw Hlen]. destruct w as [|c w]; [simpl in Hlen; lia |].
  by apply Forall_cons in Hw as [? _].
Qed.

(** White space between two texts separates their words. *)
Lemma words_app x w y :
  spaces1 w -> words (x ++ w ++ y) = words x ++ words y.
Proof.
  intros Hw. induction x as [|c x IH].
  - simpl. apply words_spaces, Hw.
  - destruct (is_space c) eqn:Hc.
    { simpl. by rewrite Hc. }
    destruct x as [|d x].
    + assert (words [c] = [[c]]) as -> by (simpl; by rewrite Hc).
      rewrite (words_token [c]); [by rewrite words_spaces by apply Hw | |].
      * split; [done |]. by repeat constructor.
      * by apply space_led_spaces1.
    + destruct (is_space d) eqn:Hd.
      * rewrite <- !app_comm_cons, !words_cons2, Hc, Hd.
        rewrite !app_comm_cons, IH. done.
      * change ((c :: d :: x) ++ w ++ y) with (c :: ((d :: x) ++ w ++ y)).
        destruct (words_cons_nonspace c ((d :: x) ++ w ++ y))
          as (t & ts & Hw1 & ->); [done | done | done |].
        destruct (words_cons_nonspace c (d :: x)) as (t' & ts' & Hw2 & ->);
          [done | done | done |].
        rewrite IH, Hw2 in Hw1. by injection Hw1 as <- <-.
Qed.

Lemma unwords_cons t ts :
  ts <> [] -> unwords (t :: ts) = t ++ " "%char :: unwords ts.
Proof. by destruct ts. Qed.

Lemma is_space_space : is_space " " = true.
Proof. reflexivity. Qed.

Lemma words_unwords ts : Forall token ts -> words (unwords ts) = ts.
Proof.
  induction 1 as [|t ts Ht Hts IH]; [done |].
  destruct ts as [|t' ts].
  - simpl. rewrite <- (app_nil_r t) at 1. by rewrite words_token.
  - rewrite unwords_cons by done.
    rewrite words_token; [| done | done].
    change (" "%char :: unwords (t' :: ts)) with ([" "%char] ++ unwords (t' :: ts)).
    rewrite words_spaces, IH; [done |]. by repeat constructor.
Qed.

(** ** Normalized text *)

Lemma row_text_eq raw :
  row_text raw = collapse_ws false (strip_l (to_list raw)).
Proof.
  unfold row_text, sub_ws, strip, to_list, of_list.
  by rewrite !list_ascii_of_string_of_list_ascii.
Qed.

Lemma collapse_ws_collapsed s : forall b,
  collapsed (collapse_ws b s) /\
  (b = true -> starts_with_space (collapse_ws b s) = false).
Proof.
  induction s as [|c s IH]; intros b; [done |]. simpl.
  destruct (is_space c) eqn:Hc.
  - destruct b.
    + apply IH.
    + split; [|done]. simpl. split; [|apply IH].
      intros _. split; [done |]. by apply IH.
  - simpl. rewrite Hc. split; [|done]. split; [done |]. apply IH.
Qed.

Lemma row_text_collapsed raw : collapsed (row_text raw).
Proof. rewrite row_text_eq. apply collapse_ws_collapsed. Qed.

Lemma collapsed_app a b :
  collapsed (a ++ b) ->
  collapsed a /\ collapsed b /\
  (starts_with_space (rev a) = true -> starts_with_space b = false).
Proof.
  induction a as [|c a IH]; [done |]. simpl. intros [Hc Hab].
  destruct (IH Hab) as (Ha & Hb & Hadj). split; [|split; [done |]].
  - split; [|done]. intros H. destruct (Hc H) as [-> Hs]. split; [done |].
    by destruct a.
  - destruct a as [|d a].
    + simpl. intros H. by apply Hc.
    + intros H. apply Hadj. simpl in *.
      destruct (rev a ++ [d]) eqn:Hr; [by destruct (rev a) | done].
Qed.

Lemma starts_with_space_app a b :
  a <> [] -> starts_with_space (a ++ b) = starts_with_space a.
Proof. by destruct a. Qed.

Lemma spaces1_first w : spaces1 w -> starts_with_space w = true.
Proof.
  intros [Hw Hlen]. destruct w as [|c w]; [simpl in Hlen; lia |].
  by apply Forall_cons in Hw as [? _].
Qed.

Lemma spaces1_last w : spaces1 w -> starts_with_space (rev w) = true.
Proof.
  intros [Hw Hlen]. apply spaces1_first. split.
  - unfold spaces, all in *. apply Forall_forall. intros c Hc.
    rewrite Forall_forall in Hw. apply Hw.
    apply list_elem_of_In. apply list_elem_of_In in Hc. by apply in_rev.
  - by rewrite length_rev.
Qed.

(** A text between white space, inside a normalized text. *)
Lemma collapsed_piece a w1 n w2 b :
  collapsed (a ++ w1 ++ n ++ w2 ++ b) -> spaces1 w1 -> spaces1 w2 -> n <> [] ->
  trimmed n /\ collapsed n.
Proof.
  intros Hc Hw1 Hw2 Hn.
  assert (Hc1 : collapsed ((a ++ w1) ++ (n ++ w2 ++ b))) by (by rewrite <- app_assoc).
  apply collapsed_app in Hc1 as (_ & Hc1 & Hadj1).
  assert (H1 : starts_with_space n = false).
  { rewrite <- (starts_with_space_app n (w2 ++ b)) by done. apply Hadj1.
    rewrite rev_app_distr, starts_with_space_app.
    - by apply spaces1_last.
    - destruct Hw1 as [_ Hl]. destruct w1; [simpl in Hl; lia |].
      simpl. by destruct (rev w1). }
  apply collapsed_app in Hc1 as (Hcn & _ & Hadj2).
  split; [|done]. split; [done |].
  destruct (starts_with_space (rev n)) eqn:Hr; [|done].
  specialize (Hadj2 eq_refl). rewrite starts_with_space_app in Hadj2.
  - by rewrite spaces1_first in Hadj2.
  - destruct Hw2 as [_ Hl]. destruct w2; [simpl in Hl; lia | done].
Qed.

Lemma drop_while_nonspace s :
  starts_with_space s = false -> drop_while is_space s = s.
Proof. destruct s as [|c s]; [done |]. simpl. by intros ->. Qed.

Lemma strip_l_trimmed s : trimmed s -> strip_l s = s.
Proof.
  intros [H1 H2]. unfold strip_l, lstrip_l, rstrip_l.
  rewrite (drop_while_nonspace s), drop_while_nonspace by done.
  apply rev_involutive.
Qed.

Lemma words_nonspace s :
  s <> [] -> starts_with_space s = false -> words s <> [].
Proof.
  destruct s as [|c s]; [done |]. simpl. intros _ ->.
  destruct s as [|d s]; [done |]. destruct (is_space d); [done |].
  by destruct (words (d :: s)).
Qed.

Lemma unwords_cons_cons c t ts :
  unwords ((c :: t) :: ts) = c :: unwords (t :: ts).
Proof. by destruct ts. Qed.

(** A normalized text is its words joined by one space. *)
Lemma unwords_words s :
  trimmed s -> collapsed s -> unwords (words s) = s.
Proof.
  induction s as [s IH] using length_ind. intros [H1 H2] Hc.
  destruct s as [|c [|d s]]; [done | |].
  - simpl in *. rewrite H1. reflexivity.
  - simpl in H1. destruct (is_space d) eqn:Hd.
    + rewrite words_cons2, H1, Hd.
      change (d :: s) with ([d] ++ s). rewrite words_spaces by (by repeat constructor).
      destruct Hc as [_ [Hcd Hcs]]. destruct (Hcd Hd) as [-> Hs].
      assert (Hne : s <> []).
      { intros ->. simpl in H2. by rewrite Hd in H2. }
      rewrite unwords_cons by (by apply words_nonspace).
      rewrite IH; [done | simpl; lia | | done].
      split; [done |]. simpl in H2.
      destruct (rev s) as [|e r] eqn:Hr; [|by rewrite <- !app_assoc in H2].
      apply (f_equal (@rev ascii)) in Hr. rewrite rev_involutive in Hr. done.
    + destruct (words_cons_nonspace c (d :: s)) as (t & ts & Hw & ->);
        [done | done | done |].
      rewrite unwords_cons_cons, <- Hw, IH; [done | simpl; lia | | apply Hc].
      split; [done |]. simpl in H2. simpl.
      destruct (rev s ++ [d]) as [|e r] eqn:Hr; [by destruct (rev s) |].
      simpl in H2. done.
Qed.

Lemma collapse_ws_id s : forall b,
  collapsed s -> (b = true -> starts_with_space s = false) ->
  collapse_ws b s = s.
Proof.
  induction s as [|c s IH]; intros b Hc Hb; [done |]. simpl in *.
  destruct Hc as [Hc Hs]. destruct (is_space c) eqn:Hsp.
  - destruct b; [by specialize (Hb eq_refl) |].
    destruct (Hc eq_refl) as [-> Hn]. f_equal. by apply IH.
  - f_equal. by apply IH.
Qed.

(** ** The words of a row *)

Lemma token_collapsed t rest :
  Forall (fun c => is_space c = false) t -> collapsed rest -> collapsed (t ++ rest).
Proof.
  induction 1 as [|c t Hc _ IH]; [done |]. intros Hr. simpl.
  split; [congruence | auto].
Qed.

Lemma token_first t rest : token t -> starts_with_space (t ++ rest) = false.
Proof.
  intros [Hne Ht]. destruct t as [|c t]; [done |].
  by apply Forall_cons in Ht as [? _].
Qed.

Lemma token_last t : token t -> starts_with_space (rev t) = false.
Proof.
  intros [Hne Ht]. destruct (rev t) as [|c r] eqn:Hr.
  - done.
  - simpl. rewrite Forall_forall in Ht. apply Ht.
    apply list_elem_of_In, in_rev. rewrite Hr. by left.
Qed.

(** Words joined by one space make a normalized text. *)
Lemma unwords_normal ts :
  Forall token ts -> trimmed (unwords ts) /\ collapsed (unwords ts).
Proof.
  induction 1 as [|t ts Ht Hts IH]; [done |].
  destruct ts as [|t' ts].
  - simpl. split; [split |].
    + rewrite <- (app_nil_r t). by apply token_first.
    + by apply token_last.
    + rewrite <- (app_nil_r t). apply token_collapsed; [apply Ht | done].
  - rewrite unwords_cons by done. destruct IH as [[H1 H2] Hc]. split; [split |].
    + by apply token_first.
    + rewrite rev_app_distr. simpl. rewrite <- app_assoc.
      rewrite starts_with_space_app; [done |].
      intros Hr. apply (f_equal (@rev ascii)) in Hr.
      rewrite rev_involutive in Hr. simpl in Hr.
      apply Forall_cons in Hts as [[Hne _] _].
      destruct ts; [done |]. by destruct t'.
    + apply token_collapsed; [apply Ht |]. simpl. split; [|done].
      intros _. split; [done |]. done.
Qed.

Lemma row_text_unwords ts :
  Forall token ts -> row_text (of_list (unwords ts)) = unwords ts.
Proof.
  intros Hts. destruct (unwords_normal ts Hts) as [Ht Hc].
  rewrite row_text_eq. unfold to_list, of_list.
  rewrite list_ascii_of_string_of_list_ascii, strip_l_trimmed by done.
  apply collapse_ws_id; [done |]. intros _. apply Ht.
Qed.

Lemma rep_token p lo hi m :
  (forall c, p c = true -> is_space c = false) -> 1 <= lo ->
  rep p lo hi m -> token m.
Proof.
  intros Hp Hlo (Hm & Hlen & _). split.
  - intros ->. simpl in Hlen. lia.
  - eapply Forall_impl; [exact Hm |]. done.
Qed.

Lemma digit_not_space c : is_digit c = true -> is_space c = false.
Proof.
  intros H. pose proof (classes_disjoint c) as Hd. rewrite H in Hd.
  destruct (is_space c); [|done]. destruct (is_alpha c); done.
Qed.

Lemma digit_not_alpha c : is_digit c = true -> is_alpha c = false.
Proof.
  intros H. pose proof (classes_disjoint c) as Hd. rewrite H in Hd.
  destruct (is_alpha c); done.
Qed.

Lemma alpha_not_space c : is_alpha c = true -> is_space c = false.
Proof.
  intros H. pose proof (classes_disjoint c) as Hd. rewrite H in Hd.
  destruct (is_space c); [|done]. destruct (is_digit c); done.
Qed.

Lemma number_token m : number m -> token m /\ alpha_led false m.
Proof.
  intros [Hm Hlen]. split.
  - split; [intros ->; simpl in Hlen; lia |].
    eapply Forall_impl; [exact Hm |]. apply digit_not_space.
  - destruct m as [|x m]; [simpl in Hlen; lia |].
    apply Forall_cons in Hm as [Hx _]. exists x, m. split; [done |].
    by apply digit_not_alpha.
Qed.

Lemma ci_eq_token w m :
  ci_eq w m -> token w -> token m.
Proof.
  intros Hci [Hne Hw]. split.
  - intros ->. by inversion Hci.
  - clear Hne. induction Hci as [|c x w m Hx _ IH]; [done |].
    apply Forall_cons in Hw as [Hc Hw]. constructor; [|auto].
    apply ci_classes in Hx as (-> & _). done.
Qed.

Lemma ci_eq_alpha_led w m b : ci_eq w m -> alpha_led b w -> alpha_led b m.
Proof.
  intros Hci (c & w' & -> & Hc). inversion Hci as [|? x ? m' Hx _]; subst.
  exists x, m'. split; [done |]. by apply ci_classes in Hx as (_ & _ & ->).
Qed.

Lemma dashes_token m : dashes m -> token m /\ alpha_led false m.
Proof.
  intros Hd. split.
  - eapply ci_eq_token; [exact Hd |]. split; [done |]. by repeat constructor.
  - eapply ci_eq_alpha_led; [exact Hd |]. by eexists _, _.
Qed.

Lemma mark_token m : mark_text m -> token m /\ alpha_led false m.
Proof. intros [H | H]; [by apply number_token | by apply dashes_token]. Qed.

Lemma type_token m : type_text m -> token m /\ alpha_led true m.
Proof.
  intros (w & Hw & Hci). unfold type_words in Hw.
  repeat (apply elem_of_cons in Hw as [-> | Hw]); [..| by apply elem_of_nil in Hw];
    (split;
      [eapply ci_eq_token; [exact Hci |]; split; [done | by repeat constructor]
      |eapply ci_eq_alpha_led; [exact Hci |]; by eexists _, _]).
Qed.

Lemma code_token m : code_text m -> token m.
Proof.
  intros (a & d & -> & [Ha Hla] & [Hd Hld]). split.
  - destruct a; [done | done].
  - apply Forall_app. split.
    + eapply Forall_impl; [exact Ha |]. apply alpha_not_space.
    + eapply Forall_impl; [exact Hd |]. apply digit_not_space.
Qed.

Lemma plus_not_space c : ci "+" c = true -> is_space c = false.
Proof. by intros (-> & _)%ci_classes. Qed.

Lemma grade_token m : grade_text m -> token m.
Proof.
  intros (a & b & -> & (Ha & Hla & _) & (Hb & _)). split.
  - destruct a; [simpl in Hla; lia | done].
  - apply Forall_app. split.
    + eapply Forall_impl; [exact Ha |]. apply alpha_not_space.
    + eapply Forall_impl; [exact Hb |]. apply plus_not_space.
Qed.

Lemma alpha_led_clash m : alpha_led true m -> alpha_led false m -> False.
Proof. intros (x & m1 & -> & Hx) (y & m2 & [= <- <-] & Hy). congruence. Qed.

(** ** The words of a match *)

Lemma space_led_app_spaces w s : spaces w -> space_led s -> space_led (w ++ s).
Proof. intros Hw Hs. destruct w as [|c w]; [done |]. by apply Forall_cons in Hw as [? _]. Qed.

Lemma words_column P o rest :
  (forall x, P x -> token x) -> column_ok P o -> space_led rest ->
  space_led (column_text o ++ rest) /\
  words (column_text o ++ rest) = column_words o ++ words rest.
Proof.
  intros HP Hok Hrest. destruct o as [[w x]|]; [|done]. destruct Hok as [Hw Hx].
  simpl. rewrite <- app_assoc. split; [by apply space_led_spaces1 |].
  rewrite words_spaces by apply Hw. rewrite words_token; auto.
Qed.

Lemma space_led_end w s' :
  spaces w -> s' = [] \/ s' = ["010"%char] ->
  space_led (w ++ s') /\ words (w ++ s') = [].
Proof.
  intros Hw Hs'. split.
  - apply space_led_app_spaces; [done |]. by destruct Hs' as [-> | ->].
  - rewrite words_spaces by done. by destruct Hs' as [-> | ->].
Qed.

(** The words of the text of a match are its columns, the name giving as
    many words as it has. *)
Lemma words_parts p s' :
  parts_ok p -> s' = [] \/ s' = ["010"%char] ->
  words (parts_text p ++ s') =
    [p_code p] ++ words (p_name p) ++ [p_type p; p_internal p] ++
    column_words (p_external p) ++ column_words (p_back_paper p) ++
    column_words (p_grade p).
Proof.
  intros (Hw0 & Hcode & Hw1 & Hname & Hw2 & Hty & Hw3 & Hint & He & Hb & Hg & Hw4) Hs'.
  unfold parts_text. rewrite <- !app_assoc.
  destruct (space_led_end (p_w4 p) s' Hw4 Hs') as [Hl4 Hwd4].
  destruct (words_column grade_text (p_grade p) (p_w4 p ++ s')) as [Hlg Hwdg];
    [apply grade_token | done | done |].
  destruct (words_column mark_text (p_back_paper p)
              (column_text (p_grade p) ++ p_w4 p ++ s')) as [Hlb Hwdb];
    [apply mark_token | done | done |].
  destruct (words_column mark_text (p_external p)
              (column_text (p_back_paper p) ++ column_text (p_grade p) ++
               p_w4 p ++ s')) as [Hle Hwde];
    [apply mark_token | done | done |].
  rewrite words_spaces by done.
  rewrite words_token; [| by apply code_token | by apply space_led_spaces1].
  rewrite words_spaces by apply Hw1.
  rewrite (words_app (p_name p)) by done.
  rewrite words_token; [| by apply type_token | by apply space_led_spaces1].
  rewrite words_spaces by apply Hw3.
  rewrite words_token; [| by apply number_token | done].
  rewrite Hwde, Hwdb, Hwdg, Hwd4, app_nil_r. done.
Qed.

(** ** The canonical text of a row *)

Lemma to_list_app (s1 s2 : string) :
  to_list (s1 +:+ s2) = to_list s1 ++ to_list s2.
Proof. induction s1 as [|c s1 IH]; [done |]. simpl. by rewrite <- IH. Qed.

Lemma to_list_of_list m : to_list (of_list m) = m.
Proof. apply list_ascii_of_string_of_list_ascii. Qed.

Lemma of_list_to_list s : of_list (to_list s) = s.
Proof. apply string_of_list_ascii_of_string. Qed.

Lemma unwords_app ts1 ts2 :
  ts1 <> [] -> ts2 <> [] ->
  unwords (ts1 ++ ts2) = unwords ts1 ++ " "%char :: unwords ts2.
Proof.
  intros H1 H2. induction ts1 as [|t ts1 IH]; [done |].
  destruct ts1 as [|t' ts1].
  - simpl. by destruct ts2.
  - change ((t :: t' :: ts1) ++ ts2) with (t :: ((t' :: ts1) ++ ts2)).
    rewrite (unwords_cons t ((t' :: ts1) ++ ts2)) by (simpl; done).
    rewrite IH by done.
    rewrite (unwords_cons t (t' :: ts1)) by done. by rewrite <- app_assoc.
Qed.

(** The text of a match of the canonical text has the columns of the
    canonical text. *)
Lemma canonical_parts C N T I E B G p s' :
  token C -> Forall token N -> type_text T -> number I -> mark_text E ->
  mark_text B -> grade_text G ->
  unwords ([C] ++ N ++ [T; I; E; B; G]) = parts_text p ++ s' ->
  parts_ok p -> s' = [] \/ s' = ["010"%char] ->
  p_code p = C /\ words (p_name p) = N /\ p_type p = T /\ p_internal p = I /\
  column_words (p_external p) = [E] /\ column_words (p_back_paper p) = [B] /\
  column_words (p_grade p) = [G].
Proof.
  intros HC HN HT HI HE HB HG Heq Hok Hs'.
  apply (f_equal words) in Heq. rewrite words_parts in Heq by done.
  rewrite words_unwords in Heq.
  2: { pose proof (proj1 (type_token _ HT)). pose proof (proj1 (number_token _ HI)).
       pose proof (proj1 (mark_token _ HE)). pose proof (proj1 (mark_token _ HB)).
       pose proof (grade_token _ HG).
       apply Forall_app. split; [constructor; [assumption | constructor] |].
       apply Forall_app. split; [done |].
       repeat (constructor; [assumption |]). constructor. }
  destruct Hok as (_ & _ & _ & _ & _ & Hpt & _ & Hpi & He & Hb & Hg & _).
  apply type_token in Hpt as [_ Hpt].
  apply number_token in HI as [_ HI]. apply mark_token in HE as [_ HE].
  apply mark_token in HB as [_ HB].
  apply (f_equal (@rev (list ascii))) in Heq.
  destruct (p_external p) as [[we e]|], (p_back_paper p) as [[wb b]|],
    (p_grade p) as [[wg g]|]; simpl in Heq;
    repeat (rewrite rev_app_distr in Heq; simpl in Heq).
  - injection Heq as <- <- <- <- <- Hrest.
    apply app_inj_tail in Hrest as [Hrest <-].
    apply (f_equal (@rev (list ascii))) in Hrest. rewrite !rev_involutive in Hrest.
    done.
  - injection Heq as _ _ _ Hc _. rewrite Hc in HI.
    by destruct (alpha_led_clash (p_type p)).
  - injection Heq as _ _ _ Hc _. rewrite Hc in HI.
    by destruct (alpha_led_clash (p_type p)).
  - injection Heq as _ _ Hc _. rewrite Hc in HE.
    by destruct (alpha_led_clash (p_type p)).
  - injection Heq as _ _ _ Hc _. rewrite Hc in HI.
    by destruct (alpha_led_clash (p_type p)).
  - injection Heq as _ _ Hc _. rewrite Hc in HE.
    by destruct (alpha_led_clash (p_type p)).
  - injection Heq as _ _ Hc _. rewrite Hc in HE.
    by destruct (alpha_led_clash (p_type p)).
  - injection Heq as _ Hc _. rewrite Hc in HB.
    by destruct (alpha_led_clash (p_type p)).
Qed.

(** ** Parsing the canonical text *)

Lemma eqb_ascii_eq (a b : ascii) : Ascii.eqb a b = true -> a = b.
Proof. apply Ascii.eqb_eq. Qed.

Lemma lower_list_idem (m : list ascii) : Chars.lower <$> (Chars.lower <$> m) = Chars.lower <$> m.
Proof.
  induction m as [|c m IH]; [done |]. rewrite !fmap_cons.
  f_equal; [apply eqb_ascii_eq, lower_idem | done].
Qed.

Lemma capitalize_idem s : capitalize (capitalize s) = capitalize s.
Proof.
  destruct s as [|c s]; [done |]. simpl.
  rewrite (eqb_ascii_eq _ _ (upper_idem c)). f_equal.
  unfold lower, to_list, of_list.
  by rewrite list_ascii_of_string_of_list_ascii, lower_list_idem.
Qed.

Lemma ci_eq_lower_list w m : ci_eq w m -> ci_eq w (Chars.lower <$> m).
Proof.
  induction 1 as [|c x w m Hx _ IH]; constructor; [|done].
  apply ci_lower. apply ci_lower in Hx.
  by rewrite (eqb_ascii_eq _ _ (lower_idem x)).
Qed.

Lemma ci_eq_capitalize w m :
  ci_eq w m -> ci_eq w (to_list (capitalize (of_list m))).
Proof.
  intros H. destruct H as [|c x w m Hx Hm]; [constructor |].
  simpl. constructor.
  - apply ci_lower. apply ci_lower in Hx.
    by rewrite (eqb_ascii_eq _ _ (lower_upper x)).
  - unfold lower, to_list, of_list. rewrite !list_ascii_of_string_of_list_ascii.
    by apply ci_eq_lower_list.
Qed.

Lemma type_text_capitalize m :
  type_text m -> type_text (to_list (capitalize (of_list m))).
Proof. intros (w & Hw & Hci). exists w. split; [done |]. by apply ci_eq_capitalize. Qed.

Lemma column_value_Some w x : x <> [] -> column_value (Some (w, x)) = of_list x.
Proof. by destruct x. Qed.

Lemma column_value_mark o :
  column_ok mark_text o -> mark_text (to_list (column_value o)).
Proof.
  destruct o as [[w x]|].
  - intros [_ Hx]. rewrite column_value_Some, to_list_of_list; [done |].
    by apply mark_token in Hx as [[? _] _].
  - intros _. right. unfold dashes. simpl. repeat constructor.
Qed.

Lemma strip_of_list_trimmed n : trimmed n -> strip (of_list n) = of_list n.
Proof.
  intros Hn. unfold strip. by rewrite to_list_of_list, strip_l_trimmed.
Qed.

(** The name of a match is a normalized text. *)
Lemma parts_name_normal t p s' :
  collapsed t -> t = parts_text p ++ s' -> parts_ok p ->
  trimmed (p_name p) /\ collapsed (p_name p) /\ p_name p <> [].
Proof.
  intros Hc -> (_ & _ & Hw1 & [_ Hlen] & Hw2 & _).
  assert (Hne : p_name p <> []).
  { intros Hn. rewrite Hn in Hlen. simpl in Hlen. lia. }
  assert (Heq : parts_text p ++ s' =
    (p_w0 p ++ p_code p) ++ p_w1 p ++ p_name p ++ p_w2 p ++
    (p_type p ++ p_w3 p ++ p_internal p ++ column_text (p_external p) ++
     column_text (p_back_paper p) ++ column_text (p_grade p) ++ p_w4 p ++ s')).
  { unfold parts_text. by rewrite <- !app_assoc. }
  rewrite Heq in Hc.
  destruct (collapsed_piece _ _ _ _ _ Hc Hw1 Hw2 Hne). done.
Qed.

(** ** The round trip *)

Lemma words_tokens s : Forall token (words s).
Proof.
  induction s as [|c s IH]; [constructor |].
  destruct (is_space c) eqn:Hc.
  { simpl. by rewrite Hc. }
  destruct s as [|d s].
  { simpl. rewrite Hc. repeat constructor; done. }
  destruct (is_space d) eqn:Hd.
  - rewrite words_cons2, Hc, Hd. constructor; [|done].
    split; [done |]. by repeat constructor.
  - destruct (words_cons_nonspace c (d :: s)) as (t & ts & Hw & ->);
      [done | done | done |].
    rewrite Hw in IH. apply Forall_cons in IH as [[_ Ht] Hts].
    constructor; [|done]. split; [done |]. by constructor.
Qed.

(** The canonical text of the row of a match, as words. *)
Lemma format_row_parts p :
  p_name p = unwords (words (p_name p)) -> words (p_name p) <> [] ->
  to_list (format_row
    [of_list (p_code p); of_list (p_name p); capitalize (of_list (p_type p));
     of_list (p_internal p); column_value (p_external p);
     column_value (p_back_paper p); column_value (p_grade p)]) =
  unwords ([p_code p] ++ words (p_name p) ++
           [to_list (capitalize (of_list (p_type p))); p_internal p;
            to_list (column_value (p_external p));
            to_list (column_value (p_back_paper p));
            to_list (column_value (p_grade p))]).
Proof.
  intros Hn Hne. rewrite (unwords_app [p_code p]); [| done |].
  2: { by destruct (words (p_name p)). }
  rewrite unwords_app by done. rewrite <- Hn.
  unfold format_row. cbn [String.concat].
  change (String.append) with String.app.
  rewrite !to_list_app, !to_list_of_list; cbn [to_list list_ascii_of_string app unwords].
  reflexivity.
Qed.

(** The row of a match whose grade is present is parsed again from its
    canonical text. *)
Lemma parse_format_parts raw p s' :
  row_text raw = parts_text p ++ s' -> parts_ok p ->
  s' = [] \/ s' = ["010"%char] -> p_grade p <> None ->
  parse_row_to_columns (format_row (row_of_parts p)) = Some (row_of_parts p).
Proof.
  intros Ht Hok Hs' Hgrade.
  destruct (parts_name_normal _ _ _ (row_text_collapsed raw) Ht Hok)
    as (Htrim & Hcol & Hne).
  pose proof (unwords_words _ Htrim Hcol) as Hn. symmetry in Hn.
  assert (HN : words (p_name p) <> []) by (apply words_nonspace; [done | apply Htrim]).
  destruct Hok as (Hw0 & Hcode & Hw1 & Hname & Hw2 & Hty & Hw3 & Hint & He & Hb &
                   Hg & Hw4).
  destruct (p_grade p) as [[wg G]|] eqn:Hpg; [|done]. simpl in Hg.
  destruct Hg as [Hwg HG].
  assert (HGne : G <> []) by (by apply grade_token in HG as [? _]).
  set (T := to_list (capitalize (of_list (p_type p)))).
  set (E := to_list (column_value (p_external p))).
  set (B := to_list (column_value (p_back_paper p))).
  set (ts := [p_code p] ++ words (p_name p) ++ [T; p_internal p; E; B; G]).
  assert (HT : type_text T) by (by apply type_text_capitalize).
  assert (HE : mark_text E) by (by apply column_value_mark).
  assert (HB : mark_text B) by (by apply column_value_mark).
  assert (Hts : Forall token ts).
  { pose proof (proj1 (type_token _ HT)). pose proof (proj1 (number_token _ Hint)).
    pose proof (proj1 (mark_token _ HE)). pose proof (proj1 (mark_token _ HB)).
    pose proof (grade_token _ HG). pose proof (code_token _ Hcode).
    apply Forall_app. split; [constructor; [assumption | constructor] |].
    apply Forall_app. split; [apply words_tokens |].
    repeat (constructor; [assumption |]). constructor. }
  assert (Hrow : row_of_parts p =
    [of_list (p_code p); of_list (p_name p); capitalize (of_list (p_type p));
     of_list (p_internal p); of_list E; of_list B; of_list G]).
  { unfold row_of_parts. rewrite Hpg, strip_of_list_trimmed by done.
    unfold E, B. rewrite !of_list_to_list, column_value_Some by done. done. }
  assert (Htext : row_text (format_row (row_of_parts p)) = unwords ts).
  { rewrite <- (row_text_unwords ts Hts). f_equal.
    rewrite <- (of_list_to_list (format_row _)). f_equal.
    unfold row_of_parts. rewrite strip_of_list_trimmed by done.
    rewrite format_row_parts by done.
    rewrite Hpg, column_value_Some, to_list_of_list by done. done. }
  (* the canonical text matches the grammar *)
  destruct (parse_row_is_Some (format_row (row_of_parts p))
    (RowParts [] (p_code p) [" "%char] (p_name p) [" "%char] T [" "%char]
       (p_internal p) (Some ([" "%char], E)) (Some ([" "%char], B))
       (Some ([" "%char], G)) []) []) as [r2 Hr2].
  { rewrite Htext. unfold ts.
    rewrite (unwords_app [p_code p]); [| done | by destruct (words (p_name p))].
    rewrite unwords_app by done. rewrite <- Hn. unfold parts_text. simpl.
    rewrite <- !app_assoc, !app_nil_r. reflexivity. }
  { assert (Hsp : spaces1 [" "%char]) by (split; [by repeat constructor | simpl; lia]).
    unfold parts_ok. simpl.
    split; [constructor |]. do 7 (split; [assumption |]).
    do 3 (split; [by split |]). constructor. }
  { by left. }
  (* any match of the canonical text gives the same row *)
  rewrite Hr2. f_equal.
  apply parse_row_Some in Hr2 as (p' & s'' & Ht' & Hok' & Hs'' & ->).
  rewrite Htext in Ht'.
  destruct (canonical_parts _ _ _ _ _ _ _ p' s'' (code_token _ Hcode)
              (words_tokens _) HT Hint HE HB HG Ht' Hok' Hs'')
    as (Hc' & Hn' & Ht2 & Hi' & He' & Hb' & Hg').
  assert (Hcol' : collapsed (unwords ts)) by (by apply unwords_normal).
  destruct (parts_name_normal _ _ _ Hcol' Ht' Hok') as (Htrim' & Hcol2 & Hne').
  rewrite Hrow. unfold row_of_parts.
  rewrite strip_of_list_trimmed by done.
  rewrite <- (unwords_words (p_name p')), Hn', <- Hn by done.
  rewrite Hc', Ht2, Hi'. unfold T. rewrite of_list_to_list, capitalize_idem.
  destruct (p_external p') as [[? ?]|], (p_back_paper p') as [[? ?]|],
    (p_grade p') as [[? ?]|]; try discriminate.
  injection He' as ->. injection Hb' as ->. injection Hg' as ->.
  rewrite !column_value_Some; [done | done | |].
  - by apply mark_token in HB as [[? _] _].
  - by apply mark_token in HE as [[? _] _].
Qed.

Lemma column_value_None_grade p :
  parts_ok p -> column_value (p_grade p) <> "--" -> p_grade p <> None.
Proof. intros _ H Hn. by rewrite Hn in H. Qed.

Lemma no_round_trip_without_grade : ~ round_trip_without_grade.
Proof.
  intros H.
  specialize (H ["CSE101"; "Maths"; "Theory"; "40"; "--"; "--"; "--"]).
  vm_compute in H. specialize (H eq_refl). discriminate.
Qed.

(** * Further properties *)

(** ** Text *)

Lemma drop_while_spaces s :
  exists w, s = w ++ drop_while is_space s /\ spaces w /\
    starts_with_space (drop_while is_space s) = false.
Proof.
  induction s as [|c s (w & Heq & Hw & Hs)].
  { exists []. split; [done |]. split; [constructor | done]. }
  simpl. destruct (is_space c) eqn:Hc.
  - exists (c :: w). rewrite <- app_comm_cons, <- Heq.
    split; [done |]. split; [by constructor | done].
  - exists []. split; [done |]. split; [constructor |]. simpl. done.
Qed.

Lemma words_end_spaces s w : spaces w -> words (s ++ w) = words s.
Proof.
  intros Hw. destruct w as [|c w]; [by rewrite app_nil_r |].
  rewrite <- (app_nil_r (c :: w)), words_app, app_nil_r; [done |].
  split; [done | simpl; lia].
Qed.

Lemma spaces_rev w : spaces w -> spaces (rev w).
Proof. unfold spaces, all. apply Forall_rev. Qed.

(** [strip] splits off white space at both ends. *)
Lemma strip_l_parts s :
  exists w1 w2, s = w1 ++ strip_l s ++ w2 /\ spaces w1 /\ spaces w2 /\
    starts_with_space (rev (strip_l s)) = false.
Proof.
  unfold strip_l, lstrip_l, rstrip_l.
  destruct (drop_while_spaces s) as (w1 & H1 & Hw1 & _).
  destruct (drop_while_spaces (rev (drop_while is_space s))) as (w2 & H2 & Hw2 & Hs).
  exists w1, (rev w2). rewrite rev_involutive.
  split; [|split; [done | split; [by apply spaces_rev | done]]].
  rewrite <- rev_app_distr, <- H2, rev_involutive. done.
Qed.

Lemma words_strip_l s : words (strip_l s) = words s.
Proof.
  destruct (strip_l_parts s) as (w1 & w2 & Heq & Hw1 & Hw2 & _).
  rewrite Heq at 2. by rewrite words_spaces, words_end_spaces.
Qed.

Lemma words_end_nonspace s :
  s <> [] -> starts_with_space (rev s) = false -> words s <> [].
Proof.
  induction s as [|c s IH]; [done |]. intros _ Hr.
  destruct s as [|d s].
  - simpl in *. by rewrite Hr.
  - rewrite words_cons2.
    assert (Hd : words (d :: s) <> []).
    { apply IH; [done |]. simpl in *.
      destruct (rev s ++ [d]) as [|e r] eqn:He; [by destruct (rev s) |]. done. }
    destruct (is_space c); [done |]. destruct (is_space d); [done |].
    by destruct (words (d :: s)).
Qed.

Lemma rev_cons_end {A} (c : A) s :
  s <> [] -> exists e r, rev s = e :: r /\ rev (c :: s) = e :: r ++ [c].
Proof.
  intros Hs. destruct (rev s) as [|e r] eqn:He.
  - apply (f_equal (@rev A)) in He. rewrite rev_involutive in He. done.
  - exists e, r. split; [done |]. simpl. by rewrite He.
Qed.

(** Collapsing the white space of a text leaves its words joined by one
    space. *)
Lemma collapse_ws_words s : forall b,
  starts_with_space (rev s) = false ->
  collapse_ws b s =
    if negb b && starts_with_space s then " "%char :: unwords (words s)
    else unwords (words s).
Proof.
  induction s as [|c s IH]; intros b Hr; [by destruct b |].
  assert (Hs : s <> [] -> starts_with_space (rev s) = false).
  { intros Hne. destruct (rev_cons_end c s Hne) as (e & r & H1 & H2).
    rewrite H2 in Hr. rewrite H1. done. }
  cbn [collapse_ws starts_with_space]. destruct (is_space c) eqn:Hc.
  - assert (Hne : s <> []).
    { intros ->. simpl in Hr. congruence. }
    specialize (Hs Hne).
    assert (Hw : words (c :: s) = words s) by (simpl; by rewrite Hc).
    rewrite Hw, (IH true Hs). by destruct b.
  - rewrite andb_false_r.
    destruct s as [|d s]; [simpl; by rewrite Hc |].
    specialize (Hs ltac:(done)). rewrite (IH false Hs), words_cons2, Hc.
    cbn [negb andb starts_with_space].
    pose proof (words_end_nonspace (d :: s) ltac:(done) Hs) as Hne.
    destruct (is_space d).
    + by rewrite unwords_cons.
    + destruct (words (d :: s)) as [|t ts]; [done |].
      by rewrite unwords_cons_cons.
Qed.

(** A stripped text has no white space at its ends. *)
Lemma strip_l_is_trimmed s : trimmed (strip_l s).
Proof.
  destruct (strip_l_parts s) as (_ & _ & _ & _ & _ & Hr). split; [|done].
  unfold strip_l, lstrip_l, rstrip_l.
  destruct (drop_while_spaces s) as (v1 & _ & _ & H1).
  destruct (drop_while_spaces (rev (drop_while is_space s))) as (v2 & H2 & _ & _).
  apply (f_equal (@rev ascii)) in H2. rewrite rev_involutive, rev_app_distr in H2.
  set (t := rev (drop_while is_space (rev (drop_while is_space s)))) in *.
  destruct t as [|x t]; [done |]. rewrite H2 in H1. done.
Qed.

Lemma strip_idem s : strip (strip s) = strip s.
Proof.
  unfold strip at 1 3. f_equal. unfold strip. rewrite to_list_of_list.
  apply strip_l_trimmed, strip_l_is_trimmed.
Qed.

(** The text that the row pattern reads is the words of the line joined
    by one space. *)
Lemma row_text_words raw : row_text raw = unwords (words (to_list raw)).
Proof.
  rewrite row_text_eq. destruct (strip_l_is_trimmed (to_list raw)) as [H1 H2].
  rewrite collapse_ws_words, words_strip_l by done. by rewrite H1.
Qed.

Lemma words_row_text raw : words (row_text raw) = words (to_list raw).
Proof. rewrite row_text_words. apply words_unwords, words_tokens. Qed.

Lemma words_strip s : words (to_list (strip s)) = words (to_list s).
Proof. unfold strip. rewrite to_list_of_list. apply words_strip_l. Qed.

Lemma prefix_empty s : String.prefix "" s = true.
Proof. by destruct s. Qed.

(** Two prefixes of a text: one is a prefix of the other. *)
Lemma prefix_compare (a b s : string) :
  String.prefix a s = true -> String.prefix b s = true ->
  String.prefix a b = true \/ String.prefix b a = true.
Proof.
  revert b s. induction a as [|c a IH]; intros b s.
  { intros _ _. left. apply prefix_empty. }
  destruct b as [|d b]; [intros _ _; by right |].
  destruct s as [|e s]; [done |]. simpl.
  destruct (Ascii.ascii_dec c e) as [-> | ?]; [|done].
  destruct (Ascii.ascii_dec d e) as [-> | ?]; [|done].
  destruct (Ascii.ascii_dec e e); [|done]. apply IH.
Qed.

Lemma prefix_split (p s : string) :
  String.prefix p s = true <-> exists r, to_list s = to_list p ++ r.
Proof.
  revert s. induction p as [|c p IH]; intros s.
  { split; [intros _; by exists (to_list s) | by destruct s]. }
  destruct s as [|d s]; [split; [done | intros [r Hr]; done] |]. simpl.
  destruct (Ascii.ascii_dec c d) as [-> | Hne].
  - rewrite IH. split; intros [r Hr]; exists r; [by rewrite Hr | by injection Hr].
  - split; [done |]. intros [r [= ? _]]. done.
Qed.

Lemma find_cons sub c s :
  find sub (String c s) =
    if String.prefix sub (String c s)
    then Some ("", String.substring (String.length sub) (String.length (String c s))
                     (String c s))
    else match find sub s with
         | Some (l, r) => Some (String c l, r)
         | None => None
         end.
Proof. reflexivity. Qed.

Lemma find_nil sub :
  find sub "" =
    if String.prefix sub ""
    then Some ("", String.substring (String.length sub) 0 "") else None.
Proof. reflexivity. Qed.

(** [sub in s] *)
Lemma contains_occurs sub s :
  contains sub s = true <-> occurs (to_list sub) (to_list s).
Proof.
  unfold contains, occurs. split.
  - induction s as [|c s IH].
    + rewrite find_nil. destruct (String.prefix sub "") eqn:Hp; [|done].
      intros _. apply prefix_split in Hp as [r Hr]. by exists [], r.
    + rewrite find_cons. destruct (String.prefix sub (String c s)) eqn:Hp.
      * intros _. apply prefix_split in Hp as [r Hr]. by exists [], r.
      * destruct (find sub s) as [[l r]|]; [|done]. intros _.
        destruct IH as (a & b & Hs); [done |]. exists (c :: a), b.
        simpl. by rewrite <- Hs.
  - intros (a & b & Hs). revert s Hs. induction a as [|c a IH]; intros s Hs.
    + assert (Hp : String.prefix sub s = true) by (apply prefix_split; eauto).
      destruct s; [rewrite find_nil | rewrite find_cons]; by rewrite Hp.
    + destruct s as [|d s]; [done |]. injection Hs as -> Hs.
      rewrite find_cons. destruct (String.prefix sub _); [done |].
      specialize (IH s Hs). by destruct (find sub s) as [[l r]|].
Qed.

Lemma occurs_part sub a s b : occurs sub s -> occurs sub (a ++ s ++ b).
Proof.
  intros (a' & b' & ->). exists (a ++ a'), (b' ++ b). by rewrite <- !app_assoc.
Qed.

(** The text before the first occurrence has no occurrence. *)
Lemma find_first sub s l r :
  sub <> "" -> find sub s = Some (l, r) ->
  (exists r', to_list s = to_list l ++ to_list sub ++ r') /\
  ~ occurs (to_list sub) (to_list l).
Proof.
  intros Hsub. revert l. induction s as [|c s IH]; intros l.
  - rewrite find_nil. destruct (String.prefix sub "") eqn:Hp; [|done].
    by destruct sub.
  - rewrite find_cons. destruct (String.prefix sub (String c s)) eqn:Hp.
    + intros [= <- _]. split.
      * apply prefix_split in Hp as [r' Hr]. by exists r'.
      * intros (a & b & Hab). destruct a, sub; done.
    + destruct (find sub s) as [[l' r']|]; [|done]. intros [= <- <-].
      destruct (IH l' eq_refl) as [[r'' Hs] Hno]. split.
      * exists r''. simpl. by rewrite Hs.
      * intros (a & b & Hab). destruct a as [|x a].
        -- assert (String.prefix sub (String c s) = true); [|congruence].
           apply prefix_split. exists (b ++ to_list sub ++ r'').
           change (to_list (String c s)) with (c :: to_list s).
           change (to_list (String c l')) with (c :: to_list l') in Hab.
           rewrite Hs, app_comm_cons, Hab. simpl. by rewrite <- !app_assoc.
        -- injection Hab as _ Hab. apply Hno. by exists a, b.
Qed.

Lemma rstrip_colon_part s :
  exists b, to_list s = to_list (rstrip_colon s) ++ b.
Proof.
  unfold rstrip_colon. rewrite to_list_of_list.
  assert (H : forall t, exists w, t = w ++ drop_while (cs ":") t).
  { induction t as [|c t [w Hw]]; [by exists [] |]. simpl.
    destruct (cs ":" c); [| by exists []]. exists (c :: w). simpl. by rewrite <- Hw. }
  destruct (H (rev (to_list s))) as [w Hw]. exists (rev w).
  rewrite <- rev_app_distr, <- Hw. by rewrite rev_involutive.
Qed.

Lemma strip_part s :
  exists a b, to_list s = a ++ to_list (strip s) ++ b.
Proof.
  unfold strip. rewrite to_list_of_list.
  destruct (strip_l_parts (to_list s)) as (w1 & w2 & Heq & _). eauto.
Qed.

Lemma elem_of_rev {A} (x : A) l : x ∈ rev l <-> x ∈ l.
Proof. rewrite !list_elem_of_In. symmetry. apply in_rev. Qed.

Lemma occurs_char (c : ascii) s : occurs [c] s <-> c ∈ s.
Proof.
  split.
  - intros (a & b & ->). apply elem_of_app. right. left.
  - intros (a & b & ->)%list_elem_of_split. by exists a, b.
Qed.

Lemma first_occurrence (x : ascii) a b a' b' :
  a ++ x :: b = a' ++ x :: b' -> x ∉ a -> x ∉ a' -> a = a'.
Proof.
  revert a'. induction a as [|c a IH]; intros [|c' a'] Heq Ha Ha'; simpl in *.
  - done.
  - injection Heq as <- _. exfalso. apply Ha'. left.
  - injection Heq as -> _. exfalso. apply Ha. left.
  - injection Heq as <- Heq. f_equal. apply (IH a' Heq).
    + intros ?. apply Ha. by right.
    + intros ?. apply Ha'. by right.
Qed.

Lemma to_list_reverse_str s : to_list (reverse_str s) = rev (to_list s).
Proof. unfold reverse_str. apply to_list_of_list. Qed.

(** ** File names *)

Lemma rsplit1_dot filename :
  contains "." filename = true ->
  exists before ext,
    rsplit1 "." filename = [before; of_list ext] /\ (dot ∉ ext) /\
    exists stem, to_list filename = stem ++ dot :: ext.
Proof.
  intros Hc. apply contains_occurs, (occurs_char dot) in Hc.
  assert (Hr : contains "." (reverse_str filename) = true).
  { apply contains_occurs, (occurs_char dot). rewrite to_list_reverse_str.
    by apply elem_of_rev. }
  unfold rsplit1. change (reverse_str ".") with ".".
  unfold contains in Hr.
  destruct (find "." (reverse_str filename)) as [[l r]|] eqn:Hf; [|done].
  apply find_first in Hf as [[r' Hs] Hno]; [|done].
  exists (reverse_str r), (rev (to_list l)). split; [done |]. split.
  - intros Hin. apply Hno, (occurs_char dot). by rewrite elem_of_rev in Hin.
  - exists (rev r'). rewrite to_list_reverse_str in Hs.
    apply (f_equal (@rev ascii)) in Hs. rewrite rev_involutive in Hs.
    rewrite Hs. simpl. rewrite !rev_app_distr. simpl. by rewrite <- !app_assoc.
Qed.

(** X1: [is_allowed_file] never fails, and accepts exactly the names that
    end with a dot followed by [pdf] in upper or lower case letters: the
    text after the last dot, lowered, is ["pdf"]. *)
Theorem allowed_file_names (filename : string) :
  is_Some (is_allowed_file filename) /\
  (is_allowed_file filename = Some true <-> pdf_name filename).
Proof.
  unfold is_allowed_file, pdf_name.
  destruct (contains "." filename) eqn:Hc.
  - destruct (rsplit1_dot filename Hc) as (before & ext & -> & Hext & stem & Hs).
    simpl. split; [eauto |]. split.
    + intros [= H]. apply bool_decide_eq_true in H.
      apply elem_of_singleton in H. eauto.
    + intros (stem' & ext' & Hs' & Hext' & Hl). f_equal. apply bool_decide_eq_true.
      apply elem_of_singleton. rewrite Hs in Hs'.
      apply (f_equal (@rev ascii)) in Hs'. rewrite !rev_app_distr in Hs'.
      simpl in Hs'. rewrite <- !app_assoc in Hs'. simpl in Hs'.
      apply first_occurrence in Hs'.
      * apply (f_equal (@rev ascii)) in Hs'. rewrite !rev_involutive in Hs'.
        by rewrite Hs'.
      * by rewrite elem_of_rev.
      * by rewrite elem_of_rev.
  - split; [eauto |]. split; [done |].
    intros (stem & ext & Hs & _). exfalso.
    assert (contains "." filename = true); [|congruence].
    apply contains_occurs. rewrite Hs. by exists stem, ext.
Qed.

(** ** The two passes of the general information *)

Lemma first_pass_line_eq found_map raw :
  first_pass_line found_map raw =
    if has_colon raw
    then assign_first target_fields_order (line_key raw) (line_value raw) found_map
    else found_map.
Proof.
  unfold first_pass_line, has_colon, line_key, line_value.
  destruct (nonempty (strip raw)); [|done].
  destruct (contains ":" (strip raw)); [|done]. cbn [negb orb andb fst snd].
  by destruct (split1 ":" (strip raw)).
Qed.

Lemma assign_first_keeps targets lkey value found_map k v :
  found_map !! k = Some v ->
  assign_first targets lkey value found_map !! k = Some v.
Proof.
  intros Hk. induction targets as [|original targets IH]; [done |]. simpl.
  destruct (startswith lkey (lower original)); [|done]. simpl.
  destruct (bool_decide_reflect (found_map !! original = None)) as [Hn | Hn]; [|done].
  rewrite lookup_insert_ne; [done |]. intros ->. congruence.
Qed.

Lemma first_pass_line_keeps found_map raw k v :
  found_map !! k = Some v -> first_pass_line found_map raw !! k = Some v.
Proof.
  intros Hk. rewrite first_pass_line_eq. destruct (has_colon raw); [|done].
  by apply assign_first_keeps.
Qed.

Lemma first_pass_keeps lines : forall found_map k v,
  found_map !! k = Some v -> foldl first_pass_line found_map lines !! k = Some v.
Proof.
  induction lines as [|raw lines IH]; intros found_map k v Hk; [done |].
  simpl. by apply IH, first_pass_line_keeps.
Qed.

Lemma second_pass_label_keeps full_text found_map entry k v :
  found_map !! k = Some v -> v <> "" ->
  second_pass_label full_text found_map entry !! k = Some v.
Proof.
  intros Hk Hv. destruct entry as [label regex]. unfold second_pass_label.
  destruct (decide (label = k)) as [-> | Hne].
  - rewrite Hk. simpl. by destruct v.
  - destruct (nonempty _); [done |].
    destruct (search regex full_text); [|done]. by rewrite lookup_insert_ne.
Qed.

Lemma second_pass_keeps full_text entries : forall found_map k v,
  found_map !! k = Some v -> v <> "" ->
  foldl (second_pass_label full_text) found_map entries !! k = Some v.
Proof.
  induction entries as [|entry entries IH]; intros found_map k v Hk Hv; [done |].
  simpl. by apply IH; [apply second_pass_label_keeps |].
Qed.

(** Only the lines whose key begins with the label give it a value. *)
Lemma assign_first_None targets lkey value found_map k :
  found_map !! k = None -> startswith lkey (lower k) = false ->
  assign_first targets lkey value found_map !! k = None.
Proof.
  intros Hk Hs. induction targets as [|original targets IH]; [done |]. simpl.
  destruct (startswith lkey (lower original)) eqn:Ho; [|done]. simpl.
  destruct (bool_decide (found_map !! original = None)); [|done].
  rewrite lookup_insert_ne; [done |]. intros ->. congruence.
Qed.

Lemma first_pass_None pre label : forall found_map,
  found_map !! label = None ->
  Forall (fun raw => labelled_line label raw = false) pre ->
  foldl first_pass_line found_map pre !! label = None.
Proof.
  induction pre as [|raw pre IH]; intros found_map Hn Hpre; [done |].
  apply Forall_cons in Hpre as [Hraw Hpre]. simpl. apply IH; [|done].
  rewrite first_pass_line_eq. unfold labelled_line in Hraw.
  destruct (has_colon raw); [|done]. by apply assign_first_None.
Qed.

(** No label is the beginning of another one. *)
Lemma targets_apart t1 t2 :
  t1 ∈ target_fields_order -> t2 ∈ target_fields_order -> t1 <> t2 ->
  String.prefix (lower t1) (lower t2) = false.
Proof.
  unfold target_fields_order. intros H1 H2.
  repeat (apply elem_of_cons in H1 as [-> | H1]); [..| by apply elem_of_nil in H1];
    repeat (apply elem_of_cons in H2 as [-> | H2]);
    try (by apply elem_of_nil in H2); intros Hne; try done; reflexivity.
Qed.

Lemma assign_first_Some targets lkey value found_map label :
  label ∈ targets ->
  (forall t, t ∈ targets -> t <> label -> startswith lkey (lower t) = false) ->
  startswith lkey (lower label) = true -> found_map !! label = None ->
  assign_first targets lkey value found_map !! label = Some value.
Proof.
  intros Hin Hother Hs Hn. induction targets as [|original targets IH].
  { by apply elem_of_nil in Hin. }
  simpl. destruct (decide (original = label)) as [-> | Hne].
  - rewrite Hs, Hn. simpl. apply lookup_insert_eq.
  - rewrite (Hother original) by (done || left). simpl.
    apply elem_of_cons in Hin as [-> | Hin]; [done |].
    apply IH; [done |]. intros t Ht. apply Hother. by right.
Qed.

Lemma first_pass_line_Some found_map raw label :
  label ∈ target_fields_order -> labelled_line label raw = true ->
  found_map !! label = None ->
  first_pass_line found_map raw !! label = Some (line_value raw).
Proof.
  intros Hin [Hc Hs]%andb_true_iff Hn. rewrite first_pass_line_eq, Hc.
  apply assign_first_Some; [done | | done | done].
  intros t Ht Hne. destruct (startswith (line_key raw) (lower t)) eqn:Hst; [|done].
  unfold startswith in *.
  destruct (prefix_compare _ _ _ Hs Hst) as [H | H];
    rewrite targets_apart in H; done.
Qed.

(** X2: for a label of [target_fields_order], the first line whose key (the
    text before its first colon) begins with the label, up to case, gives
    the label its value (the stripped text after the colon), provided the
    value is not empty: no later line and no fall-back pattern changes it. *)
Theorem first_labelled_line_gives_the_value (label raw : string)
    (pre post : list string) :
  label ∈ target_fields_order ->
  Forall (fun raw => labelled_line label raw = false) pre ->
  labelled_line label raw = true ->
  line_value raw <> "" ->
  scan_fields (pre ++ raw :: post) !! label = Some (line_value raw).
Proof.
  intros Hin Hpre Hraw Hv. unfold scan_fields. cbv zeta.
  apply second_pass_keeps; [|done].
  rewrite foldl_app. simpl. apply first_pass_keeps.
  apply first_pass_line_Some; [done | done |].
  by apply first_pass_None.
Qed.

Lemma first_labelled_line_gives_the_value_witness :
  scan_fields (["Marksheet"; "Name : A"] ++
               "RollNo. : 2100 (Regular) " :: ["RollNo : 456"]) !! "RollNo" =
    Some (line_value "RollNo. : 2100 (Regular) ").
Proof.
  apply first_labelled_line_gives_the_value.
  - unfold target_fields_order. repeat constructor.
  - repeat constructor.
  - vm_compute. reflexivity.
  - vm_compute. discriminate.
Defined.

Lemma assign_first_ok targets lkey value found_map :
  targets ⊆ target_fields_order -> strip value = value ->
  found_map_ok found_map -> found_map_ok (assign_first targets lkey value found_map).
Proof.
  intros Hsub Hv Hok. induction targets as [|original targets IH]; [done |].
  simpl. destruct (_ && _).
  - intros label v. destruct (decide (original = label)) as [-> | Hne].
    + rewrite lookup_insert_eq. intros [= <-]. split; [|done]. apply Hsub. left.
    + rewrite lookup_insert_ne by done. apply Hok.
  - apply IH. intros t Ht. apply Hsub. by right.
Qed.

Lemma first_pass_line_ok found_map raw :
  found_map_ok found_map -> found_map_ok (first_pass_line found_map raw).
Proof.
  intros Hok. rewrite first_pass_line_eq. destruct (has_colon raw); [|done].
  apply assign_first_ok; [done | apply strip_idem | done].
Qed.

Lemma second_pass_label_ok full_text found_map entry :
  entry.1 ∈ target_fields_order ->
  found_map_ok found_map -> found_map_ok (second_pass_label full_text found_map entry).
Proof.
  destruct entry as [label regex]. intros Hin Hok. unfold second_pass_label.
  destruct (nonempty _); [done |]. destruct (search regex full_text); [|done].
  intros k v. destruct (decide (label = k)) as [-> | Hne].
  - rewrite lookup_insert_eq. intros [= <-]. split; [done | apply strip_idem].
  - rewrite lookup_insert_ne by done. apply Hok.
Qed.

(** X3: [found_map], after the two passes, holds labels of
    [target_fields_order] only, and every value is stripped: it has no white
    space at its ends. *)
Theorem found_values_are_stripped (all_lines : list string) :
  found_map_ok (scan_fields all_lines).
Proof.
  unfold scan_fields. cbv zeta.
  assert (H1 : found_map_ok (foldl first_pass_line ∅ all_lines)).
  { assert (H0 : found_map_ok ∅) by (intros ? ?; by rewrite lookup_empty).
    revert H0. generalize (∅ : gmap string string).
    induction all_lines as [|raw lines IH]; intros fm Hfm; [done |].
    simpl. by apply IH, first_pass_line_ok. }
  revert H1. generalize (foldl first_pass_line ∅ all_lines).
  assert (Hp : Forall (fun entry => entry.1 ∈ target_fields_order) patterns).
  { unfold patterns, target_fields_order. repeat constructor. }
  induction Hp as [|entry entries He _ IH]; intros fm Hfm; [done |].
  simpl. by apply IH, second_pass_label_ok.
Qed.

(** ** The entries of the general information *)

Lemma span_digit_prefix s : span is_digit None s = length (digit_prefix s).
Proof.
  induction s as [|c s IH]; [done |]. simpl. destruct (is_digit c); [|done].
  simpl. by rewrite IH.
Qed.

Lemma take_digit_prefix s : take (length (digit_prefix s)) s = digit_prefix s.
Proof.
  induction s as [|c s IH]; [done |]. simpl. destruct (is_digit c); [|done].
  simpl. by rewrite IH.
Qed.

Lemma head_counts_greedy lo n : lo <= n -> head (counts true lo n) = Some n.
Proof.
  intros Hle. unfold counts. replace (S n - lo) with (S (n - lo)) by lia.
  rewrite seq_S, rev_app_distr. simpl. f_equal. lia.
Qed.

Lemma match_leading_digits (roll_val : string) :
  match match_ leading_digits roll_val with
  | Some m_roll => of_list (m_text m_roll)
  | None => roll_val
  end = shown_roll_number roll_val.
Proof.
  unfold match_, match_at, leading_digits, digits, plus, shown_roll_number.
  cbn [run]. rewrite span_digit_prefix.
  fold (to_list roll_val).
  destruct (digit_prefix (to_list roll_val)) as [|c d] eqn:Hd.
  - simpl. done.
  - rewrite <- Hd.
    pose proof (head_counts_greedy 1 (length (digit_prefix (to_list roll_val))))
      as Hh.
    destruct (counts true 1 (length (digit_prefix (to_list roll_val))))
      as [|k ks]; simpl in Hh.
    { discriminate Hh. rewrite Hd. simpl. lia. }
    injection Hh as ->; [| rewrite Hd; simpl; lia].
    simpl. by rewrite take_digit_prefix.
Qed.

(** X4: [general_info] has the entry [("RollNo", value)] exactly when
    [value] is not empty and is the found roll number cut to its leading
    digits; a found roll number that does not begin with a digit is shown
    as it is. *)
Theorem roll_number_keeps_leading_digits (found_map : gmap string string)
    (value : string) :
  In ("RollNo", value) (build_general_info found_map) <->
  value = shown_roll_number (get found_map "RollNo") /\ value <> "".
Proof.
  unfold build_general_info. cbv zeta. rewrite match_leading_digits.
  rewrite !in_add. simpl. split.
  - intros H. repeat destruct H as [H | H]; try done;
      destruct H as [[=] Hv]; subst; try done.
    split; [done |]. by destruct Hv.
  - intros [-> Hv]. do 8 left. right. auto.
Qed.

(** The name, cut at the word ["Hindi"], does not have the word. *)
Lemma cut_name_no_hindi name_val l r :
  find "Hindi" name_val = Some (l, r) ->
  contains "Hindi" (rstrip_colon (strip l)) = false.
Proof.
  intros [_ Hno]%find_first; [|done].
  destruct (contains "Hindi" _) eqn:Hc; [|done]. exfalso. apply Hno.
  apply contains_occurs in Hc.
  destruct (strip_part l) as (a & b & ->).
  destruct (rstrip_colon_part (strip l)) as (b' & ->).
  rewrite <- app_assoc. by apply occurs_part.
Qed.

(** X5: the value of the entry ["Name"] of [general_info] never contains
    the word ["Hindi"]. *)
Theorem name_entry_has_no_hindi (found_map : gmap string string) (value : string) :
  In ("Name", value) (build_general_info found_map) ->
  contains "Hindi" value = false.
Proof.
  unfold build_general_info. cbv zeta. rewrite !in_add. simpl.
  intros H. repeat destruct H as [H | H]; try done;
    destruct H as [[=] Hv]; subst; try done.
  destruct (contains "Hindi" (get found_map "Name")) eqn:Hc; [|done].
  unfold split1. unfold contains in Hc.
  destruct (find "Hindi" (get found_map "Name")) as [[l r]|] eqn:Hf; [|done].
  simpl. by eapply cut_name_no_hindi.
Qed.

Lemma name_entry_has_no_hindi_witness :
  contains "Hindi" "Ram Kumar" = false.
Proof.
  apply (name_entry_has_no_hindi (<["Name" := "Ram Kumar Hindi Name : x"]> ∅)).
  vm_compute. auto.
Defined.

Lemma add_labels label value always general_info labels :
  sublist (general_info.*1) labels ->
  sublist ((add label value always general_info).*1) (labels ++ [label]).
Proof.
  intros H. unfold add. destruct (always || nonempty value).
  - rewrite fmap_app. apply sublist_app; [done |]. simpl. reflexivity.
  - rewrite <- (app_nil_r (general_info.*1)). apply sublist_app; [done |].
    apply sublist_nil_l.
Qed.

Lemma build_general_info_labels found_map :
  sublist ((build_general_info found_map).*1) general_info_labels.
Proof.
  unfold build_general_info. cbv zeta.
  change general_info_labels with
    (((((((((((([] ++ ["Institute Code & Name"]) ++ ["Course Code & Name"]) ++
      ["Branch Code & Name"]) ++ ["RollNo"]) ++ ["EnrollmentNo"]) ++ ["Name"]) ++
      ["Hindi Name"]) ++ ["Gender"]) ++ ["Semester"]) ++ ["Even/Odd"]) ++
      ["Total Marks Obt. :"]) ++ ["SGPA :"]).
  repeat apply add_labels. constructor.
Qed.

(** X6: the labels of [general_info] come in the fixed order of the calls of
    [add], each at most once. *)
Theorem general_info_labels_in_order (pages : list string) :
  exists general_info blocks,
    extract_marksheet_blocks pages = Some (general_info, blocks) /\
    sublist (general_info.*1) general_info_labels.
Proof.
  destruct extract_inv with (R := fun _ : row => True)
    (Q := fun _ : gmap string string => True)
    (good_block := fun _ : block => True) (pages := pages)
    as (g & b & He & -> & _); auto.
  eexists _, b. split; [exact He |]. apply build_general_info_labels.
Qed.

(** ** Pages *)

Lemma scan_pages_concat pages : forall blocks,
  scan_pages (splitlines <$> pages) blocks =
    Some (blocks ++ concat (page_blocks <$> pages)).
Proof.
  induction pages as [|text pages IH]; intros blocks.
  - simpl. by rewrite app_nil_r.
  - cbn [fmap list_fmap scan_pages concat]. rewrite scan_page_run.
    cbn [mbind option_bind]. rewrite IH. f_equal.
    rewrite <- (app_nil_r blocks) at 1. rewrite page_run_app.
    unfold page_blocks. by rewrite <- app_assoc.
Qed.

(** X7: the blocks of a document are the blocks of its pages, each page
    scanned by itself, in the order of the pages: no block goes across a
    page boundary. *)
Theorem blocks_are_found_page_by_page (pages : list string) :
  snd <$> extract_marksheet_blocks pages = Some (concat (page_blocks <$> pages)).
Proof.
  unfold extract_marksheet_blocks. rewrite scan_pages_concat. reflexivity.
Qed.

Lemma page_run_no_semester lines cs blocks :
  Forall (fun raw => found re_semester (strip raw) = false) lines ->
  page_run lines cs blocks = blocks.
Proof.
  intros H. rewrite <- (app_nil_r lines). rewrite page_run_skip by done.
  apply page_run_nil.
Qed.

(** X8: a document in which no line matches [re_semester] has no block,
    whatever table headers and rows it has. *)
Theorem no_semester_line_no_block (pages : list string) :
  Forall (fun text =>
    Forall (fun raw => found re_semester (strip raw) = false) (splitlines text))
    pages ->
  snd <$> extract_marksheet_blocks pages = Some [].
Proof.
  intros H. unfold extract_marksheet_blocks. rewrite scan_pages_concat.
  simpl. f_equal.
  induction H as [|text pages Ht _ IH]; [done |].
  cbn [fmap list_fmap concat]. rewrite IH.
  unfold page_blocks. by rewrite page_run_no_semester.
Qed.

Lemma no_semester_line_no_block_witness :
  snd <$> extract_marksheet_blocks
    ["Code Name Type Internal External Back Paper Grade" +:+ String "010"
     "CSE101 Maths Theory 40 50 -- A"] = Some [].
Proof.
  apply no_semester_line_no_block.
  constructor; [| constructor].
  replace (splitlines _) with
    ["Code Name Type Internal External Back Paper Grade";
     "CSE101 Maths Theory 40 50 -- A"] by (vm_compute; reflexivity).
  repeat constructor; vm_compute; reflexivity.
Defined.

(** X9: a ["Semester :"] line that is followed by no table header before the
    end of the page, or before the next ["Semester :"] line, gives no block:
    its summary is dropped and the scan goes on at the next ["Semester :"]
    line. *)
Theorem semester_without_header_gives_no_block sem pre s rest blocks :
  found re_semester (strip sem) = true ->
  Forall summary_line pre ->
  found re_semester (strip s) = true ->
  scan_page (sem :: pre) blocks = Some blocks /\
  scan_page (sem :: pre ++ s :: rest) blocks = scan_page (s :: rest) blocks.
Proof.
  intros Hsem Hpre Hs. rewrite !scan_page_run.
  pose proof Hsem as [m Hm]%found_true.
  split; f_equal; rewrite page_run_cons, Hm.
  - rewrite <- (app_nil_r pre), summary_run_prefix by done.
    rewrite summary_run_nil. apply page_run_nil.
  - rewrite summary_run_prefix by done.
    rewrite summary_run_cons. cbv zeta.
    rewrite (semester_not_header _ Hs), Hs. apply page_run_summary.
Qed.

Lemma semester_without_header_gives_no_block_witness :
  scan_page ["Semester : 1"; "SGPA : 7.5"] [] = Some [] /\
  scan_page ["Semester : 1"; "SGPA : 7.5"; "Semester : 2"] [] =
    scan_page ["Semester : 2"] [].
Proof.
  apply (semester_without_header_gives_no_block
           "Semester : 1" ["SGPA : 7.5"] "Semester : 2" [] []).
  - vm_compute. reflexivity.
  - repeat constructor; vm_compute; reflexivity.
  - vm_compute. reflexivity.
Defined.

(** The lines that the summary loop leaves are the end of its lines, and
    it adds at most one block, which needs an open summary. *)
Lemma summary_run_blocks lines : forall cs blocks,
  exists consumed,
    lines = consumed ++ (summary_run lines cs blocks).1.1 /\
    length (summary_run lines cs blocks).2 <=
      length blocks + (if cs is Some _ then 1 else 0).
Proof.
  induction lines as [lines IH] using length_ind. intros cs blocks.
  destruct lines as [|raw rest].
  { exists []. rewrite summary_run_nil. simpl. split; [done | lia]. }
  rewrite summary_run_cons. cbv zeta.
  destruct (found header_regex (strip raw)).
  - destruct (collect_rows_consumed rest) as (consumed & Heq & _).
    pose proof (collect_rows_length rest) as Hlen.
    destruct (collect_rows rest) as [lines' table_rows]. simpl in Heq, Hlen.
    assert (Hf : forall s, length (finalize_block s table_rows blocks) <=
                           length blocks + 1).
    { intros s. unfold finalize_block. destruct table_rows; [lia |].
      rewrite length_app. simpl. lia. }
    destruct cs as [s|].
    + destruct (IH lines' ltac:(simpl; lia) None
                  (finalize_block s table_rows blocks)) as (c' & Hc' & Hl).
      exists (raw :: consumed ++ c'). split.
      * rewrite <- app_comm_cons, <- app_assoc, <- Hc', <- Heq. done.
      * specialize (Hf s). lia.
    + destruct (IH lines' ltac:(simpl; lia) None blocks) as (c' & Hc' & Hl).
      exists (raw :: consumed ++ c'). split.
      * rewrite <- app_comm_cons, <- app_assoc, <- Hc', <- Heq. done.
      * lia.
  - destruct (found re_semester (strip raw)).
    + exists []. simpl. split; [done |]. destruct cs; simpl; lia.
    + destruct (IH rest ltac:(simpl; lia) (capture_summary (strip raw) <$> cs)
                  blocks) as (c' & Hc' & Hl).
      exists (raw :: c'). split.
      * rewrite <- app_comm_cons, <- Hc'. done.
      * destruct cs; simpl in *; lia.
Qed.

Lemma semester_lines_app l1 l2 :
  semester_lines (l1 ++ l2) = semester_lines l1 + semester_lines l2.
Proof. unfold semester_lines. by rewrite filter_app, length_app. Qed.

Lemma semester_lines_cons raw rest :
  semester_lines (raw :: rest) =
    (if found re_semester (strip raw) then 1 else 0) + semester_lines rest.
Proof.
  unfold semester_lines. rewrite filter_cons.
  destruct (found re_semester (strip raw)); done.
Qed.

Lemma page_run_count lines : forall cs blocks,
  length (page_run lines cs blocks) <= length blocks + semester_lines lines.
Proof.
  induction lines as [lines IH] using length_ind. intros cs blocks.
  destruct lines as [|raw rest]; [rewrite page_run_nil; lia |].
  rewrite page_run_cons, semester_lines_cons. unfold found.
  destruct (search re_semester (strip raw)) as [m|] eqn:Hm.
  - destruct (summary_run_blocks rest (Some (fresh_summary (group1 m))) blocks)
      as (consumed & Heq & Hl).
    pose proof (summary_run_length rest (Some (fresh_summary (group1 m))) blocks)
      as Hlen.
    destruct (summary_run rest _ blocks) as [[l c] b]. simpl in *.
    specialize (IH l ltac:(simpl; lia) c b).
    assert (semester_lines l <= semester_lines rest).
    { rewrite Heq, semester_lines_app. lia. }
    lia.
  - specialize (IH rest ltac:(simpl; lia) cs blocks). lia.
Qed.

(** X10: there are at most as many blocks as lines that match
    [re_semester]. *)
Theorem at_most_one_block_for_each_semester_line (pages : list string) :
  exists general_info blocks,
    extract_marksheet_blocks pages = Some (general_info, blocks) /\
    length blocks <= semester_lines (concat (splitlines <$> pages)).
Proof.
  unfold extract_marksheet_blocks. rewrite scan_pages_concat.
  eexists _, _. split; [reflexivity |]. simpl.
  induction pages as [|text pages IH]; [done |].
  cbn [fmap list_fmap concat]. rewrite length_app, semester_lines_app.
  pose proof (page_run_count (splitlines text) None []). unfold page_blocks at 1.
  simpl in *. lia.
Qed.

(** ** Lines that are skipped *)

Lemma heading_match line :
  found heading_result_regex line = true ->
  exists x rest, to_list line = x :: rest /\ ci "M" x = true.
Proof.
  unfold found. destruct (search heading_result_regex line) as [m|] eqn:H; [|done].
  intros _. revert H.
  unfold heading_result_regex. cbn [seqs]. rewrite search_bol. unfold match_.
  intros H. apply match_at_Some in H as (s' & _ & Hs & Hd).
  cbn [den] in Hd.
  destruct Hd as (m1 & m2 & c1 & c2 & Hm & _ & (_ & -> & _) & Hd).
  destruct Hd as (m3 & m4 & c3 & c4 & -> & _ & Hd & _).
  rewrite Hm in Hs. simpl in Hs.
  assert (exists x m', m3 = x :: m' /\ ci "M" x = true) as (x & m' & -> & Hx).
  { destruct Hd as [Hd | Hd].
    - apply den_recognises with (P := ci_eq (to_list "Minor")) in Hd as [Hd _];
        [| apply recognises_lit].
      apply ci_eq_cons_inv in Hd as (x & m' & -> & Hx & _). eauto.
    - apply den_recognises with (P := ci_eq (to_list "Major")) in Hd as [Hd _];
        [| apply recognises_lit].
      apply ci_eq_cons_inv in Hd as (x & m' & -> & Hx & _). eauto. }
  unfold to_list. rewrite Hs. simpl. eauto.
Qed.

Lemma header_not_stop line :
  found header_regex line = true -> is_stop line = false.
Proof.
  intros Hh. unfold is_stop. rewrite (header_not_semester _ Hh). simpl.
  destruct (found heading_result_regex line) eqn:Hr; [|done].
  apply header_match in Hh as (w & x & rest & Hl & Hw & Hx).
  apply heading_match in Hr as (x' & rest' & Hl' & Hx').
  rewrite Hl in Hl'.
  apply (first_nonspace w [] rest rest' x x') in Hl' as (_ & -> & _); auto.
  - apply ci_lower in Hx, Hx'. rewrite Hx in Hx'. discriminate.
  - constructor.
  - by apply ci_classes in Hx as (-> & _).
  - by apply ci_classes in Hx' as (-> & _).
Qed.

Lemma nonempty_false (s : string) : nonempty s = false <-> s = "".
Proof. destruct s; split; done. Qed.

Lemma blank_not_stop raw : blank raw = true -> is_stop (strip raw) = false.
Proof.
  unfold blank. intros H. apply negb_true_iff, nonempty_false in H. rewrite H.
  vm_compute. reflexivity.
Qed.

Lemma skipped_not_stop raw :
  kept_in_table raw = false -> is_stop (strip raw) = false.
Proof.
  unfold kept_in_table. intros [H | H]%negb_false_iff%orb_true_iff.
  - by apply blank_not_stop.
  - by apply header_not_stop.
Qed.

Lemma rows_loop_filter (keep : string -> bool) lines :
  (forall raw, keep raw = false -> kept_in_table raw = false) ->
  forall buffer table_rows,
  rows_loop (filter keep lines) buffer table_rows =
    let '(lines', buffer', table_rows') := rows_loop lines buffer table_rows in
    (filter keep lines', buffer', table_rows').
Proof.
  intros Hkeep.
  induction lines as [|raw rest IH]; intros buffer table_rows; [done |].
  rewrite filter_cons. destruct (decide (keep raw)) as [Hk | Hk].
  - rewrite !rows_loop_cons. cbv zeta.
    destruct (is_stop (strip raw)).
    { rewrite filter_cons, decide_True by done. done. }
    destruct (found header_regex (strip raw)); [apply IH |].
    destruct (negb (nonempty (strip raw))); [apply IH |].
    destruct (parse_row_to_columns (combine buffer (strip raw))); [apply IH |].
    destruct (nonempty buffer && found code_start_regex (strip raw));
      [destruct (parse_row_to_columns buffer) |]; apply IH.
  - apply Is_true_false, Hkeep in Hk.
    rewrite IH, rows_loop_cons. cbv zeta.
    rewrite (skipped_not_stop _ Hk).
    unfold kept_in_table, blank, repeats_header in Hk.
    apply negb_false_iff in Hk.
    destruct (found header_regex (strip raw)); [done |].
    rewrite orb_false_r in Hk. rewrite Hk. done.
Qed.

Lemma collect_rows_filter (keep : string -> bool) lines :
  (forall raw, keep raw = false -> kept_in_table raw = false) ->
  collect_rows (filter keep lines) =
    (filter keep (collect_rows lines).1, (collect_rows lines).2).
Proof.
  intros Hkeep. unfold collect_rows. rewrite rows_loop_filter by done.
  by destruct (rows_loop lines "" []) as [[l b] r].
Qed.

Lemma not_blank_kept raw : not_blank raw = false -> kept_in_table raw = false.
Proof.
  unfold not_blank, kept_in_table. intros ->%negb_false_iff. done.
Qed.

Lemma capture_summary_empty s : capture_summary "" s = s.
Proof.
  unfold capture_summary, capture_field.
  replace (search re_even_odd "") with (@None match_obj) by (vm_compute; reflexivity).
  replace (search re_total_marks "") with (@None match_obj) by (vm_compute; reflexivity).
  replace (search re_result_status "") with (@None match_obj) by (vm_compute; reflexivity).
  replace (search re_sgpa "") with (@None match_obj) by (vm_compute; reflexivity).
  reflexivity.
Qed.

Lemma blank_strip raw : not_blank raw = false -> strip raw = "".
Proof.
  unfold not_blank, blank.
  by intros H%negb_false_iff%negb_true_iff%nonempty_false.
Qed.

Lemma summary_run_not_blank lines : forall cs blocks,
  summary_run (filter not_blank lines) cs blocks =
    let '(lines', cs', blocks') := summary_run lines cs blocks in
    (filter not_blank lines', cs', blocks').
Proof.
  induction lines as [lines IH] using length_ind. intros cs blocks.
  destruct lines as [|raw rest]; [done |].
  rewrite filter_cons. destruct (decide (not_blank raw)) as [Hk | Hk].
  - rewrite !summary_run_cons. cbv zeta.
    destruct (found header_regex (strip raw)).
    + rewrite collect_rows_filter by apply not_blank_kept.
      pose proof (collect_rows_length rest) as Hlen.
      destruct (collect_rows rest) as [lines' table_rows]. simpl in *.
      destruct cs; apply IH; simpl; lia.
    + destruct (found re_semester (strip raw)).
      * rewrite filter_cons, decide_True by done. done.
      * apply IH. simpl. lia.
  - apply Is_true_false in Hk. rewrite (summary_run_cons raw). cbv zeta.
    rewrite (blank_strip _ Hk).
    replace (found header_regex "") with false by (vm_compute; reflexivity).
    replace (found re_semester "") with false by (vm_compute; reflexivity).
    replace (capture_summary "" <$> cs) with cs
      by (destruct cs; simpl; by rewrite ?capture_summary_empty).
    apply IH. simpl. lia.
Qed.

Lemma page_run_not_blank lines : forall cs blocks,
  page_run (filter not_blank lines) cs blocks = page_run lines cs blocks.
Proof.
  induction lines as [lines IH] using length_ind. intros cs blocks.
  destruct lines as [|raw rest]; [done |].
  rewrite filter_cons. destruct (decide (not_blank raw)) as [Hk | Hk].
  - rewrite !page_run_cons.
    destruct (search re_semester (strip raw)) as [m|]; [|apply IH; simpl; lia].
    rewrite summary_run_not_blank.
    pose proof (summary_run_length rest (Some (fresh_summary (group1 m))) blocks)
      as Hlen.
    destruct (summary_run rest _ blocks) as [[l c] b]. simpl in Hlen.
    apply IH. simpl. lia.
  - apply Is_true_false in Hk. rewrite (page_run_cons raw).
    rewrite (blank_strip _ Hk).
    replace (search re_semester "") with (@None match_obj)
      by (vm_compute; reflexivity).
    apply IH. simpl. lia.
Qed.

(** X11: blank lines do not matter to the blocks of a page: the page without
    its blank lines gives the same blocks. *)
Theorem blank_lines_do_not_change_blocks (lines : list string) (blocks : list block) :
  scan_page (filter not_blank lines) blocks = scan_page lines blocks.
Proof. rewrite !scan_page_run. f_equal. apply page_run_not_blank. Qed.

(** ** After a result heading *)

Lemma heading_not_semester line :
  found heading_result_regex line = true -> found re_semester line = false.
Proof.
  intros (x & rest & Hl & Hx)%heading_match.
  unfold found. destruct (search re_semester line) as [m|] eqn:Hm; [|done].
  apply semester_match in Hm as (w' & x' & rest' & d & Hl' & Hw' & Hx' & _).
  rewrite Hl in Hl'.
  apply (first_nonspace [] w' rest rest' x x') in Hl' as (_ & -> & _); auto.
  - apply ci_lower in Hx, Hx'. rewrite Hx in Hx'. discriminate.
  - constructor.
  - by apply ci_classes in Hx as (-> & _).
  - by apply ci_classes in Hx' as (-> & _).
Qed.

(** X12: after a table that ends at a Minor or Major Result heading, the
    lines of the page give no block as long as no line matches
    [re_semester]: a table header and rows under such a heading are
    dropped. *)
Theorem lines_after_a_result_heading_give_no_block sem pre hdr tbl s rest blocks :
  found re_semester (strip sem) = true ->
  Forall summary_line pre ->
  found header_regex (strip hdr) = true ->
  Forall (fun raw => is_stop (strip raw) = false) tbl ->
  found heading_result_regex (strip s) = true ->
  Forall (fun raw => found re_semester (strip raw) = false) rest ->
  scan_page (sem :: pre ++ hdr :: tbl ++ s :: rest) blocks =
  scan_page (sem :: pre ++ hdr :: tbl) blocks.
Proof.
  intros Hsem Hpre Hh Htbl Hs Hrest. rewrite !scan_page_run. f_equal.
  rewrite !page_run_block by done.
  assert (Hstop : is_stop (strip s) = true).
  { unfold is_stop. rewrite Hs. apply orb_true_r. }
  rewrite collect_rows_app_stop by done. cbn [fst snd].
  rewrite collect_rows_no_stop by done. simpl app.
  rewrite page_run_nil. apply page_run_no_semester.
  constructor; [by apply heading_not_semester | done].
Qed.

Lemma lines_after_a_result_heading_give_no_block_witness :
  scan_page
    ("Semester : 1" :: [] ++
     "Code Name Type Internal External Back Paper Grade" ::
     ["CSE101 Maths Theory 40 50 -- A"] ++
     "Major Result" ::
     ["Code Name Type Internal External Back Paper Grade";
      "CSE201 Algo Lab 30 40 -- B"]) [] =
  scan_page
    ("Semester : 1" :: [] ++
     "Code Name Type Internal External Back Paper Grade" ::
     ["CSE101 Maths Theory 40 50 -- A"]) [].
Proof.
  apply lines_after_a_result_heading_give_no_block.
  - vm_compute. reflexivity.
  - constructor.
  - vm_compute. reflexivity.
  - repeat constructor.
  - vm_compute. reflexivity.
  - repeat constructor.
Defined.

(** ** Table headers *)

Lemma spaced_cons w w' rest :
  spaced (w :: w' :: rest) = Seq (lit w) (Seq ws1 (spaced (w' :: rest))).
Proof. reflexivity. Qed.

Lemma den_spaced wds : forall prev m s' c,
  wds <> [] -> Forall (fun w => token (to_list w)) wds ->
  den (spaced wds) prev m s' c ->
  starts_with_space (m ++ s') = false /\
  Forall2 (fun w x => ci_eq (to_list w) x) wds (words (m ++ s')).
Proof.
  induction wds as [|w [|w' rest] IH]; intros prev m s' c Hne Htok Hd; [done | |].
  - apply Forall_cons in Htok as [Hw _]. cbn [spaced den] in Hd. den_atoms. subst.
    match goal with H : ci_eq _ ?x |- _ =>
      pose proof (ci_eq_token _ _ H Hw) as Hx; rename H into Hci end.
    rewrite <- !app_assoc.
    match goal with H : spaces ?w0, H' : _ \/ _ |- _ =>
      destruct (space_led_end _ _ H H') as [Hl Hn] end.
    simpl app in *. split; [by apply token_first |].
    rewrite words_token, Hn by done. by repeat constructor.
  - apply Forall_cons in Htok as [Hw Htok]. rewrite spaced_cons in Hd.
    cbn [den] in Hd.
    destruct Hd as (m1 & m2 & c1 & c2 & -> & -> & Hd1 & m3 & m4 & c3 & c4 & -> & -> & Hd3 & Hd4).
    apply (den_recognises _ _ _ _ _ _ (recognises_lit _)) in Hd1 as [Hci ->].
    apply (den_recognises _ _ _ _ _ _ recognises_ws1) in Hd3 as [Hsp ->].
    apply IH in Hd4 as [_ Hrest]; [| done | done].
    pose proof (ci_eq_token _ _ Hci Hw) as Hx.
    rewrite <- !app_assoc. split; [by apply token_first |].
    rewrite words_token; [| done | by apply space_led_spaces1].
    rewrite words_spaces by apply Hsp. by constructor.
Qed.

Lemma words_uncons t : forall x xs,
  words t = x :: xs -> starts_with_space t = false ->
  exists rest, t = x ++ rest /\ space_led rest /\ words rest = xs.
Proof.
  induction t as [|c t IH]; intros x xs Hw Hc; [done |].
  simpl in Hc. destruct t as [|d t].
  - simpl in Hw. rewrite Hc in Hw. injection Hw as <- <-. by exists [].
  - rewrite words_cons2, Hc in Hw. destruct (is_space d) eqn:Hd.
    + injection Hw as <- <-. exists (d :: t). done.
    + destruct (words (d :: t)) as [|t0 ts] eqn:Hwt.
      { exfalso. by apply (words_nonspace (d :: t)). }
      injection Hw as <- <-.
      destruct (IH t0 ts eq_refl Hd) as (rest & Heq & Hl & Hr).
      exists rest. rewrite Heq at 1. done.
Qed.

Lemma words_nil_spaces t : words t = [] -> spaces t.
Proof.
  induction t as [|c t IH]; [constructor |]. intros Hw.
  destruct (is_space c) eqn:Hc.
  - constructor; [done |]. apply IH. simpl in Hw. by rewrite Hc in Hw.
  - exfalso. by apply (words_nonspace (c :: t)).
Qed.

Lemma spaced_den wds : forall prev t,
  wds <> [] -> Forall2 (fun w x => ci_eq (to_list w) x) wds (words t) ->
  starts_with_space t = false ->
  den (spaced wds) prev t [] [].
Proof.
  induction wds as [|w [|w' rest] IH]; intros prev t Hne Hw Hs; [done | |].
  - inversion Hw as [|? x ? xs Hci Hnil Heq1 Heq2]; subst. inversion Hnil; subst.
    symmetry in Heq2.
    destruct (words_uncons _ _ _ Heq2 Hs) as (r & -> & Hl & Hr).
    apply words_nil_spaces in Hr. cbn [spaced den].
    exists x, r, [], []. split; [done |]. split; [done |]. split.
    { apply den_intro with (P := ci_eq (to_list w)); [apply recognises_lit | done]. }
    exists r, [], [], []. split; [by rewrite app_nil_r |]. split; [done |]. split.
    { apply den_intro with (P := spaces); [apply recognises_ws | done]. }
    auto.
  - inversion Hw as [|? x ? xs Hci Hrest Heq1 Heq2]; subst. symmetry in Heq2.
    destruct (words_uncons _ _ _ Heq2 Hs) as (r & -> & Hl & Hr).
    destruct (drop_while_spaces r) as (w0 & Hr0 & Hw0 & Hs0).
    set (r' := drop_while is_space r) in *.
    assert (Hw0' : spaces1 w0).
    { split; [done |]. destruct w0 as [|? ?]; [|simpl; lia]. exfalso.
      simpl in Hr0. subst r'. rewrite <- Hr0 in Hs0.
      destruct r as [|e r]; [| simpl in Hl, Hs0; congruence].
      simpl in Hr. subst xs. inversion Hrest. }
    assert (Hwr : words r' = xs).
    { rewrite <- Hr, Hr0. symmetry. by apply words_spaces. }
    rewrite spaced_cons. cbn [den].
    exists x, r, [], []. split; [done |]. split; [done |]. split.
    { apply den_intro with (P := ci_eq (to_list w)); [apply recognises_lit | done]. }
    exists w0, r', [], []. split; [done |]. split; [done |]. split.
    { apply den_intro with (P := spaces1); [apply recognises_ws1 | done]. }
    apply IH; [done | by rewrite Hwr | done].
Qed.

Lemma header_words_tokens : Forall (fun w => token (to_list w)) header_words.
Proof. unfold header_words. repeat constructor; done. Qed.

(** X13: [header_regex] finds a line exactly when the words of the line are
    Code, Name, Type, Internal, External, Back, Paper and Grade, in this
    order and in upper or lower case letters, whatever the white space
    between and around them. *)
Theorem header_lines (line : string) :
  found header_regex line = true <-> header_text line.
Proof.
  unfold header_text.
  change header_regex with (Seq Bol (Seq ws (spaced header_words))).
  rewrite found_true, search_bol. unfold match_. split.
  - intros [mo Hm]. apply match_at_Some in Hm as (s' & _ & Hs & Hd).
    cbn [den] in Hd.
    destruct Hd as (m1 & m2 & c1 & c2 & Hm1 & _ & (_ & -> & _) &
                    m3 & m4 & c3 & c4 & -> & _ & Hd3 & Hd4).
    apply (den_recognises _ _ _ _ _ _ recognises_ws) in Hd3 as [Hsp _].
    apply den_spaced in Hd4 as [_ Hw]; [| done | apply header_words_tokens].
    fold (to_list line) in Hs. rewrite Hs, Hm1. simpl app.
    rewrite <- app_assoc, words_spaces by done. done.
  - intros Hw.
    destruct (drop_while_spaces (to_list line)) as (w0 & Heq & Hw0 & Hs0).
    set (t := drop_while is_space (to_list line)) in *.
    assert (Hd : den (Seq Bol (Seq ws (spaced header_words))) None (w0 ++ t) [] []).
    { cbn [den]. exists [], (w0 ++ t), [], []. split; [done |]. split; [done |].
      split; [done |]. exists w0, t, [], []. split; [done |]. split; [done |].
      split.
      { apply den_intro with (P := spaces); [apply recognises_ws | done]. }
      apply spaced_den; [done | | done].
      rewrite Heq, words_spaces in Hw by done. done. }
    apply (match_at_is_Some _ 0) in Hd. rewrite app_nil_r, <- Heq in Hd. done.
Qed.

(** ** The values of a summary *)

Lemma den_no_group r : forall prev m s' c,
  no_group r = true -> den r prev m s' c -> c = [].
Proof.
  induction r; intros prev m s' c Hn Hd; simpl in *; try done;
    try (by destruct Hd as (_ & ?)); try (by destruct Hd as (_ & _ & ?)).
  - apply andb_true_iff in Hn as [H1 H2].
    destruct Hd as (m1 & m2 & c1 & c2 & _ & -> & Hd1 & Hd2).
    by rewrite (IHr1 _ _ _ _ H1 Hd1), (IHr2 _ _ _ _ H2 Hd2).
  - apply andb_true_iff in Hn as [H1 H2]. destruct Hd as [Hd | Hd]; eauto.
Qed.

(** A pattern that ends with its only group. *)
Lemma den_last_group pre n v P : forall prev m s' c,
  forallb no_group pre = true -> recognises v P ->
  den (seqs (pre ++ [Grp n v])) prev m s' c ->
  exists g, c = [(n, g)] /\ P g.
Proof.
  induction pre as [|r pre IH]; intros prev m s' c Hpre Hv Hd.
  - simpl app in Hd. cbn [seqs] in Hd. apply (den_grp _ _ P) in Hd as [? ->]; eauto.
  - simpl in Hpre. apply andb_true_iff in Hpre as [Hr Hpre].
    assert (Hs : seqs ((r :: pre) ++ [Grp n v]) = Seq r (seqs (pre ++ [Grp n v]))).
    { simpl. by destruct pre. }
    rewrite Hs in Hd. cbn [den] in Hd.
    destruct Hd as (m1 & m2 & c1 & c2 & _ & -> & Hd1 & Hd2).
    rewrite (den_no_group _ _ _ _ _ Hr Hd1).
    by eapply IH.
Qed.

Lemma search_from_Some r : forall s i prev mo,
  search_from r i prev s = Some mo ->
  exists skipped prev' s',
    s = skipped ++ m_text mo ++ s' /\ den r prev' (m_text mo) s' (m_caps mo).
Proof.
  induction s as [|c s IH]; intros i prev mo; simpl.
  - destruct (match_at r i prev []) as [m|] eqn:Hm; [|done].
    intros [= ->]. apply match_at_Some in Hm as (s' & _ & Hs & Hd).
    exists [], prev, s'. done.
  - destruct (match_at r i prev (c :: s)) as [m|] eqn:Hm.
    + intros [= ->]. apply match_at_Some in Hm as (s' & _ & Hs & Hd).
      exists [], prev, s'. done.
    + intros (skipped & prev' & s' & -> & Hd)%IH.
      exists (c :: skipped), prev', s'. done.
Qed.

Lemma search_last_group pre n v P line mo :
  forallb no_group pre = true -> recognises v P ->
  search (seqs (pre ++ [Grp n v])) line = Some mo ->
  exists g, group n mo = Some (of_list g) /\ P g.
Proof.
  intros Hpre Hv (skipped & prev' & s' & _ & Hd)%search_from_Some.
  eapply den_last_group in Hd as (g & Hc & Hg); [| done | done].
  exists g. split; [|done]. unfold group. rewrite Hc. simpl.
  by rewrite Nat.eqb_refl.
Qed.

Lemma search_group1 pre v P line mo :
  forallb no_group pre = true -> recognises v P ->
  search (seqs (pre ++ [Grp 1 v])) line = Some mo ->
  exists g, group1 mo = of_list g /\ P g.
Proof.
  intros Hpre Hv Hs.
  destruct (search_last_group pre 1 v P line mo Hpre Hv Hs) as (g & Hg & HP).
  exists g. split; [|done]. unfold group1. by rewrite Hg.
Qed.

Lemma dot_only : forall x, ci "." x = true -> x = dot.
Proof.
  assert (H : forall x, implb (ci "." x) (Ascii.eqb x ".") = true) by all_chars.
  intros x Hx. specialize (H x). rewrite Hx in H. by apply Ascii.eqb_eq.
Qed.

Lemma recognises_decimal :
  recognises (Seq (plus is_digit) (opt (Seq (lit ".") (plus is_digit))))
    decimal_text.
Proof.
  eapply recognises_ext;
    [| apply recognises_seq;
       [apply recognises_plus
       | apply recognises_alt;
         [apply recognises_seq; [apply recognises_lit | apply recognises_plus]
         | apply recognises_eps]]].
  intros m. unfold decimal_text, cat, number. split.
  - intros (a & t & -> & Ha & [(d & b & -> & Hd & Hb) | ->]).
    + exists a. split; [done |]. right. exists b. split; [done |].
      simpl in Hd. inversion Hd as [|? x ? d' Hx Hd']; subst.
      inversion Hd'; subst. by rewrite (dot_only _ Hx).
    + exists a. split; [done |]. left. by rewrite app_nil_r.
  - intros (a & Ha & [-> | (b & Hb & ->)]).
    + exists a, []. rewrite app_nil_r. split; [done |]. split; [done |]. by right.
    + exists a, (dot :: b). split; [done |]. split; [done |]. left.
      exists [dot], b. split; [done |]. split; [|done].
      simpl. by repeat constructor.
Qed.

Lemma even_odd_value line mo :
  search re_even_odd line = Some mo ->
  lower (group1 mo) = "even" \/ lower (group1 mo) = "odd".
Proof.
  intros H.
  apply (search_group1
    [lit "Even"; ws; lit "/"; ws; lit "Odd"; ws; lit ":"; ws] _
    (fun g => ci_eq (to_list "Even") g \/ ci_eq (to_list "Odd") g)) in H
    as (g & -> & Hg).
  - unfold lower. rewrite to_list_of_list.
    destruct Hg as [Hg | Hg]; apply ci_eq_lower in Hg; rewrite Hg; auto.
  - vm_compute. reflexivity.
  - apply recognises_alt; apply recognises_lit.
Qed.

Lemma total_marks_value line mo :
  search re_total_marks line = Some mo -> number (to_list (group1 mo)).
Proof.
  intros H.
  apply (search_group1
    [lit "Total"; ws; lit "Marks"; ws; lit "Obt"; Rep true 0 (Some 1) (ci ".");
     ws; lit ":"; ws] _ number) in H as (g & -> & Hg).
  - by rewrite to_list_of_list.
  - vm_compute. reflexivity.
  - apply recognises_plus.
Qed.

Lemma sgpa_value line mo :
  search re_sgpa line = Some mo -> decimal_text (to_list (group1 mo)).
Proof.
  intros H.
  apply (search_group1 [lit "SGPA"; ws; lit ":"; ws] _ decimal_text) in H
    as (g & -> & Hg).
  - by rewrite to_list_of_list.
  - vm_compute. reflexivity.
  - apply recognises_decimal.
Qed.

Lemma fresh_summary_values semester :
  summary_values_ok (fresh_summary semester).
Proof.
  unfold summary_values_ok, fresh_summary.
  repeat split; intros v; rewrite ?lookup_insert_ne by done;
    rewrite lookup_insert; intros [= <-]; auto.
Qed.

Lemma capture_summary_values l2 s :
  summary_values_ok s -> summary_values_ok (capture_summary l2 s).
Proof.
  intros (He & Ht & Hr & Hs). unfold summary_values_ok.
  rewrite (capture_summary_field "Even/Odd" re_even_odd id),
    (capture_summary_field "Total Marks Obt." re_total_marks id),
    (capture_summary_field "Result Status" re_result_status strip),
    (capture_summary_field "SGPA" re_sgpa id)
    by (unfold summary_fields; repeat constructor).
  repeat split.
  - destruct (search re_even_odd l2) as [m|] eqn:Hm; [|done].
    intros v [= <-]. right. by apply even_odd_value in Hm.
  - destruct (search re_total_marks l2) as [m|] eqn:Hm; [|done].
    intros v [= <-]. right. by apply total_marks_value in Hm.
  - destruct (search re_result_status l2) as [m|] eqn:Hm; [|done].
    intros v [= <-]. apply strip_idem.
  - destruct (search re_sgpa l2) as [m|] eqn:Hm; [|done].
    intros v [= <-]. right. by apply sgpa_value in Hm.
Qed.

(** X14: in the summary of every block, Even/Odd is empty or the word Even
    or Odd in some case, Total Marks Obt. is empty or a string of digits,
    SGPA is empty or digits with an optional fraction, and Result Status is
    stripped. *)
Theorem summary_values_are_shaped (pages : list string) :
  exists general_info blocks,
    extract_marksheet_blocks pages = Some (general_info, blocks) /\
    Forall (fun b => summary_values_ok (summary b)) blocks.
Proof.
  destruct extract_inv with (R := fun _ : row => True)
    (Q := summary_values_ok)
    (good_block := fun b => summary_values_ok (summary b)) (pages := pages)
    as (g & b & He & _ & Hb);
    eauto using fresh_summary_values, capture_summary_values.
Qed.

(** ** The row reconstructor *)

Lemma parse_row_empty : parse_row_to_columns "" = None.
Proof. vm_compute. reflexivity. Qed.

Lemma rows_loop_joining lines : forall buffer table_rows,
  parse_row_to_columns buffer = None ->
  rows_loop lines buffer table_rows = rows_by_joining lines buffer table_rows /\
  parse_row_to_columns (rows_loop lines buffer table_rows).1.2 = None.
Proof.
  induction lines as [|raw rest IH]; intros buffer table_rows Hb.
  - split; [reflexivity | exact Hb].
  - rewrite rows_loop_cons. cbv zeta. cbn [rows_by_joining].
    destruct (is_stop (strip raw)); [split; [reflexivity | exact Hb] |].
    destruct (found header_regex (strip raw)); [cbn [orb]; auto |].
    destruct (nonempty (strip raw)); cbn [negb orb]; [| auto].
    destruct (parse_row_to_columns (combine buffer (strip raw))) as [parsed|] eqn:Hp.
    + apply IH, parse_row_empty.
    + rewrite Hb.
      replace (if nonempty buffer && found code_start_regex (strip raw)
               then None else None) with (@None row) by (by destruct (_ && _)).
      apply IH, Hp.
Qed.

(** X15: every row of a table is the parse of the buffer joined with the
    current line.  The buffer never parses by itself, so the branch for a
    line that begins with a new subject code and the flush of the trailing
    buffer never add a row. *)
Theorem rows_come_from_joined_lines (lines : list string) :
  collect_rows lines =
    ((rows_by_joining lines "" []).1.1, (rows_by_joining lines "" []).2) /\
  parse_row_to_columns (rows_by_joining lines "" []).1.2 = None.
Proof.
  destruct (rows_loop_joining lines "" [] parse_row_empty) as [He Hn].
  unfold collect_rows. rewrite He in *.
  destruct (rows_by_joining lines "" []) as [[l b] r]. cbn in *.
  split; [| exact Hn]. unfold flush. rewrite Hn. by destruct (nonempty b).
Qed.

(** X16: in the lines after a table header, blank lines and repeated table
    headers are skipped: without them the row reconstructor gives the same
    rows, and leaves the same lines. *)
Theorem blank_and_header_lines_are_skipped (lines : list string) :
  collect_rows (filter kept_in_table lines) =
    (filter kept_in_table (collect_rows lines).1, (collect_rows lines).2).
Proof. by apply collect_rows_filter. Qed.

Lemma parse_row_starts_with_code raw r :
  parse_row_to_columns raw = Some r -> starts_with_code raw = true.
Proof.
  intros (p & s' & Ht & Hok & Hs' & _)%parse_row_Some.
  unfold starts_with_code. rewrite <- words_row_text, Ht, words_parts by done.
  simpl. apply code_text_shape. apply Hok.
Qed.

Lemma words_combine buffer l3 :
  nonempty buffer = true ->
  words (to_list (combine buffer l3)) =
    words (to_list buffer) ++ words (to_list l3).
Proof.
  intros Hb. unfold combine. rewrite Hb, words_strip, !to_list_app.
  change (to_list " ") with [" "%char]. apply words_app.
  split; [by repeat constructor | simpl; lia].
Qed.

Lemma words_nonempty s : words (to_list s) <> [] -> nonempty s = true.
Proof. by destruct s. Qed.

Lemma junk_buffer_no_row buffer : junk_buffer buffer -> parse_row_to_columns buffer = None.
Proof.
  intros [_ Hc]. destruct (parse_row_to_columns buffer) eqn:Hp; [|done].
  apply parse_row_starts_with_code in Hp. congruence.
Qed.

Lemma junk_buffer_combine buffer l3 :
  junk_buffer buffer -> junk_buffer (combine buffer l3).
Proof.
  intros [Hw Hc]. unfold junk_buffer, starts_with_code in *.
  rewrite words_combine by (by apply words_nonempty).
  destruct (words (to_list buffer)) as [|w ws]; done.
Qed.

Lemma rows_loop_junk lines : forall buffer table_rows,
  junk_buffer buffer ->
  (rows_loop lines buffer table_rows).2 = table_rows /\
  junk_buffer (rows_loop lines buffer table_rows).1.2.
Proof.
  induction lines as [|raw rest IH]; intros buffer table_rows Hb; [done |].
  rewrite rows_loop_cons. cbv zeta.
  destruct (is_stop (strip raw)); [done |].
  destruct (found header_regex (strip raw)); [by apply IH |].
  destruct (negb (nonempty (strip raw))); [by apply IH |].
  rewrite (junk_buffer_no_row _ (junk_buffer_combine _ _ Hb)).
  rewrite (junk_buffer_no_row _ Hb).
  replace (if nonempty buffer && found code_start_regex (strip raw)
           then None else None) with (@None row) by (by destruct (_ && _)).
  apply IH. by apply junk_buffer_combine.
Qed.

(** X17: when the buffer is empty, a line of the table that does not begin
    with a subject code ends the rows of the table: no row is made from it
    or from any line after it, up to the stop line, by the loop or by the
    flush. *)
Theorem junk_line_ends_the_rows (raw : string) (lines : list string)
    (table_rows : list row) :
  junk_line raw = true ->
  rows_from (raw :: lines) table_rows = table_rows /\
  (collect_rows (raw :: lines)).2 = [].
Proof.
  unfold junk_line.
  intros [[[Hs Hh]%andb_true_iff Hn]%andb_true_iff Hc]%andb_true_iff.
  apply negb_true_iff in Hs, Hh, Hc.
  assert (Hj : junk_buffer (strip raw)).
  { split.
    - rewrite words_strip. intros Hw.
      assert (Hr : row_text raw = []) by (by rewrite row_text_words, Hw).
      rewrite row_text_eq in Hr.
      destruct (strip raw) as [|c s] eqn:Hst; [done |].
      unfold strip in Hst. destruct (strip_l (to_list raw)) as [|x t]; [done |].
      simpl in Hr. by destruct (is_space x).
    - unfold starts_with_code in *. by rewrite words_strip. }
  assert (Hrows : forall rows0, rows_from (raw :: lines) rows0 = rows0).
  { intros rows0. unfold rows_from. rewrite rows_loop_cons. cbv zeta.
    rewrite Hs, Hh, Hn. cbn [negb].
    change (combine "" (strip raw)) with (strip raw).
    rewrite (junk_buffer_no_row _ Hj). cbn [nonempty andb].
    destruct (rows_loop_junk lines (strip raw) rows0 Hj) as [Hr Hb].
    destruct (rows_loop lines (strip raw) rows0) as [[l b] r]. simpl in Hr, Hb.
    subst r. unfold flush. rewrite (junk_buffer_no_row _ Hb).
    by destruct (nonempty b). }
  split; [apply Hrows |].
  specialize (Hrows []). unfold rows_from in Hrows. unfold collect_rows.
  by destruct (rows_loop (raw :: lines) "" []) as [[l b] r].
Qed.

Lemma junk_line_ends_the_rows_witness :
  rows_from ("Total Subjects : 2" :: ["CSE101 Maths Theory 40 50 -- A"]) [] = [] /\
  (collect_rows ("Total Subjects : 2" :: ["CSE101 Maths Theory 40 50 -- A"])).2
    = [].
Proof. apply junk_line_ends_the_rows. vm_compute. reflexivity. Defined.

(** ** The columns of a row *)

Lemma dash_only : forall x, ci "-" x = true -> x = "-"%char.
Proof.
  assert (H : forall x, implb (ci "-" x) (Ascii.eqb x "-") = true) by all_chars.
  intros x Hx. specialize (H x). rewrite Hx in H. by apply Ascii.eqb_eq.
Qed.

Lemma dashes_eq m : dashes m -> m = to_list "--".
Proof.
  unfold dashes. simpl. intros H.
  inversion H as [|? x ? m' Hx H']; subst.
  inversion H' as [|? y ? m'' Hy H'']; subst.
  inversion H''; subst.
  by rewrite (dash_only _ Hx), (dash_only _ Hy).
Qed.

Lemma column_value_mark_ok o : column_ok mark_text o -> mark_ok (column_value o).
Proof.
  destruct o as [[w x]|]; [|by right].
  intros [_ Hx]. rewrite column_value_Some
    by (by apply mark_token in Hx as [[? _] _]).
  destruct Hx as [Hn | Hd].
  - left. by rewrite to_list_of_list.
  - right. apply dashes_eq in Hd. rewrite Hd. apply of_list_to_list.
Qed.

Lemma column_value_grade_ok o : column_ok grade_text o -> grade_ok (column_value o).
Proof.
  destruct o as [[w x]|]; [|by right].
  intros [_ Hx]. left. rewrite column_value_Some
    by (by apply grade_token in Hx as [? _]).
  by rewrite to_list_of_list.
Qed.

Lemma parse_row_columns raw r :
  parse_row_to_columns raw = Some r -> length r = 7 /\ columns_ok r.
Proof.
  intros (p & s' & Ht & Hok & _ & ->)%parse_row_Some.
  split; [reflexivity |].
  destruct (parts_name_normal _ p s' (row_text_collapsed raw) Ht Hok)
    as (Htr & Hcol & Hne).
  destruct Hok as (_ & _ & _ & _ & _ & _ & _ & Hi & He & Hb & Hg & _).
  eexists _, _, _, _, _, _, _. split; [reflexivity |].
  rewrite strip_of_list_trimmed by done.
  unfold name_ok. rewrite !to_list_of_list.
  split; [|auto using column_value_mark_ok, column_value_grade_ok].
  split; [|done]. intros Hn. apply Hne. apply (f_equal to_list) in Hn.
  by rewrite to_list_of_list in Hn.
Qed.

(** X18: every block has the fixed header, and every row has as many
    columns as the header; the Name is not empty, stripped, with single
    spaces; Internal is a string of digits; External and Back Paper are
    digits or ["--"]; Grade is one or two letters with an optional [+], or
    ["--"]. *)
Theorem blocks_have_shaped_columns (pages : list string) :
  exists general_info blocks,
    extract_marksheet_blocks pages = Some (general_info, blocks) /\
    Forall block_shape_ok blocks.
Proof.
  destruct extract_inv with (R := fun r => length r = 7 /\ columns_ok r)
    (Q := fun _ : gmap string string => True)
    (good_block := block_shape_ok) (pages := pages)
    as (g & b & He & _ & Hb); eauto using parse_row_columns.
  intros s r rs _ Hr. split; [reflexivity |]. exact Hr.
Qed.

(** X19: [parse_row_to_columns] looks at the words of the text only: two
    texts with the same words, whatever the white space between and around
    them, give the same result. *)
Theorem row_depends_on_words_only (raw1 raw2 : string) :
  words (to_list raw1) = words (to_list raw2) ->
  parse_row_to_columns raw1 = parse_row_to_columns raw2.
Proof.
  intros Hw.
  assert (Ht : sub_ws (strip raw1) = sub_ws (strip raw2)).
  { rewrite <- (of_list_to_list (sub_ws (strip raw1))),
            <- (of_list_to_list (sub_ws (strip raw2))).
    change (of_list (row_text raw1) = of_list (row_text raw2)).
    by rewrite !row_text_words, Hw. }
  unfold parse_row_to_columns. by rewrite Ht.
Qed.

Lemma row_depends_on_words_only_witness :
  parse_row_to_columns (String "009" "CSE101   Maths  Theory 40 ") =
  parse_row_to_columns "CSE101 Maths Theory 40".
Proof.
  apply row_depends_on_words_only. vm_compute. reflexivity.
Defined.

(** * Blocks and rows in general position *)

(** ** A block anywhere in a page *)

Lemma capture_summary_semester l2 s :
  capture_summary l2 s !! "Semester" = s !! "Semester".
Proof.
  unfold capture_summary. rewrite !capture_field_lookup.
  destruct (search re_sgpa l2), (search re_result_status l2),
    (search re_total_marks l2), (search re_even_odd l2); done.
Qed.

Lemma summary_after_semester s pre :
  summary_after s pre !! "Semester" = s !! "Semester".
Proof.
  induction pre as [|raw pre IH] using rev_ind; [done |].
  by rewrite summary_after_snoc, capture_summary_semester.
Qed.

Lemma block_semester sem pre :
  summary_after (fresh_summary (semester_number sem)) pre !! "Semester" =
  Some (semester_number sem).
Proof. rewrite summary_after_semester. reflexivity. Qed.

(** A block anywhere in a page: what is before it is scanned as a page by
    itself, and so is what is after it. *)
Lemma page_run_block_at before sem pre hdr tbl after blocks :
  found re_semester (strip sem) = true ->
  Forall summary_line pre ->
  found header_regex (strip hdr) = true ->
  Forall (fun raw => is_stop (strip raw) = false) tbl ->
  stop_led after ->
  page_run (before ++ sem :: pre ++ hdr :: tbl ++ after) None blocks =
    finalize_block (summary_after (fresh_summary (semester_number sem)) pre)
      (collect_rows tbl).2 (page_run before None blocks) ++
    page_run after None [].
Proof.
  intros Hsem Hpre Hh Htbl Hafter.
  rewrite page_run_app_semester by done.
  rewrite page_run_block by done.
  set (bs := page_run before None blocks).
  set (s := summary_after _ pre).
  destruct after as [|a after].
  - rewrite app_nil_r, collect_rows_no_stop by done.
    rewrite !page_run_nil. by rewrite app_nil_r.
  - simpl in Hafter. rewrite collect_rows_app_stop by done. cbn [fst snd].
    rewrite collect_rows_no_stop by done. simpl app.
    rewrite <- (app_nil_r (finalize_block s (collect_rows tbl).2 bs)) at 1.
    apply page_run_app.
Qed.

Lemma finalize_block_rows s r rs blocks :
  finalize_block s (r :: rs) blocks = blocks ++ [Block s header_cols (r :: rs)].
Proof. reflexivity. Qed.

(** C2, amended: in every block, wherever it stands in its page, each of the
    fields Even/Odd, Total Marks Obt., Result Status and SGPA has the value
    of the last line, between the ["Semester :"] line of the block and its
    table header, that its pattern matches (a later matching line overwrites
    the value of an earlier one), and is empty when no line matches:
    nothing is kept of what comes before the ["Semester :"] line.  The
    lines before the block and the lines after it give the blocks that they
    give by themselves. *)
Theorem summary_field_last_match_wins before sem pre hdr tbl after row1 rows1 blocks :
  found re_semester (strip sem) = true ->
  Forall summary_line pre ->
  found header_regex (strip hdr) = true ->
  Forall (fun raw => is_stop (strip raw) = false) tbl ->
  (collect_rows tbl).2 = row1 :: rows1 ->
  stop_led after ->
  exists blocks_before s blocks_after,
    scan_page before blocks = Some blocks_before /\
    scan_page after [] = Some blocks_after /\
    scan_page (before ++ sem :: pre ++ hdr :: tbl ++ after) blocks =
      Some (blocks_before ++ Block s header_cols (row1 :: rows1) :: blocks_after) /\
    s !! "Semester" = Some (semester_number sem) /\
    forall key r post, (key, r, post) ∈ summary_fields ->
      s !! key = Some (default "" (last (captures_of r post pre))).
Proof.
  intros Hsem Hpre Hh Htbl Hrows Hafter.
  exists (page_run before None blocks),
    (summary_after (fresh_summary (semester_number sem)) pre),
    (page_run after None []).
  rewrite !scan_page_run. split; [done |]. split; [done |]. split.
  - rewrite page_run_block_at, Hrows, finalize_block_rows by done.
    by rewrite <- app_assoc.
  - split; [apply block_semester |]. intros key r post Hkey.
    rewrite (summary_after_field key r post) by done.
    destruct (last (captures_of r post pre)); [done |].
    unfold summary_fields in Hkey.
    repeat (apply elem_of_cons in Hkey as [[= -> -> ->] | Hkey]);
      [| | | | by apply elem_of_nil in Hkey]; reflexivity.
Qed.

Lemma summary_field_last_match_wins_witness :
  exists blocks_before s blocks_after,
    scan_page ["Semester : 1"; "SGPA : 7.5"; "Result Status : PASS"] [] =
      Some blocks_before /\
    scan_page ["Semester : 3"] [] = Some blocks_after /\
    scan_page (["Semester : 1"; "SGPA : 7.5"; "Result Status : PASS"] ++
               "Semester : 2" :: ["SGPA : 8.0"; "SGPA : 8.5"] ++
               "Code Name Type Internal External Back Paper Grade" ::
               ["CSE101 Maths Theory 40 50 -- A"] ++ ["Semester : 3"]) [] =
      Some (blocks_before ++
            Block s header_cols
              [["CSE101"; "Maths"; "Theory"; "40"; "50"; "--"; "A"]] ::
            blocks_after) /\
    s !! "Semester" = Some (semester_number "Semester : 2") /\
    forall key r post, (key, r, post) ∈ summary_fields ->
      s !! key =
        Some (default "" (last (captures_of r post ["SGPA : 8.0"; "SGPA : 8.5"]))).
Proof.
  apply summary_field_last_match_wins.
  - vm_compute. reflexivity.
  - repeat constructor.
  - vm_compute. reflexivity.
  - repeat constructor.
  - vm_compute. reflexivity.
  - vm_compute. reflexivity.
Defined.

(** In the witness, the block of the second ["Semester :"] line has the
    value of the last of its two SGPA lines, and nothing of the lines of the
    first ["Semester :"] line, which has no table. *)
Example abandoned_summary_is_dropped :
  (fun b => (summary b !! "Semester", summary b !! "SGPA",
             summary b !! "Result Status")) <$>
  page_run (["Semester : 1"; "SGPA : 7.5"; "Result Status : PASS"] ++
            "Semester : 2" :: ["SGPA : 8.0"; "SGPA : 8.5"] ++
            "Code Name Type Internal External Back Paper Grade" ::
            ["CSE101 Maths Theory 40 50 -- A"] ++ ["Semester : 3"]) None [] =
  [(Some "2", Some "8.5", Some "")].
Proof. vm_compute. reflexivity. Qed.

(** ** Stop lines and blocks back to back *)

(** Lines that are rows by themselves give these rows, and leave the buffer
    empty. *)
Lemma rows_loop_row_lines tbl rows :
  Forall2 row_line tbl rows ->
  forall lines table_rows,
    rows_loop (tbl ++ lines) "" table_rows = rows_loop lines "" (table_rows ++ rows).
Proof.
  induction 1 as [|raw r tbl rows (Hs & Hh & Hp) _ IH]; intros lines table_rows.
  { by rewrite app_nil_r. }
  rewrite <- app_comm_cons, rows_loop_cons. cbv zeta. rewrite Hs, Hh.
  assert (Hn : nonempty (strip raw) = true).
  { destruct (strip raw); [|done]. by rewrite parse_row_empty in Hp. }
  rewrite Hn. cbn [negb]. change (combine "" (strip raw)) with (strip raw).
  rewrite Hp, IH. by rewrite <- app_assoc.
Qed.

Lemma collect_rows_row_lines tbl rows :
  Forall2 row_line tbl rows -> collect_rows tbl = ([], rows).
Proof.
  intros H. unfold collect_rows.
  rewrite <- (app_nil_r tbl), (rows_loop_row_lines _ _ H). reflexivity.
Qed.

Lemma row_lines_not_stop tbl rows :
  Forall2 row_line tbl rows -> Forall (fun raw => is_stop (strip raw) = false) tbl.
Proof. induction 1 as [|raw r tbl rows (Hs & _) _ IH]; constructor; done. Qed.

(** The block of a block text anywhere in a page. *)
Lemma page_run_block_text before sem pre hdr tbl rows after blocks :
  block_text sem pre hdr tbl rows -> stop_led after ->
  page_run (before ++ sem :: pre ++ hdr :: tbl ++ after) None blocks =
    page_run before None blocks ++ block_of sem pre rows :: page_run after None [].
Proof.
  intros (Hsem & Hpre & Hh & Htbl & Hne) Hafter.
  rewrite page_run_block_at by eauto using row_lines_not_stop.
  rewrite (collect_rows_row_lines _ _ Htbl). cbn [snd].
  destruct rows as [|r rs]; [done |].
  rewrite finalize_block_rows. by rewrite <- app_assoc.
Qed.

(** C7: when the row loop stops at the line [s], the block of the lines
    before [s] is finalized with its rows, and the scan goes on at [s] as the
    outer scan does on a page that begins with [s]: the blocks of
    [before ++ sem :: pre ++ hdr :: tbl ++ s :: rest] are the blocks of
    [before], the block of [sem :: pre ++ hdr :: tbl] with the rows of [tbl],
    and the blocks of [s :: rest].  So two blocks back to back give two
    blocks, each with its own ["Semester"] and the rows of its own lines. *)
Theorem stop_line_is_scanned_again before sem pre hdr tbl rows s rest
    sem2 pre2 hdr2 tbl2 rows2 after blocks :
  block_text sem pre hdr tbl rows ->
  is_stop (strip s) = true ->
  block_text sem2 pre2 hdr2 tbl2 rows2 ->
  stop_led after ->
  exists blocks_before,
    scan_page before blocks = Some blocks_before /\
    (exists blocks_after,
       scan_page (s :: rest) [] = Some blocks_after /\
       scan_page (before ++ sem :: pre ++ hdr :: tbl ++ s :: rest) blocks =
         Some (blocks_before ++ block_of sem pre rows :: blocks_after)) /\
    (exists blocks_after,
       scan_page after [] = Some blocks_after /\
       scan_page (before ++ (sem :: pre ++ hdr :: tbl) ++
                  (sem2 :: pre2 ++ hdr2 :: tbl2) ++ after) blocks =
         Some (blocks_before ++ block_of sem pre rows ::
               block_of sem2 pre2 rows2 :: blocks_after)) /\
    summary (block_of sem pre rows) !! "Semester" = Some (semester_number sem) /\
    summary (block_of sem2 pre2 rows2) !! "Semester" = Some (semester_number sem2).
Proof.
  intros Hb1 Hs Hb2 Hafter.
  exists (page_run before None blocks). rewrite !scan_page_run.
  split; [done |]. split; [|split; [|split; apply block_semester]].
  - exists (page_run (s :: rest) None []). split; [done |].
    by rewrite (page_run_block_text before sem pre hdr tbl rows (s :: rest)).
  - exists (page_run after None []). split; [done |]. f_equal.
    assert (Hsem2 : stop_led ((sem2 :: pre2 ++ hdr2 :: tbl2) ++ after)).
    { simpl. apply semester_is_stop, Hb2. }
    change ((sem :: pre ++ hdr :: tbl) ++ (sem2 :: pre2 ++ hdr2 :: tbl2) ++ after)
      with (sem :: (pre ++ hdr :: tbl) ++ (sem2 :: pre2 ++ hdr2 :: tbl2) ++ after).
    rewrite <- (app_assoc pre (hdr :: tbl)), <- app_comm_cons.
    rewrite (page_run_block_text before sem pre hdr tbl rows) by done.
    pose proof (page_run_block_text [] sem2 pre2 hdr2 tbl2 rows2 after [] Hb2 Hafter)
      as H2.
    rewrite page_run_nil in H2. cbn [app] in H2.
    rewrite <- app_comm_cons, <- app_assoc, <- app_comm_cons. by rewrite H2.
Qed.

Lemma stop_line_is_scanned_again_witness :
  exists blocks_before,
    scan_page ["Marksheet"] [] = Some blocks_before /\
    (exists blocks_after,
       scan_page ("Major Result" :: ["CSE301 Nets Theory 10"]) [] =
         Some blocks_after /\
       scan_page (["Marksheet"] ++ "Semester : 1" :: ["SGPA : 7.5"] ++
                  "Code Name Type Internal External Back Paper Grade" ::
                  ["CSE101 Maths Theory 40 50 -- A"] ++
                  "Major Result" :: ["CSE301 Nets Theory 10"]) [] =
         Some (blocks_before ++
               block_of "Semester : 1" ["SGPA : 7.5"]
                 [["CSE101"; "Maths"; "Theory"; "40"; "50"; "--"; "A"]] ::
               blocks_after)) /\
    (exists blocks_after,
       scan_page [] [] = Some blocks_after /\
       scan_page (["Marksheet"] ++
                  ("Semester : 1" :: ["SGPA : 7.5"] ++
                   "Code Name Type Internal External Back Paper Grade" ::
                   ["CSE101 Maths Theory 40 50 -- A"]) ++
                  ("Semester : 2" :: [] ++
                   "Code Name Type Internal External Back Paper Grade" ::
                   ["CSE201 Algo Lab 30"]) ++ []) [] =
         Some (blocks_before ++
               block_of "Semester : 1" ["SGPA : 7.5"]
                 [["CSE101"; "Maths"; "Theory"; "40"; "50"; "--"; "A"]] ::
               block_of "Semester : 2" []
                 [["CSE201"; "Algo"; "Lab"; "30"; "--"; "--"; "--"]] ::
               blocks_after)) /\
    summary (block_of "Semester : 1" ["SGPA : 7.5"]
               [["CSE101"; "Maths"; "Theory"; "40"; "50"; "--"; "A"]])
      !! "Semester" = Some (semester_number "Semester : 1") /\
    summary (block_of "Semester : 2" []
               [["CSE201"; "Algo"; "Lab"; "30"; "--"; "--"; "--"]])
      !! "Semester" = Some (semester_number "Semester : 2").
Proof.
  apply stop_line_is_scanned_again.
  - unfold block_text. split; [vm_compute; reflexivity |].
    split; [repeat constructor |]. split; [vm_compute; reflexivity |].
    split; [|done]. repeat constructor.
  - vm_compute. reflexivity.
  - unfold block_text. split; [vm_compute; reflexivity |].
    split; [constructor |]. split; [vm_compute; reflexivity |].
    split; [|done]. repeat constructor.
  - exact I.
Defined.

(** ** Wrapped names *)

(** The rows found so far are kept in front of the rows that the loop
    adds. *)
Lemma rows_loop_app_rows lines : forall buffer acc table_rows,
  rows_loop lines buffer (acc ++ table_rows) =
    let '(lines', buffer', table_rows') := rows_loop lines buffer table_rows in
    (lines', buffer', acc ++ table_rows').
Proof.
  induction lines as [|raw rest IH]; intros buffer acc table_rows; [done |].
  rewrite !rows_loop_cons. cbv zeta.
  destruct (is_stop (strip raw)); [done |].
  destruct (found header_regex (strip raw)); [apply IH |].
  destruct (negb (nonempty (strip raw))); [apply IH |].
  destruct (parse_row_to_columns (combine buffer (strip raw))).
  { rewrite <- app_assoc. apply IH. }
  destruct (nonempty buffer && found code_start_regex (strip raw));
    [destruct (parse_row_to_columns buffer) |]; [| apply IH | apply IH].
  rewrite <- app_assoc. apply IH.
Qed.

Lemma collect_rows_from_rows lines acc :
  (let '(lines', buffer, table_rows) := rows_loop lines "" acc in
   (lines', flush buffer table_rows)) =
  ((collect_rows lines).1, acc ++ (collect_rows lines).2).
Proof.
  unfold collect_rows. rewrite <- (app_nil_r acc) at 1. rewrite rows_loop_app_rows.
  destruct (rows_loop lines "" []) as [[l b] r]. cbn [fst snd]. f_equal.
  unfold flush. destruct (nonempty b); [|done].
  destruct (parse_row_to_columns b); [|done]. by rewrite app_assoc.
Qed.

Lemma parse_row_strip text :
  parse_row_to_columns (strip text) = parse_row_to_columns text.
Proof. unfold parse_row_to_columns. by rewrite strip_idem. Qed.

(** C5, amended: in a row-collection window, after lines that are rows by
    themselves, a line that is no row by itself and the next line are
    merged: when the two stripped lines joined by one space parse as a row,
    that one row is emitted for the two lines and the lines after are read
    with an empty buffer.  The lines ["CSE101 Data Struct"] and
    ["ures Theory 40 50 -- A"] give exactly one row, whose name is
    ["Data Struct ures"]: the halves of the name are joined by a space. *)
Theorem wrapped_name_joined_by_space tbl rows l1 l2 r lines :
  Forall2 row_line tbl rows ->
  text_line l1 -> text_line l2 ->
  parse_row_to_columns (strip l1) = None ->
  parse_row_to_columns (strip l1 +:+ " " +:+ strip l2) = Some r ->
  collect_rows (tbl ++ l1 :: l2 :: lines) =
    ((collect_rows lines).1, rows ++ r :: (collect_rows lines).2) /\
  collect_rows ["CSE101 Data Struct"; "ures Theory 40 50 -- A"] =
    ([], [["CSE101"; "Data Struct ures"; "Theory"; "40"; "50"; "--"; "A"]]).
Proof.
  intros Htbl (Hs1 & Hh1 & Hn1) (Hs2 & Hh2 & Hn2) Hp1 Hp.
  split; [|vm_compute; reflexivity].
  unfold collect_rows at 1. rewrite (rows_loop_row_lines _ _ Htbl).
  rewrite rows_loop_cons. cbv zeta. rewrite Hs1, Hh1, Hn1. cbn [negb].
  change (combine "" (strip l1)) with (strip l1). rewrite Hp1. cbn [nonempty andb].
  rewrite rows_loop_cons. cbv zeta. rewrite Hs2, Hh2, Hn2. cbn [negb].
  assert (Hc : combine (strip l1) (strip l2) =
               strip (strip l1 +:+ " " +:+ strip l2)).
  { unfold combine. by rewrite Hn1. }
  rewrite Hc, parse_row_strip, Hp.
  rewrite collect_rows_from_rows. simpl app. by rewrite <- app_assoc.
Qed.

Lemma wrapped_name_joined_by_space_witness :
  collect_rows (["CSE100 Physics Theory 30 40 -- B"] ++
                "CSE101 Data Struct" :: "ures Theory 40 50 -- A" ::
                ["CSE102 Maths Lab 20"; "Semester : 2"]) =
    ((collect_rows ["CSE102 Maths Lab 20"; "Semester : 2"]).1,
     [["CSE100"; "Physics"; "Theory"; "30"; "40"; "--"; "B"]] ++
     ["CSE101"; "Data Struct ures"; "Theory"; "40"; "50"; "--"; "A"] ::
     (collect_rows ["CSE102 Maths Lab 20"; "Semester : 2"]).2) /\
  collect_rows ["CSE101 Data Struct"; "ures Theory 40 50 -- A"] =
    ([], [["CSE101"; "Data Struct ures"; "Theory"; "40"; "50"; "--"; "A"]]).
Proof.
  apply wrapped_name_joined_by_space.
  - repeat constructor.
  - repeat split.
  - repeat split.
  - vm_compute. reflexivity.
  - vm_compute. reflexivity.
Defined.

(** ** The first word of a row *)



(** ** The round trip, with and without grade *)

Lemma grade_alpha_led m : grade_text m -> alpha_led true m.
Proof.
  intros (a & b & -> & (Ha & Hlen & _) & _).
  destruct a as [|x a]; [simpl in Hlen; lia |].
  apply Forall_cons in Ha as [Hx _]. by exists x, (a ++ b).
Qed.

(** The canonical text of the row of a match, and its words. *)
Lemma canonical_text raw p s' :
  row_text raw = parts_text p ++ s' -> parts_ok p ->
  s' = [] \/ s' = ["010"%char] ->
  let ts := [p_code p] ++ words (p_name p) ++
            [to_list (capitalize (of_list (p_type p))); p_internal p;
             to_list (column_value (p_external p));
             to_list (column_value (p_back_paper p));
             to_list (column_value (p_grade p))] in
  Forall token ts /\ row_text (format_row (row_of_parts p)) = unwords ts.
Proof.
  intros Ht Hok Hs' ts.
  destruct (parts_name_normal _ _ _ (row_text_collapsed raw) Ht Hok)
    as (Htrim & Hcol & Hne).
  pose proof (unwords_words _ Htrim Hcol) as Hn. symmetry in Hn.
  assert (HN : words (p_name p) <> []) by (apply words_nonspace; [done | apply Htrim]).
  destruct Hok as (Hw0 & Hcode & Hw1 & Hname & Hw2 & Hty & Hw3 & Hint & He & Hb &
                   Hg & Hw4).
  assert (Hts : Forall token ts).
  { pose proof (proj1 (type_token _ (type_text_capitalize _ Hty))).
    pose proof (proj1 (number_token _ Hint)).
    pose proof (proj1 (mark_token _ (column_value_mark _ He))).
    pose proof (proj1 (mark_token _ (column_value_mark _ Hb))).
    pose proof (code_token _ Hcode).
    assert (token (to_list (column_value (p_grade p)))).
    { destruct (column_value_grade_ok _ Hg) as [HG | ->].
      - by apply grade_token.
      - apply dashes_token. unfold dashes. simpl. repeat constructor. }
    apply Forall_app. split; [constructor; [assumption | constructor] |].
    apply Forall_app. split; [apply words_tokens |].
    repeat (constructor; [assumption |]). constructor. }
  split; [done |].
  rewrite <- (row_text_unwords ts Hts). f_equal.
  rewrite <- (of_list_to_list (format_row _)). f_equal.
  unfold row_of_parts. rewrite strip_of_list_trimmed by done.
  by rewrite format_row_parts.
Qed.

(** The canonical text of a row without grade does not match the grammar:
    its last word is ["--"], which is no grade, and the word before a mark is
    no type. *)
Lemma no_parse_without_grade raw p s' :
  row_text raw = parts_text p ++ s' -> parts_ok p ->
  s' = [] \/ s' = ["010"%char] -> p_grade p = None ->
  parse_row_to_columns (format_row (row_of_parts p)) = None.
Proof.
  intros Ht Hok Hs' Hgrade.
  destruct (canonical_text raw p s' Ht Hok Hs') as [Hts Htext].
  destruct (parse_row_to_columns (format_row (row_of_parts p))) as [r2|] eqn:Hr2;
    [exfalso | done].
  apply parse_row_Some in Hr2 as (p' & s'' & Ht' & Hok' & Hs'' & _).
  rewrite Htext in Ht'. apply (f_equal words) in Ht'.
  rewrite words_unwords, words_parts in Ht' by done.
  destruct Hok as (_ & _ & _ & _ & _ & _ & _ & Hint & He & Hb & _).
  apply number_token in Hint as [_ HI].
  apply column_value_mark, mark_token in He as [_ HE].
  apply column_value_mark, mark_token in Hb as [_ HB].
  rewrite Hgrade in Ht'. cbn [column_value fmap option_fmap option_map or_else] in Ht'.
  assert (HG : alpha_led false (to_list "--")) by (by exists "-"%char, ["-"%char]).
  destruct Hok' as (_ & _ & _ & _ & _ & Hpt & _ & _ & _ & _ & Hg' & _).
  apply type_token in Hpt as [_ Hpt].
  apply (f_equal (@rev (list ascii))) in Ht'.
  destruct (p_external p') as [[we e]|], (p_back_paper p') as [[wb b]|],
    (p_grade p') as [[wg g]|]; simpl in Ht';
    repeat (rewrite rev_app_distr in Ht'; simpl in Ht').
  - injection Ht' as Hc _. destruct Hg' as [_ Hg'].
    apply grade_alpha_led in Hg'. rewrite <- Hc in Hg'.
    by destruct (alpha_led_clash _ Hg' HG).
  - injection Ht' as _ _ _ Hc _. rewrite <- Hc in Hpt.
    by destruct (alpha_led_clash _ Hpt HI).
  - injection Ht' as _ _ _ Hc _. rewrite <- Hc in Hpt.
    by destruct (alpha_led_clash _ Hpt HI).
  - injection Ht' as _ _ Hc _. rewrite <- Hc in Hpt.
    by destruct (alpha_led_clash _ Hpt HE).
  - injection Ht' as _ _ _ Hc _. rewrite <- Hc in Hpt.
    by destruct (alpha_led_clash _ Hpt HI).
  - injection Ht' as _ _ Hc _. rewrite <- Hc in Hpt.
    by destruct (alpha_led_clash _ Hpt HE).
  - injection Ht' as _ _ Hc _. rewrite <- Hc in Hpt.
    by destruct (alpha_led_clash _ Hpt HE).
  - injection Ht' as _ Hc _. rewrite <- Hc in Hpt.
    by destruct (alpha_led_clash _ Hpt HB).
Qed.

(** C4, amended: when a text parses to a row whose Grade is present (not
    ["--"]), the seven columns joined by one space, with ["--"] for an absent
    External or Back Paper, parse to the same row; so parsing and formatting
    again changes nothing.  When the Grade is absent, the joined columns do
    not parse: the text ends with ["--"], which the grammar does not take as
    a grade. *)
Theorem parse_format_round_trip raw code name type internal external back_paper
    grade :
  parse_row_to_columns raw =
    Some [code; name; type; internal; external; back_paper; grade] ->
  parse_row_to_columns
    (format_row [code; name; type; internal; external; back_paper; grade]) =
    if String.eqb grade "--" then None
    else Some [code; name; type; internal; external; back_paper; grade].
Proof.
  intros Hparse.
  apply parse_row_Some in Hparse as (p & s' & Ht & Hok & Hs' & Hr).
  rewrite Hr. assert (Hg : grade = column_value (p_grade p)).
  { unfold row_of_parts in Hr. by injection Hr as _ _ _ _ _ _ <-. }
  destruct (String.eqb_spec grade "--") as [Heq | Hne].
  - apply (no_parse_without_grade raw p s'); try done.
    destruct (p_grade p) as [[w g]|] eqn:Hpg; [exfalso | done].
    destruct Hok as (_ & _ & _ & _ & _ & _ & _ & _ & _ & _ & Hgr & _).
    rewrite Hpg in Hgr. destruct Hgr as [_ Hgr].
    rewrite Hg, column_value_Some in Heq
      by (by apply grade_token in Hgr as [? _]).
    apply grade_alpha_led in Hgr as (x & m & -> & Hx).
    apply (f_equal to_list) in Heq. rewrite to_list_of_list in Heq.
    injection Heq as -> _. done.
  - apply (parse_format_parts raw p s'); try done.
    apply column_value_None_grade; [done |]. by rewrite <- Hg.
Qed.

Lemma parse_format_round_trip_witness :
  parse_row_to_columns
    (format_row ["CSE101"; "Data Structures"; "Ca"; "40"; "--"; "--"; "A+"]) =
  if String.eqb "A+" "--" then None
  else Some ["CSE101"; "Data Structures"; "Ca"; "40"; "--"; "--"; "A+"].
Proof.
  apply (parse_format_round_trip "  CSE101   Data  Structures  ca 40 A+ ").
  vm_compute. reflexivity.
Defined.
